(** * Community-AI-Governance-Research: the Wikipedia analyzers, embedded

    A shallow embedding of the text-scanning, pagination, aggregation and
    reporting code of the Wikipedia analyzer scripts, followed by the
    properties established about it.

    Conventions.
    - A Python string is a [list ascii]: the embedding covers the strings
      whose characters have code points below 256, a character being its
      8-bit code (ASCII, then Latin-1).  Whitespace, word characters and
      case folding are Python's on these characters.  Characters from
      U+0100 on are not covered, so no text here contains one.  A few of
      them meet the covered ones: the upper case of 0xb5 and of 0xff is
      such a character (and that of 0xdf is [SS]), and under
      [re.IGNORECASE] U+0130 and U+0131 match [i], U+017F matches [s],
      U+212A matches [k], and five more match 0xb5, 0xc5, 0xdf, 0xe5 and
      0xff.  What is proved about [re.IGNORECASE] and [str.lower] is
      proved for texts without these characters.
    - Python [int]s are [Z]; list indices, lengths and loop counters are [nat].
    - A [dict] (and a [Counter], a [defaultdict]) is an association list in
      insertion order with distinct keys, because iteration order is observed
      by [sorted] and [most_common].
    - Network calls are an oracle indexed by the number of the call: the
      answer may depend on the request and on when it is made.
    - [print] and [self.log] append to an output list that is returned with
      the result. *)

From Stdlib Require Import ZArith Lia Ascii String QArith.
From stdpp Require Import base list gmap strings sorting pretty.

Local Open Scope Z_scope.

(** ** Part I: definitions *)

(** *** Python runtime fragments *)

Module Py.

Definition text := list ascii.

Definition txt (s : string) : text := String.list_ascii_of_string s.

(** [dict]: insertion-ordered association list. *)
Section Dict.
Context {K V : Type} `{EqDecision K}.

Definition dict := list (K * V).

Fixpoint dict_get (d : dict) (k : K) : option V :=
  match d with
  | [] => None
  | (k', v) :: d' => if decide (k' = k) then Some v else dict_get d' k
  end.

(** [d[k] = v]: an existing key keeps its place, a new key goes last. *)
Fixpoint dict_set (k : K) (v : V) (d : dict) : dict :=
  match d with
  | [] => [(k, v)]
  | (k', v') :: d' =>
      if decide (k' = k) then (k', v) :: d' else (k', v') :: dict_set k v d'
  end.

Definition dict_keys (d : dict) : list K := d.*1.
Definition dict_values (d : dict) : list V := d.*2.
End Dict.

Arguments dict : clear implicits.

(** [c[k] += n] on a [Counter] or a [defaultdict(int)]. *)
Definition counter_add {K} `{EqDecision K} (k : K) (n : Z) (c : dict K Z)
  : dict K Z :=
  dict_set k (default 0 (dict_get c k) + n) c.

Definition sum_values {K} (c : dict K Z) : Z := foldr Z.add 0 (dict_values c).

(** [sorted(items, key=lambda x: x[1], reverse=True)].  Python's sort is
    stable and stays so under [reverse=True], which fixes the result: the
    items in descending count order, equal counts in their original order.
    Written as an insertion sort from the right. *)
Fixpoint insert_desc {K} (x : K * Z) (l : list (K * Z)) : list (K * Z) :=
  match l with
  | [] => [x]
  | y :: l' => if y.2 <=? x.2 then x :: y :: l' else y :: insert_desc x l'
  end.

Definition sorted_by_count_desc {K} (items : list (K * Z)) : list (K * Z) :=
  foldr insert_desc [] items.

(** The order of the sorted items. *)
Definition count_ge {K} : relation (K * Z) := λ x y, y.2 ≤ x.2.

(** [Counter.most_common(n)] is [heapq.nlargest(n, items, key=count)], which
    is specified as [sorted(items, key=count, reverse=True)[:n]];
    [most_common()] without an argument is the whole sorted list. *)
Definition most_common {K} (n : option nat) (c : dict K Z) : list (K * Z) :=
  match n with
  | Some n => take n (sorted_by_count_desc c)
  | None => sorted_by_count_desc c
  end.


(** Characters. *)
Definition code (c : ascii) : nat := nat_of_ascii c.

Definition newline : ascii := ascii_of_nat 10.
Definition space : ascii := " "%char.

Definition between (lo hi : nat) (c : ascii) : bool :=
  (lo <=? code c)%nat && (code c <=? hi)%nat.

(** The ranges [A-Z], [a-z] and [0-9]; the last is [\d] too. *)
Definition is_upper : ascii → bool := between 65 90.
Definition is_lower : ascii → bool := between 97 122.
Definition is_digit : ascii → bool := between 48 57.
Definition is_alpha (c : ascii) : bool := is_upper c || is_lower c.

(** The Latin-1 letters with another case in Latin-1: 0xc0..0xde without
    the multiplication sign, and 0xe0..0xfe without the division sign. *)
Definition is_latin_upper (c : ascii) : bool :=
  between 192 222 c && negb (code c =? 215)%nat.
Definition is_latin_lower (c : ascii) : bool :=
  between 224 254 c && negb (code c =? 247)%nat.

(** [str.isalnum] above ASCII: the ordinal indicators, the superscript
    digits, the micro sign, the fractions and the letters. *)
Definition is_latin_alnum (c : ascii) : bool :=
  (code c =? 170)%nat || between 178 179 c || (code c =? 181)%nat
  || between 185 186 c || between 188 190 c
  || between 192 214 c || between 216 246 c || between 248 255 c.

(** [\w] and, for [\b], the word characters. *)
Definition is_word (c : ascii) : bool :=
  is_alpha c || is_digit c || Ascii.eqb c "_"%char || is_latin_alnum c.

(** [str.isspace] and [\s]: tab, newline, vertical tab, form feed, carriage
    return, the four separators 0x1c..0x1f, the space, the next-line
    control 0x85 and the no-break space 0xa0. *)
Definition is_space (c : ascii) : bool :=
  between 9 13 c || between 28 31 c || Ascii.eqb c space
  || (code c =? 133)%nat || (code c =? 160)%nat.

(** The other case of a character.  The upper case of 0xb5, 0xdf and 0xff
    is not in Latin-1 ([str.upper] gives U+039C, [SS] and U+0178): these
    three are left as they are, so that [upper] is [str.upper] on the texts
    without them. *)
Definition lower_char (c : ascii) : ascii :=
  if is_upper c || is_latin_upper c then ascii_of_nat (code c + 32) else c.
Definition upper_char (c : ascii) : ascii :=
  if is_lower c || is_latin_lower c then ascii_of_nat (code c - 32) else c.

(** [s.lower()], [s.upper()]. *)
Definition lower (s : text) : text := lower_char <$> s.
Definition upper (s : text) : text := upper_char <$> s.

(** [s.replace('\n', ' ')]. *)
Definition replace_newlines (s : text) : text :=
  (λ c, if Ascii.eqb c newline then space else c) <$> s.

(** [s.lstrip()], [s.rstrip()], [s.strip()]. *)
Fixpoint lstrip (s : text) : text :=
  match s with
  | c :: s' => if is_space c then lstrip s' else s
  | [] => []
  end.
Definition rstrip (s : text) : text := reverse (lstrip (reverse s)).
Definition strip (s : text) : text := rstrip (lstrip s).

(** [s.split('\n')]: the pieces between newlines, at least one piece. *)
Fixpoint split_lines (s : text) : list text :=
  match s with
  | [] => [[]]
  | c :: s' =>
      let ls := split_lines s' in
      if Ascii.eqb c newline then [] :: ls else (c :: hd [] ls) :: tl ls
  end.

(** [s.startswith(p)] and [p in s]. *)
Fixpoint startswith (p s : text) : bool :=
  match p, s with
  | [], _ => true
  | a :: p', b :: s' => Ascii.eqb a b && startswith p' s'
  | _ :: _, [] => false
  end.
Fixpoint contains (p s : text) : bool :=
  startswith p s || match s with [] => false | _ :: s' => contains p s' end.

(** [s[a:b]] for [0 <= a], [0 <= b]. *)
Definition slice (s : text) (a b : nat) : text := take (b - a) (drop a s).

(** Truthiness of a string. *)
Definition nonempty (s : text) : bool :=
  match s with [] => false | _ => true end.

(** [a / b] on integers: the quotient, or the exception.  A float is kept
    as the exact quotient. *)
Inductive exn := ZeroDivisionError.

Definition div (a b : Z) : exn + Q :=
  if (b =? 0)%Z then inl ZeroDivisionError
  else inr (inject_Z a / inject_Z b)%Q.

End Py.

(** *** The [re] module: a backtracking matcher

    The regular expressions of the scripts are kept as syntax trees and run
    by a backtracking matcher in continuation-passing style: alternatives are
    tried left to right, greedy repetitions try the longest first and lazy
    ones the shortest first, and the first way to reach the end of the
    pattern wins, as in Python's [re]. *)

Module Re.
Import Py.

Local Open Scope nat_scope.

Record flags := Flags { ignorecase : bool; dotall : bool; multiline : bool }.

Definition NOFLAGS := Flags false false false.
Definition IGNORECASE := Flags true false false.
Definition IGNORECASE_DOTALL := Flags true true false.
Definition IGNORECASE_MULTILINE := Flags true false true.

(** Members of a bracket expression. *)
Inductive citem :=
| COne (c : ascii)
| CRange (lo hi : ascii)
| CSpace
| CDigit
| CWord.

Inductive regex :=
| Empty
| Lit (c : ascii)
| Dot
| Class (negated : bool) (items : list citem)
| Cat (r1 r2 : regex)
| Alt (r1 r2 : regex)
| Rep (greedy : bool) (lo : nat) (hi : option nat) (r : regex)
| Group (i : nat) (r : regex)
| Backref (i : nat)
| Bol
| Eol
| WordBoundary.

(** Pattern syntax. *)
Definition Seq (rs : list regex) : regex := foldr Cat Empty rs.
Definition Alts (r : regex) (rs : list regex) : regex := foldl Alt r rs.
Definition Star := Rep true 0 None.
Definition Plus := Rep true 1 None.
Definition LazyStar := Rep false 0 None.
Definition LazyPlus := Rep false 1 None.
Definition Opt := Rep true 0 (Some 1).
Definition Whitespace := Class false [CSpace].
Definition Digit := Class false [CDigit].

(** A pattern text without metacharacters, and [re.escape] of any text. *)
Definition literal (s : text) : regex := Seq (Lit <$> s).
Definition lit (s : string) : regex := literal (txt s).

(** The matcher's position in the subject: characters consumed, the
    character before the position, the characters ahead, and the groups
    captured so far (most recent first). *)
Record mstate := MState {
  pos : nat;
  prev : option ascii;
  rest : text;
  caps : list (nat * text)
}.

Definition initial (s : text) : mstate := MState 0 None s [].

Definition advance (s : mstate) (c : ascii) (t : text) : mstate :=
  MState (S (pos s)) (Some c) t (caps s).

Definition set_cap (i : nat) (v : text) (s : mstate) : mstate :=
  MState (pos s) (prev s) (rest s) ((i, v) :: caps s).

Fixpoint get_cap (cs : list (nat * text)) (i : nat) : option text :=
  match cs with
  | [] => None
  | (j, v) :: cs' => if j =? i then Some v else get_cap cs' i
  end.

Section Matcher.
Variable fl : flags.

(** A character of the pattern against one of the subject.  Under
    [IGNORECASE] two characters below U+0100 match when their lower cases
    are the same. *)
Definition char_eq (c a : ascii) : bool :=
  if ignorecase fl then Ascii.eqb (lower_char c) (lower_char a)
  else Ascii.eqb c a.

Definition item_has (it : citem) (a : ascii) : bool :=
  match it with
  | COne c => Ascii.eqb c a
  | CRange lo hi => between (code lo) (code hi) a
  | CSpace => is_space a
  | CDigit => is_digit a
  | CWord => is_word a
  end.

(** Under [IGNORECASE] a character is in a set when one of its two cases
    is; negation applies to the set so extended. *)
Definition class_has (negated : bool) (items : list citem) (a : ascii)
  : bool :=
  let hit :=
    existsb (λ it, item_has it a) items
    || (ignorecase fl
        && (existsb (λ it, item_has it (lower_char a)) items
            || existsb (λ it, item_has it (upper_char a)) items)) in
  if negated then negb hit else hit.

Definition dot_ok (a : ascii) : bool :=
  dotall fl || negb (Ascii.eqb a newline).

Definition at_bol (s : mstate) : bool :=
  match prev s with
  | None => true
  | Some c => multiline fl && Ascii.eqb c newline
  end.

(** [$]: at the end, or before a newline that ends the text; under
    [MULTILINE] before any newline. *)
Definition at_eol (s : mstate) : bool :=
  match rest s with
  | [] => true
  | c :: t =>
      Ascii.eqb c newline
      && (multiline fl || match t with [] => true | _ => false end)
  end.

Definition at_word_boundary (s : mstate) : bool :=
  let before := match prev s with Some c => is_word c | None => false end in
  let after := match rest s with c :: _ => is_word c | [] => false end in
  xorb before after.

(** Consume the text [v] (an earlier capture) at the position. *)
Fixpoint eat (v : text) (s : mstate) : option mstate :=
  match v with
  | [] => Some s
  | c :: v' =>
      match rest s with
      | a :: t => if char_eq c a then eat v' (advance s a t) else None
      | [] => None
      end
  end.

Section Engine.
Context {R : Type}.
Implicit Types (k : mstate → option R).

Definition orelse (x y : option R) : option R :=
  match x with Some _ => x | None => y end.

Definition one (ok : ascii → bool) (s : mstate) k : option R :=
  match rest s with
  | a :: t => if ok a then k (advance s a t) else None
  | [] => None
  end.

(** [r{lo,..}] with [n] more iterations allowed.  An iteration that is
    not required and consumes nothing is not taken. *)
Fixpoint rep (step : mstate → (mstate → option R) → option R)
    (greedy : bool) (lo n : nat) (s : mstate) k : option R :=
  match n with
  | 0 => match lo with 0 => k s | S _ => None end
  | S n' =>
      match lo with
      | S lo' => step s (λ s1, rep step greedy lo' n' s1 k)
      | 0 =>
          let more :=
            step s (λ s1, if pos s1 =? pos s then None
                          else rep step greedy 0 n' s1 k) in
          if greedy then orelse more (k s) else orelse (k s) more
      end
  end.

Fixpoint run (r : regex) (s : mstate) k {struct r} : option R :=
  match r with
  | Empty => k s
  | Lit c => one (char_eq c) s k
  | Dot => one dot_ok s k
  | Class negated items => one (class_has negated items) s k
  | Cat r1 r2 => run r1 s (λ s1, run r2 s1 k)
  | Alt r1 r2 => orelse (run r1 s k) (run r2 s k)
  | Rep greedy lo hi r1 =>
      let n := match hi with
               | Some h => h
               | None => lo + length (rest s)
               end in
      rep (run r1) greedy lo n s k
  | Group i r1 =>
      run r1 s (λ s1, k (set_cap i (take (pos s1 - pos s) (rest s)) s1))
  | Backref i =>
      match get_cap (caps s) i with
      | Some v => match eat v s with Some s1 => k s1 | None => None end
      | None => None
      end
  | Bol => if at_bol s then k s else None
  | Eol => if at_eol s then k s else None
  | WordBoundary => if at_word_boundary s then k s else None
  end.
End Engine.

(** A match object: [m.start()], [m.end()], [m.group(0)] and the groups. *)
Record match_obj := Match {
  m_start : nat;
  m_end : nat;
  m_group0 : text;
  m_caps : list (nat * text)
}.

Definition group (m : match_obj) (i : nat) : text :=
  default [] (get_cap (m_caps m) i).

Definition mk_match (s s' : mstate) : match_obj :=
  Match (pos s) (pos s') (take (pos s' - pos s) (rest s)) (caps s').

(** One attempt at the position [s]; [must_advance] refuses the empty
    match there (set after an empty match by the scanning functions). *)
Definition attempt (r : regex) (must_advance : bool) (s : mstate)
  : option match_obj :=
  run r s (λ s', if must_advance && (pos s' =? pos s) then None
                 else Some (mk_match s s')).

(** [re.match(r, text)]: a match at the beginning. *)
Definition re_match (r : regex) (s : text) : option match_obj :=
  attempt r false (initial s).

(** Leftmost match at or after a position. *)
Fixpoint search_at (r : regex) (must_advance : bool)
    (p : nat) (pv : option ascii) (t : text) : option match_obj :=
  match attempt r must_advance (MState p pv t []) with
  | Some m => Some m
  | None =>
      match t with
      | [] => None
      | a :: t' => search_at r false (S p) (Some a) t'
      end
  end.

(** [re.search(r, text)]. *)
Definition search (r : regex) (s : text) : option match_obj :=
  search_at r false 0 None s.

(** The scanning loop shared by [finditer], [findall] and [split]: search,
    then resume at the end of the match. *)
Fixpoint scan (fuel : nat) (r : regex) (must_advance : bool)
    (p : nat) (pv : option ascii) (t : text) : list match_obj :=
  match fuel with
  | 0 => []
  | S fuel' =>
      match search_at r must_advance p pv t with
      | None => []
      | Some m =>
          let d := m_end m - p in
          m :: scan fuel' r (m_end m =? m_start m) (m_end m)
                 (match d with 0 => pv | S _ => last (take d t) end)
                 (drop d t)
      end
  end.

(** [re.finditer(r, text)]. *)
Definition finditer (r : regex) (s : text) : list match_obj :=
  scan (2 * length s + 2) r false 0 None s.

(** [re.findall(r, text)] for a pattern without groups: the matched
    texts. *)
Definition findall (r : regex) (s : text) : list text :=
  m_group0 <$> finditer r s.

(** [re.split(r, text)] for a pattern with the one group [1], taking part
    in every match: the pieces between matches, each match's group in
    between. *)
Fixpoint split_pieces (s : text) (from : nat) (ms : list match_obj)
  : list text :=
  match ms with
  | [] => [drop from s]
  | m :: ms' =>
      slice s from (m_start m) :: group m 1 :: split_pieces s (m_end m) ms'
  end.

Definition split (r : regex) (s : text) : list text :=
  split_pieces s 0 (finditer r s).
End Matcher.

End Re.

(** *** Network replies *)

Module Net.
Import Py.

(** What a request gives to the code that makes it: the exception raised
    by [requests.get(..)] (connection error, timeout), by
    [raise_for_status()] where the function calls it (HTTP error status) or
    by [response.json()] (a body that is not JSON), or else the decoded
    body.  A function that does not call [raise_for_status()] never looks
    at the status: for it a reply with an error status and a JSON body is a
    [Json] like any other. *)
Inductive reply (A : Type) :=
| Raised (e : text)
| Json (data : A).
Arguments Raised {A} e.
Arguments Json {A} data.

End Net.

(** *** wikipedia_afd_ai_pattern_analyzer.py *)

Module AfdPattern.
Import Py Re Net.

(** An entry of [data['query']['search']], a JSON object whose keys may
    each be absent: [title] and [snippet] are read with [result[..]], which
    raises [KeyError] on an absent key, [timestamp] and [wordcount] with
    [result.get(..)], which has a default. *)
Record search_result := SearchResult {
  sr_title : option text;
  sr_snippet : option text;
  sr_timestamp : option text;
  sr_wordcount : option Z
}.

(** The body of a search reply: [data.get('query', {}).get('search', [])]
    reads an absent key as no results. *)
Record search_data := SearchData { sd_search : option (list search_result) }.

Record discussion := Discussion {
  d_title : text;
  d_snippet : text;
  d_keyword : text;
  d_timestamp : text;
  d_wordcount : Z
}.

Inductive out :=
| Banner (s : text)
| Searching (keyword : text)
| Found (results new_results : nat)
| Error (e : text)
| TotalUnique (n : nat).

Definition keywords : list text :=
  txt <$> ["AI-generated"; "ChatGPT"; "GPT"; "language model";
           "suspected AI"; "looks like AI"; "AI writing"].

(** The state the keyword loop works on. *)
Record collector := Collector {
  all_discussions : list discussion;
  seen_titles : gset text;
  printed : list out
}.

Definition print (o : out) (c : collector) : collector :=
  Collector (all_discussions c) (seen_titles c) (printed c ++ [o]).

(** [for result in results], on the collector and [new_results]: the state
    and [new_results] at the end of the loop, or the state at the [KeyError]
    of an absent key with the text of the exception.  [result['title']] is
    read first.  For a title not seen, [seen_titles.add(..)] runs before the
    entry is built, and building the entry reads [result['snippet']]: a
    result without snippet leaves its title seen and not listed.  The
    results after the one that raised are not visited. *)
Fixpoint add_results (keyword : text) (c : collector) (new_results : nat)
    (results : list search_result) : collector * (text + nat) :=
  match results with
  | [] => (c, inr new_results)
  | result :: results' =>
      match sr_title result with
      | None => (c, inl (txt "'title'"))
      | Some title =>
          if decide (title ∈ seen_titles c)
          then add_results keyword c new_results results'
          else
            let c := Collector (all_discussions c)
                       ({[ title ]} ∪ seen_titles c) (printed c) in
            match sr_snippet result with
            | None => (c, inl (txt "'snippet'"))
            | Some snippet =>
                add_results keyword
                  (Collector
                     (all_discussions c ++
                        [Discussion title snippet keyword
                           (default [] (sr_timestamp result))
                           (default 0%Z (sr_wordcount result))])
                     (seen_titles c) (printed c))
                  (S new_results) results'
            end
      end
  end.

(** The body of [for keyword in keywords]; [r] is what the request for
    this keyword gave.  The [try] covers the request and the loop over the
    results: an exception of either is printed, and what the loop had done
    before it stays done. *)
Definition search_keyword (c : collector) (keyword : text)
    (r : reply search_data) : collector :=
  let c := print (Searching keyword) c in
  match r with
  | Json data =>
      let results := default [] (sd_search data) in
      match add_results keyword c 0%nat results with
      | (c, inr new_results) => print (Found (length results) new_results) c
      | (c, inl e) => print (Error e) c
      end
  | Raised e => print (Error e) c
  end.

(** The keyword loop over any keyword list; the [i]-th request of the run
    asks for the [i]-th keyword. *)
Fixpoint search_keywords (api : nat → text → reply search_data)
    (i : nat) (kws : list text) (c : collector) : collector :=
  match kws with
  | [] => c
  | keyword :: kws' =>
      search_keywords api (S i) kws' (search_keyword c keyword (api i keyword))
  end.

Definition get_afd_discussions_ai (api : nat → text → reply search_data)
    (limit : Z) : list discussion * list out :=
  let c := Collector [] ∅
             [Banner (txt "FETCHING AFD DISCUSSIONS WITH AI MENTIONS")] in
  let c := search_keywords api 0 keywords c in
  let c := print (TotalUnique (length (all_discussions c))) c in
  (all_discussions c, printed c).

(** [analyze_afd_text]. *)

Record indicator_entry := IndicatorEntry {
  ie_indicator : text;
  ie_count : nat;
  ie_examples : list text
}.

Record outcome := Outcome { o_type : text; o_decision : text }.

Record argument := Argument { a_vote : text; a_reasoning : text }.

(** The analysis dictionary, without [policies_cited]: that field is
    [list(set(policies))[:10]], ten elements in the iteration order of a set
    of strings, which Python leaves unspecified. *)
Record analysis := Analysis {
  an_article : text;
  an_text_length : nat;
  an_detection_indicators : list indicator_entry;
  an_tools_mentioned : list text;
  an_outcomes : list outcome;
  an_arguments : list argument;
  an_voters : nat
}.

Definition indicators : list text :=
  txt <$> ["AI-generated"; "ChatGPT"; "GPT"; "language model"; "LLM";
           "sounds like AI"; "looks like AI"; "reads like AI";
           "AI slop"; "AI writing"; "AI-written"; "machine-generated";
           "bot-written"; "automated"; "hallucinated"; "hallucination";
           "word salad"; "generic"; "non-human"; "robotic"].

Definition tools : list text :=
  txt <$> ["GPTZero"; "AI detector"; "detection tool"; "AI checker"].

(** [f'.{{0,100}}{re.escape(indicator)}.{{0,100}}'] *)
Definition context_pattern (indicator : text) : regex :=
  Seq [Rep true 0 (Some 100%nat) Dot; literal indicator;
       Rep true 0 (Some 100%nat) Dot].

(** The body of [for indicator in indicators].  The indicators are plain
    words, so as a pattern ([re.search(indicator, ..)]) and escaped
    ([re.escape(indicator)]) each stands for itself. *)
Definition scan_indicator (text : Py.text) (indicator : Py.text)
  : list indicator_entry :=
  match search IGNORECASE (literal indicator) text with
  | Some _ =>
      let matches := findall IGNORECASE_DOTALL (context_pattern indicator) text in
      match matches with
      | [] => []
      | _ =>
          [IndicatorEntry indicator (length matches)
             ((λ m, take 200 (replace_newlines m)) <$> take 2 matches)]
      end
  | None => []
  end.

Definition scan_indicators (inds : list Py.text) (text : Py.text)
  : list indicator_entry :=
  inds ≫= scan_indicator text.

(** [r"The result was '''([^']+)'''"] *)
Definition result_pattern : regex :=
  Seq [lit "The result was '''"; Group 1 (Plus (Class true [COne "'"%char]));
       lit "'''"].

(** [r"^\*\s*'''(Delete|Keep|Redirect|Merge)'''(.{0,300})"] *)
Definition vote_pattern : regex :=
  Seq [Bol; Lit "*"; Star Whitespace; lit "'''";
       Group 1 (Alts (lit "Delete") [lit "Keep"; lit "Redirect"; lit "Merge"]);
       lit "'''"; Group 2 (Rep true 0 (Some 300%nat) Dot)].

Definition vote_argument (m : match_obj) : list argument :=
  let reasoning_clean := strip (replace_newlines (group m 2)) in
  if contains (txt "AI") reasoning_clean || contains (txt "GPT") reasoning_clean
  then [Argument (group m 1) (take 200 reasoning_clean)]
  else [].

(** The analysis over any indicator list; [None] is Python's [None]. *)
Definition analyze_with (inds : list Py.text) (text : option Py.text)
    (article_name : Py.text) : option analysis :=
  match text with
  | None | Some [] => None
  | Some text =>
      let votes := finditer IGNORECASE_MULTILINE vote_pattern text in
      Some (Analysis article_name (length text)
              (scan_indicators inds text)
              (filter (λ tool, is_Some (search IGNORECASE (literal tool) text))
                 tools)
              (match search IGNORECASE result_pattern text with
               | Some m => [Outcome (txt "formal_result") (group m 1)]
               | None => []
               end)
              (take 5 votes ≫= vote_argument)
              (length votes))
  end.

Definition analyze_afd_text : option Py.text → Py.text → option analysis :=
  analyze_with indicators.

(** [categorize_detection_patterns]: the frequency tables and the ranking
    that is printed. *)
Record patterns := Patterns {
  p_indicators : dict text Z;
  p_tools : dict text Z;
  p_outcomes : dict text Z
}.

Definition count_indicators (all_analyses : list (option analysis))
  : dict text Z :=
  foldl (λ acc e, counter_add (lower (ie_indicator e)) (Z.of_nat (ie_count e)) acc)
    [] (omap id all_analyses ≫= an_detection_indicators).

Definition count_tools (all_analyses : list (option analysis)) : dict text Z :=
  foldl (λ acc tool, counter_add (lower tool) 1%Z acc)
    [] (omap id all_analyses ≫= an_tools_mentioned).

Definition count_outcomes (all_analyses : list (option analysis))
  : dict text Z :=
  foldl (λ acc o, counter_add (o_decision o) 1%Z acc)
    [] (omap id all_analyses ≫= an_outcomes).

(** [sorted_indicators] and the fifteen lines printed from it. *)
Definition sorted_indicators (all_analyses : list (option analysis))
  : list (text * Z) :=
  sorted_by_count_desc (count_indicators all_analyses).

Definition top_indicators (all_analyses : list (option analysis))
  : list (text * Z) :=
  take 15 (sorted_indicators all_analyses).

Definition categorize_detection_patterns
    (all_analyses : list (option analysis)) : patterns :=
  Patterns (sorted_indicators all_analyses) (count_tools all_analyses)
    (count_outcomes all_analyses).

End AfdPattern.

(** *** wikipedia_policy_citation_analyzer.py *)

Module PolicyCitation.
Import Py Re Net.

Definition upper_or_digit : list citem :=
  [CRange "A" "Z"; CRange "0" "9"].

(** [r'(?:WP|Wikipedia|MOS):[A-Z][A-Z0-9]*(?:[-_][A-Z0-9]+)*'] *)
Definition POLICY_PATTERN : regex :=
  Seq [Alts (lit "WP") [lit "Wikipedia"; lit "MOS"]; Lit ":";
       Class false [CRange "A" "Z"]; Star (Class false upper_or_digit);
       Star (Seq [Class false [COne "-"; COne "_"];
                  Plus (Class false upper_or_digit)])].

Definition AI_POLICY_PATTERNS : list regex :=
  [ lit "WP:NOTAI";
    lit "WP:AI";
    lit "Wikipedia:AI";
    Seq [lit "Wikipedia:AI"; Class false [COne "-"; COne "_"]; lit "generated"];
    lit "WP:CHATGPT";
    lit "WP:LLM";
    Seq [lit "WP:BOT"; Opt (Lit "S");
         Alt WordBoundary (Class true [CRange "A" "Z"])];
    lit "MOS:AI" ].

(** An entry of [recentchanges]; [comment] is read with [.get]. *)
Record change := Change { ch_comment : option text }.

(** The body of a reply to the recent-changes query:
    [data.get('query', {}).get('recentchanges', [])], and the [continue]
    object, which may be absent, or present with or without [rccontinue]. *)
Record rc_data := RcData {
  rc_changes : option (list change);
  rc_continue : option (option text)
}.

(** The parameters that vary between requests. *)
Record rc_request := RcRequest { rclimit : Z; rccontinue : option text }.

Inductive out :=
| Banner (s : text)
| Batch (batch_num max_batches : Z)
| NoMoreChanges
| FoundEdits (edits : nat) (total_policies ai_policies : Z)
| NoMoreData
| ErrorInBatch (batch_num : Z) (e : text).

Record results := Results {
  all_policies : dict text Z;
  ai_policies : dict text Z;
  total_edits_checked : Z;
  edits_with_policies : Z;
  batches_processed : Z
}.

(** The local variables of [search_edit_summaries_2025], with the requests
    sent so far and the lines printed. *)
Record locals := Locals {
  counts : results;
  params : rc_request;
  sent : list rc_request;
  printed : list out
}.

Definition print (o : out) (st : locals) : locals :=
  Locals (counts st) (params st) (sent st) (printed st ++ [o]).

Definition is_ai_policy (policy : text) : bool :=
  existsb (λ ai_pattern, bool_decide (is_Some (search IGNORECASE ai_pattern policy)))
    AI_POLICY_PATTERNS.

(** The body of [for policy in policies_in_comment]. *)
Definition count_policy (r : results) (policy : text) : results :=
  let policy_normalized := upper policy in
  Results (counter_add policy_normalized 1%Z (all_policies r))
    (if is_ai_policy policy
     then counter_add policy_normalized 1%Z (ai_policies r)
     else ai_policies r)
    (total_edits_checked r) (edits_with_policies r) (batches_processed r).

(** The body of [for change in changes]. *)
Definition process_change (r : results) (c : change) : results :=
  let r := Results (all_policies r) (ai_policies r)
             (total_edits_checked r + 1)%Z (edits_with_policies r)
             (batches_processed r) in
  match default [] (ch_comment c) with
  | [] => r
  | comment =>
      match findall IGNORECASE POLICY_PATTERN comment with
      | [] => r
      | policies_in_comment =>
          foldl count_policy
            (Results (all_policies r) (ai_policies r) (total_edits_checked r)
               (edits_with_policies r + 1)%Z (batches_processed r))
            policies_in_comment
      end
  end.

(** [while batch_num < max_batches], with [remaining] the iterations the
    condition still allows.  Every [break] returns the state; only a page
    with changes and an [rccontinue] token goes round again. *)
Fixpoint batches (api : nat → rc_request → reply rc_data) (max_batches : Z)
    (remaining : nat) (st : locals) : locals :=
  match remaining with
  | O => st
  | S remaining' =>
      let r := counts st in
      let batch_num := (batches_processed r + 1)%Z in
      let r := Results (all_policies r) (ai_policies r) (total_edits_checked r)
                 (edits_with_policies r) batch_num in
      let st := print (Batch batch_num max_batches)
                  (Locals r (params st) (sent st) (printed st)) in
      let answer := api (length (sent st)) (params st) in
      let st := Locals (counts st) (params st) (sent st ++ [params st])
                  (printed st) in
      match answer with
      | Raised e => print (ErrorInBatch batch_num e) st
      | Json data =>
          match default [] (rc_changes data) with
          | [] => print NoMoreChanges st
          | changes =>
              let r := foldl process_change (counts st) changes in
              let st :=
                print (FoundEdits (length changes) (sum_values (all_policies r))
                         (sum_values (ai_policies r)))
                  (Locals r (params st) (sent st) (printed st)) in
              match rc_continue data with
              | None => print NoMoreData st
              | Some None => print (ErrorInBatch batch_num (txt "'rccontinue'")) st
              | Some (Some token) =>
                  batches api max_batches remaining'
                    (Locals (counts st)
                       (RcRequest (rclimit (params st)) (Some token))
                       (sent st) (printed st))
              end
          end
      end
  end.

Definition search_edit_summaries_2025 (api : nat → rc_request → reply rc_data)
    (limit_per_batch max_batches : Z) : locals :=
  batches api max_batches (Z.to_nat max_batches)
    (Locals (Results [] [] 0 0 0) (RcRequest limit_per_batch None) []
       [Banner (txt "SEARCHING 2025 EDIT SUMMARIES FOR POLICY CITATIONS")]).

(** [print_results]. *)

Inductive line :=
| Title (s : text)
| TotalEdits (n : Z)
| EditsWithPolicies (n : Z) (percent : option Q)
| NoEditsWarning
| TotalCitations (n : Z)
| AiCitations (n : Z)
| AiPolicyRatio (percent : Q) (ai total : Z)
| TopPolicy (rank : nat) (policy : text) (count : Z) (percent : Q) (is_ai : bool)
| AiPolicy (policy : text) (count : Z) (percent_of_all percent_of_ai : Q)
| NoAiPolicies
| UniquePolicies (n : nat)
| UniqueAiPolicies (n : nat)
| AverageCitations (average : Q)
| BatchesProcessed (n : Z).

(** A run of statements that print: the lines printed, and how the run
    ended (an exception, or a value). *)
Definition io (A : Type) : Type := list line * (exn + A).

Definition say (l : line) : io unit := ([l], inr tt).

#[local] Instance io_ret : MRet io := λ A a, ([], inr a).
#[local] Instance io_bind : MBind io := λ A B f m,
  match m with
  | (o, inl e) => (o, inl e)
  | (o, inr a) => let '(o', b) := f a in (o ++ o', b)
  end.

Fixpoint for_each {A} (l : list A) (body : A → io unit) : io unit :=
  match l with
  | [] => mret tt
  | a :: l' => body a;; for_each l' body
  end.

(** [a / b] inside a run. *)
Definition truediv (a b : Z) : io Q := ([], div a b).

Definition percent_of (a b : Z) : io Q :=
  q ← truediv a b; mret (q * 100)%Q.

Definition enumerate_from {A} (start : nat) (l : list A) : list (nat * A) :=
  imap (λ i a, (start + i, a)%nat) l.

Definition print_results (results : results) : io unit :=
  say (Title (txt "ANALYSIS RESULTS"));;
  let total_edits := total_edits_checked results in
  let edits_with_policies := edits_with_policies results in
  let all_policies := all_policies results in
  let ai_policies := ai_policies results in
  let total_policy_citations := sum_values all_policies in
  let total_ai_citations := sum_values ai_policies in
  say (TotalEdits total_edits);;
  if (0 <? total_edits)%Z then
    p ← percent_of edits_with_policies total_edits;
    say (EditsWithPolicies edits_with_policies (Some p));;
    say (TotalCitations total_policy_citations);;
    say (AiCitations total_ai_citations);;
    (if (0 <? total_policy_citations)%Z then
       ai_percentage ← percent_of total_ai_citations total_policy_citations;
       say (AiPolicyRatio ai_percentage total_ai_citations total_policy_citations)
     else mret tt);;
    say (Title (txt "TOP 20 MOST CITED POLICIES (2025)"));;
    for_each (enumerate_from 1 (most_common (Some 20%nat) all_policies))
      (λ '(i, (policy, count)),
         let is_ai := bool_decide (is_Some (dict_get ai_policies policy)) in
         percentage ← percent_of count total_policy_citations;
         say (TopPolicy i policy count percentage is_ai));;
    (match ai_policies with
     | _ :: _ =>
         say (Title (txt "AI-RELATED POLICY CITATIONS"));;
         for_each (most_common None ai_policies)
           (λ '(policy, count),
              percentage ← percent_of count total_policy_citations;
              ai_pct ← percent_of count total_ai_citations;
              say (AiPolicy policy count percentage ai_pct))
     | [] => say NoAiPolicies
     end);;
    say (Title (txt "STATISTICS"));;
    say (UniquePolicies (length all_policies));;
    say (UniqueAiPolicies (length ai_policies));;
    average ← truediv total_policy_citations (Z.of_nat (length all_policies));
    say (AverageCitations average);;
    say (BatchesProcessed (batches_processed results))
  else
    say (EditsWithPolicies edits_with_policies None);;
    say NoEditsWarning.

(** The first two steps of [main]: collect, then print. *)
Definition main_report (api : nat → rc_request → reply rc_data) : io unit :=
  print_results (counts (search_edit_summaries_2025 api 500 20)).

End PolicyCitation.

(** *** wikipedia_ai_enforcement_analyzer.py and
        wikipedia_ai_enforcement_targeted_analyzer.py

    [parse_talk_sections] is the same function in both files. *)

Module Enforcement.
Import Py Re.

(** [r'^(={2,})\s*([^=]+?)\s*\1\s*$'] *)
Definition header_pattern : regex :=
  Seq [Bol; Group 1 (Rep true 2 None (Lit "=")); Star Whitespace;
       Group 2 (LazyPlus (Class true [COne "="%char])); Star Whitespace;
       Backref 1; Star Whitespace; Eol].

Record section := MkSection { title : text; content : text }.

(** The body of [for line in lines], on [sections] and [current_section]. *)
Definition parse_line (acc : list section * section) (line : text)
  : list section * section :=
  let '(sections, current_section) := acc in
  match re_match NOFLAGS header_pattern line with
  | Some m =>
      (if nonempty (content current_section)
       then sections ++ [current_section] else sections,
       MkSection (strip (group m 2)) [])
  | None =>
      (sections,
       MkSection (title current_section)
         (content current_section ++ line ++ [newline]))
  end.

Definition parse_talk_sections (content_ : text) : list section :=
  let lines := split_lines content_ in
  let '(sections, current_section) :=
    foldl parse_line ([], MkSection (txt "Introduction") []) lines in
  if nonempty (content current_section)
  then sections ++ [current_section] else sections.

End Enforcement.

(** *** wikipedia_specific_governance_analyzer.py *)

Module Governance.
Import Py Re.

Definition ai_related_keywords : list text :=
  txt <$> ["artificial intelligence"; "AI"; "machine learning"; "ML";
           "bot"; "automated"; "automation"; "algorithm"; "algorithmic";
           "neural network"; "deep learning"; "chatbot"; "language model";
           "GPT"; "ChatGPT"; "generative"; "AI-generated"; "AI-assisted";
           "computer-generated"; "synthetic"; "auto-generated"].

(** [r'\n==+\s*([^=]+)\s*==+'] *)
Definition section_split_pattern : regex :=
  Seq [Lit newline; Lit "="; Plus (Lit "="); Star Whitespace;
       Group 1 (Plus (Class true [COne "="%char])); Star Whitespace;
       Lit "="; Plus (Lit "=")].

(** [r'\b' + re.escape(keyword) + r'\b'] *)
Definition keyword_pattern (keyword : text) : regex :=
  Seq [WordBoundary; literal keyword; WordBoundary].

Record mention := Mention {
  mn_keyword : text;
  mn_section : text;
  mn_context : text;
  mn_position : nat
}.

Record ai_section := AiSection {
  as_section_title : text;
  as_content : text;
  as_ai_keywords_found : list text
}.

(** The returned dictionary.  [unique_ai_terms] is [list(set(..))], kept as
    the set; the dictionary returned for an empty page has no such key. *)
Record references := References {
  ai_found : bool;
  ai_sections : list ai_section;
  ai_mentions : list mention;
  total_ai_references : nat;
  unique_ai_terms : option (gset text)
}.

(** The body of [for match in matches]: [max(0, match.start() - 100)] is the
    truncated subtraction. *)
Definition mention_of (keyword current_section section_content : text)
    (m : match_obj) : mention :=
  let start := (m_start m - 100)%nat in
  let end_ := (length section_content `min` (m_end m + 100))%nat in
  Mention keyword current_section (strip (slice section_content start end_))
    (m_start m).

(** The body of [for keyword in self.ai_related_keywords]. *)
Definition keyword_mentions (current_section section_content keyword : text)
  : list mention :=
  mention_of keyword current_section section_content
    <$> finditer IGNORECASE (keyword_pattern keyword) section_content.

Definition mentions_in (kws : list text) (current_section section_content : text)
  : list mention :=
  kws ≫= keyword_mentions current_section section_content.

Definition keywords_in (kws : list text) (section_content : text) : list text :=
  filter (λ kw, contains (lower kw) (lower section_content)) kws.

(** The loop variables of [for i, part in enumerate(sections)]. *)
Record walk := Walk {
  w_current_section : text;
  w_mentions : list mention;
  w_sections : list ai_section
}.

Definition visit_part (kws : list text) (w : walk) (ip : nat * text) : walk :=
  let '(i, part) := ip in
  if (i mod 2 =? 0)%nat then
    let section_content := part in
    Walk (w_current_section w)
      (w_mentions w ++ mentions_in kws (w_current_section w) section_content)
      (match keywords_in kws section_content with
       | [] => w_sections w
       | found =>
           w_sections w ++
             [AiSection (w_current_section w) (take 1000 section_content) found]
       end)
  else Walk (strip part) (w_mentions w) (w_sections w).

(** [extract_ai_references] over any keyword list; [wikitext] is
    [page_content.get('wikitext', '')] with an absent key as [None]. *)
Definition extract_with (kws : list text) (wikitext : option text)
  : references :=
  match default [] wikitext with
  | [] => References false [] [] 0 None
  | wikitext =>
      let sections := split NOFLAGS section_split_pattern wikitext in
      let w := foldl (visit_part kws) (Walk (txt "Introduction") [] [])
                 (imap (λ i part, (i, part)) sections) in
      References (bool_decide (0 < length (w_mentions w))%nat)
        (w_sections w) (w_mentions w) (length (w_mentions w))
        (Some (list_to_set (mn_keyword <$> w_mentions w)))
  end.

Definition extract_ai_references (wikitext : option text) : references :=
  extract_with ai_related_keywords wikitext.

End Governance.

(** *** wikipedia_ai_discussions_analyzer.py *)

Module Discussions.
Import Py Re.

Definition ai_discussion_keywords : list text :=
  txt <$> ["AI policy"; "AI guidelines"; "AI-generated content"; "ChatGPT";
           "artificial intelligence policy"; "machine learning policy";
           "generative AI"; "language model"; "AI bot"; "AI tool";
           "AI detection"; "AI verification"; "synthetic content";
           "automated content generation"; "AI assistance"; "AI ethics"].

(** [r'\n=+\s*([^=]+)\s*=+'] *)
Definition section_split_pattern : regex :=
  Seq [Lit newline; Plus (Lit "="); Star Whitespace;
       Group 1 (Plus (Class true [COne "="%char])); Star Whitespace;
       Plus (Lit "=")].

Definition digits (n : nat) : regex := Rep true n (Some n) Digit.

(** [r'\[\[User[^]]*\]\].*?(\d{2}:\d{2}.*?\d{4}|\d{4}-\d{2}-\d{2})'] *)
Definition signature_pattern : regex :=
  Seq [lit "[[User"; Star (Class true [COne "]"%char]); lit "]]"; LazyStar Dot;
       Group 1 (Alt (Seq [digits 2; Lit ":"; digits 2; LazyStar Dot; digits 4])
                    (Seq [digits 4; Lit "-"; digits 2; Lit "-"; digits 2]))].

Record thread := Thread {
  th_section : text;
  th_comment_preview : text;
  th_ai_keywords : list text;
  th_estimated_length : nat
}.

(** The body of [for i in range(0, len(comments)-2, 3)]. *)
Definition thread_at (kws : list text) (section_title : text)
    (comments : list text) (i : nat) : list thread :=
  let comment_text := strip (default [] (comments !! i)) in
  if (50 <? length comment_text)%nat then
    match filter (λ kw, contains (lower kw) (lower comment_text)) kws with
    | [] => []
    | ai_keywords_found =>
        [Thread section_title
           (if (300 <? length comment_text)%nat
            then take 300 comment_text ++ txt "..." else comment_text)
           ai_keywords_found (length comment_text)]
    end
  else [].

Definition extract_discussion_threads (kws : list text)
    (section_content section_title : text) : list thread :=
  let comments := split NOFLAGS signature_pattern section_content in
  filter (λ i, i mod 3 = 0)%nat (seq 0 (length comments - 2))
    ≫= thread_at kws section_title comments.

(** The loop variables of [for i, part in enumerate(sections)]. *)
Definition visit_part (kws : list text) (acc : text * list thread)
    (ip : nat * text) : text * list thread :=
  let '(current_section, discussions) := acc in
  let '(i, part) := ip in
  if (i mod 2 =? 0)%nat then
    let section_content := part in
    if existsb (λ kw, contains (lower kw) (lower section_content)) kws
    then (current_section,
          discussions
          ++ extract_discussion_threads kws section_content current_section)
    else acc
  else (strip part, discussions).

(** [extract_ai_discussions] over any keyword list; [None] is Python's
    [None]. *)
Definition extract_with (kws : list text) (content : option text)
  : list thread :=
  match content with
  | None | Some [] => []
  | Some content =>
      let sections := split NOFLAGS section_split_pattern content in
      (foldl (visit_part kws) (txt "Introduction", [])
         (imap (λ i part, (i, part)) sections)).2
  end.

Definition extract_ai_discussions (content : option text) : list thread :=
  extract_with ai_discussion_keywords content.

End Discussions.

(** *** wikipedia_wikiproject_ai_analyzer.py *)

Module WikiProject.
Import Py Net.

(** An entry of [data['query']['allpages']]. *)
Record page := Page { pg_title : text; pg_pageid : Z }.

(** The body of a reply to the all-pages query: the page list when
    ['query'] and ['allpages'] are present, the token when ['continue'] and
    ['apcontinue'] are. *)
Record allpages_data := AllPages {
  ap_allpages : option (list page);
  ap_continue : option text
}.

Inductive out :=
| FetchingBatch (batch_count : nat)
| FoundProjects (batch_size total_pages_in_batch total : nat)
| NoMoreProjects
| ErrorFetching (e : text).

Record locals := Locals {
  wikiprojects : list page;
  continue_token : option text;
  batch_count : nat;
  sent : list (option text);
  logged : list out
}.

(** How the pagination loop of [get_popular_wikiprojects] can end: by its
    [break], or by an exception that the enclosing [try] turns into the
    result [[]]. *)
Inductive ended :=
| Broke (st : locals)
| Failed (st : locals).

(** [params['apcontinue']] is set only [if continue_token:], so not for an
    empty token either. *)
Definition apcontinue_param (token : option text) : option text :=
  match token with
  | Some (_ :: _) => token
  | _ => None
  end.

(** The [while True] loop that collects the pages, run for at most [fuel]
    iterations; [None] when the loop is still running after them. *)
Fixpoint pagination (api : nat → option text → reply allpages_data)
    (fuel : nat) (st : locals) : option ended :=
  match fuel with
  | O => None
  | S fuel' =>
      let batch_count := S (batch_count st) in
      let request := apcontinue_param (continue_token st) in
      let answer := api (length (sent st)) request in
      let st := Locals (wikiprojects st) (continue_token st) batch_count
                  (sent st ++ [request])
                  (logged st ++ [FetchingBatch batch_count]) in
      match answer with
      | Raised e =>
          Some (Failed (Locals [] (continue_token st) batch_count (sent st)
                          (logged st ++ [ErrorFetching e])))
      | Json data =>
          let pages := default [] (ap_allpages data) in
          let main_pages :=
            filter (λ p, negb (bool_decide (("/"%char) ∈ pg_title p))) pages in
          let projects := wikiprojects st ++ main_pages in
          let st := Locals projects (continue_token st) batch_count (sent st)
                      (logged st ++
                         [FoundProjects (length main_pages) (length pages)
                            (length projects)]) in
          match ap_continue data with
          | Some token =>
              pagination api fuel'
                (Locals (wikiprojects st) (Some token) batch_count (sent st)
                   (logged st))
          | None =>
              Some (Broke (Locals (wikiprojects st) (continue_token st)
                             batch_count (sent st)
                             (logged st ++ [NoMoreProjects])))
          end
      end
  end.

Definition get_popular_wikiprojects_pagination
    (api : nat → option text → reply allpages_data) (fuel : nat)
  : option ended :=
  pagination api fuel (Locals [] None 0 [] []).

End WikiProject.

(** *** eclipse_foundation_collector.py *)

Module Eclipse.
Import Py.

(** [project['category']]: a list, or some other value. *)
Inductive categories :=
| CategoryList (cs : list text)
| CategoryValue (c : text).

(** The fields of a project that [generate_statistics] reads. *)
Record project := Project {
  state : text;
  category : categories;
  repository_platform : text;
  github_organization : text;
  github_issues : bool;
  mailing_lists : list text
}.

(** The statistics dictionary; the three rates are given before
    [round(.., 1)], which acts on the float. *)
Record statistics := Statistics {
  total_projects : nat;
  platform_distribution : dict text Z;
  github_adoption_rate : Q;
  github_issues_adoption : Q;
  mailing_list_usage : Q;
  projects_with_github_issues : Z;
  projects_with_mailing_lists : Z;
  project_states : dict text Z;
  project_categories : dict text Z;
  top_github_organizations : dict text Z
}.

(** [Counter(xs)]. *)
Definition counter (xs : list text) : dict text Z :=
  foldl (λ acc x, counter_add x 1%Z acc) [] xs.

(** [sum(1 for p in projects if cond(p))]. *)
Definition count_if (cond : project → bool) (projects : list project) : Z :=
  Z.of_nat (length (filter (λ p, cond p = true) projects)).

Definition all_categories (projects : list project) : list text :=
  projects ≫= (λ p, match category p with
                    | CategoryList cs => cs
                    | CategoryValue c => if nonempty c then [c] else []
                    end).

Definition _get_top_github_orgs (projects : list project) : dict text Z :=
  most_common (Some 10%nat)
    (counter (filter (λ o, nonempty o = true)
                (github_organization <$> projects))).

Definition rate (count total : Z) : exn + Q :=
  match div count total with
  | inr q => inr (q * 100)%Q
  | inl e => inl e
  end.

(** [generate_statistics]; [None] is the empty dictionary returned when
    there are no projects. *)
Definition generate_statistics (projects : list project)
  : exn + option statistics :=
  match projects with
  | [] => inr None
  | _ =>
      let total := Z.of_nat (length projects) in
      let platform_counts := counter (repository_platform <$> projects) in
      let github_issues_ := count_if github_issues projects in
      let mailing_lists_ :=
        count_if (λ p, match mailing_lists p with [] => false | _ => true end)
          projects in
      match rate (default 0%Z (dict_get platform_counts (txt "GitHub"))) total,
            rate github_issues_ total, rate mailing_lists_ total with
      | inr r1, inr r2, inr r3 =>
          inr (Some (Statistics (length projects) platform_counts r1 r2 r3
                       github_issues_ mailing_lists_
                       (counter (state <$> projects))
                       (most_common (Some 10%nat) (counter (all_categories projects)))
                       (_get_top_github_orgs projects)))
      | inl e, _, _ | _, inl e, _ | _, _, inl e => inl e
      end
  end.

End Eclipse.

(** *** Notions used to state the properties *)

Module AfdSpec.
Import Py Net AfdPattern.

(** The results a reply carries: none when the request raised. *)
Definition results_of (r : reply search_data) : list search_result :=
  match r with
  | Json data => default [] (sd_search data)
  | Raised _ => []
  end.

(** The titles a reply carries. *)
Definition titles_of (r : reply search_data) : list text :=
  omap sr_title (results_of r).

(** A result with the two keys that are read without a default. *)
Definition has_keys (result : search_result) : Prop :=
  is_Some (sr_title result) ∧ is_Some (sr_snippet result).

(** A reply all of whose results have their title and snippet. *)
Definition complete (r : reply search_data) : Prop :=
  Forall has_keys (results_of r).

Definition titles (c : collector) : list text := d_title <$> all_discussions c.

(** The entries have distinct titles, all of them seen. *)
Definition distinct (c : collector) : Prop :=
  NoDup (titles c) ∧ ∀ t, t ∈ titles c → t ∈ seen_titles c.

(** One entry per seen title. *)
Definition consistent (c : collector) : Prop :=
  NoDup (titles c) ∧ ∀ t, t ∈ seen_titles c ↔ t ∈ titles c.

(** The entry [d] was made from a result, with title and snippet, of the
    reply to the request for its keyword, one of the first [bound] of
    [all]. *)
Definition returned (api : nat → text → reply search_data)
    (all : list text) (bound : nat) (d : discussion) : Prop :=
  ∃ i result, (i < bound)%nat ∧ all !! i = Some (d_keyword d)
    ∧ result ∈ results_of (api i (d_keyword d))
    ∧ sr_title result = Some (d_title d)
    ∧ sr_snippet result = Some (d_snippet d).

(** The entry [d] records the first keyword, among the first [bound] of
    [all], whose reply carries its title. *)
Definition first_keyword (api : nat → text → reply search_data)
    (all : list text) (bound : nat) (d : discussion) : Prop :=
  ∃ i, (i < bound)%nat ∧ all !! i = Some (d_keyword d)
       ∧ d_title d ∈ titles_of (api i (d_keyword d))
       ∧ ∀ j kw, (j < i)%nat → all !! j = Some kw →
                 d_title d ∉ titles_of (api j kw).

(** Every title carried by the first [bound] replies has an entry. *)
Definition covers (api : nat → text → reply search_data)
    (all : list text) (bound : nat) (c : collector) : Prop :=
  ∀ j kw t, (j < bound)%nat → all !! j = Some kw →
            t ∈ titles_of (api j kw) → t ∈ titles c.

(** The invariant of the keyword loop, for any replies. *)
Definition inv_any (api : nat → text → reply search_data)
    (all : list text) (bound : nat) (c : collector) : Prop :=
  distinct c ∧ Forall (returned api all bound) (all_discussions c).

(** The invariant of the keyword loop while the replies are complete. *)
Definition inv (api : nat → text → reply search_data)
    (all : list text) (bound : nat) (c : collector) : Prop :=
  consistent c ∧ Forall (first_keyword api all bound) (all_discussions c)
  ∧ covers api all bound c.

(** A failed request read as a reply without results. *)
Definition as_no_data (r : reply search_data) : reply search_data :=
  match r with
  | Raised _ => Json (SearchData None)
  | Json _ => r
  end.

(** The keywords announced in the output, in order. *)
Definition searched (os : list out) : list text :=
  omap (λ o, match o with Searching kw => Some kw | _ => None end) os.

(** The data of a collector, without what was printed. *)
Definition data (c : collector) : list discussion * gset text :=
  (all_discussions c, seen_titles c).
End AfdSpec.

Module PolicySpec.
Import Py Net PolicyCitation.

(** A reply after which the loop goes round again: a page with changes and
    an [rccontinue] token. *)
Definition continues (r : reply rc_data) : bool :=
  match r with
  | Json (RcData (Some (_ :: _)) (Some (Some _))) => true
  | _ => false
  end.

(** The reply with a failure read as a page without changes. *)
Definition as_no_data (r : reply rc_data) : reply rc_data :=
  match r with
  | Raised _ => Json (RcData None None)
  | Json _ => r
  end.

(** The line printed when the loop stops on the reply [r] to the request
    of batch [batch_num]; none when the loop goes round again. *)
Definition stop_line (batch_num : Z) (r : reply rc_data) : option out :=
  match r with
  | Raised e => Some (ErrorInBatch batch_num e)
  | Json data =>
      match default [] (rc_changes data) with
      | [] => Some NoMoreChanges
      | _ =>
          match rc_continue data with
          | None => Some NoMoreData
          | Some None => Some (ErrorInBatch batch_num (txt "'rccontinue'"))
          | Some (Some _) => None
          end
      end
  end.

(** What the loop adds to the state [st] in at most [remaining] iterations:
    the requests [extra], one per iteration; every request but the last got
    a reply that continues; the last did not, unless the iterations ran out;
    a request whose reply stops the loop is the last one, and the line that
    goes with the reply is the last line printed.  [snt], [bp] and [prn] are
    the requests, the batch counter and the lines of the final state. *)
Definition loop_spec (api : nat → rc_request → reply rc_data) (st : locals)
    (remaining : nat) (snt : list rc_request) (bp : Z) (prn : list out)
  : Prop :=
  ∃ extra,
    snt = sent st ++ extra
    ∧ (length extra ≤ remaining)%nat
    ∧ ((0 < remaining)%nat → (0 < length extra)%nat)
    ∧ bp = (batches_processed (counts st) + Z.of_nat (length extra))%Z
    ∧ (∀ k req, extra !! k = Some req → (S k < length extra)%nat →
         continues (api (length (sent st) + k)%nat req) = true)
    ∧ (∀ k req, extra !! k = Some req → S k = length extra →
         continues (api (length (sent st) + k)%nat req) = false
         ∨ length extra = remaining)
    ∧ (∀ k req o, extra !! k = Some req →
         stop_line (batches_processed (counts st) + Z.of_nat (S k))
           (api (length (sent st) + k)%nat req) = Some o →
         S k = length extra ∧ last prn = Some o).
End PolicySpec.

Module WikiSpec.
Import Py Net WikiProject.

(** A reply after which the loop goes round again: one with a token. *)
Definition continues (r : reply allpages_data) : bool :=
  match r with
  | Json (AllPages _ (Some _)) => true
  | _ => false
  end.

Definition final (e : ended) : locals :=
  match e with Broke st | Failed st => st end.

(** An API that always has one more page. *)
Definition always_more : nat → option text → reply allpages_data :=
  λ _ _, Json (AllPages (Some []) (Some (txt "next"))).
End WikiSpec.

(** *** Sample replies *)

Module Samples.
Import Py Net.

(** A recent-changes API with one more page of one uncommented edit, every
    time. *)
Definition rc_always_more
  : nat → PolicyCitation.rc_request → reply PolicyCitation.rc_data :=
  λ _ _, Json (PolicyCitation.RcData (Some [PolicyCitation.Change None])
                 (Some (Some (txt "token")))).

(** An all-pages API with a token on its first two replies only. *)
Definition wiki_three_pages
  : nat → option text → reply WikiProject.allpages_data :=
  λ i _, Json (WikiProject.AllPages (Some [])
                 (if (i <? 2)%nat then Some (txt "next") else None)).

(** A search API whose third request times out; the others return one
    discussion each, the same for all. *)
Definition afd_third_fails : nat → text → reply AfdPattern.search_data :=
  λ i _,
    if (i =? 2)%nat then Raised (txt "timeout")
    else Json (AfdPattern.SearchData
                 (Some [AfdPattern.SearchResult
                          (Some (txt "Wikipedia:Articles for deletion/X"))
                          (Some (txt "snippet")) None None])).

(** A search API whose first reply lists the discussions A and B, A without
    its snippet; the later replies list both in full. *)
Definition afd_missing_snippet : nat → text → reply AfdPattern.search_data :=
  λ i _,
    Json (AfdPattern.SearchData
            (Some [AfdPattern.SearchResult
                     (Some (txt "Wikipedia:Articles for deletion/A"))
                     (if (i =? 0)%nat then None else Some (txt "a")) None None;
                   AfdPattern.SearchResult
                     (Some (txt "Wikipedia:Articles for deletion/B"))
                     (Some (txt "b")) None None])).

(** A search API that answers every request with an error status and a
    JSON body that has no ['query']. *)
Definition afd_error_status : nat → text → reply AfdPattern.search_data :=
  λ _ _, Json (AfdPattern.SearchData None).

(** A recent-changes API whose first reply is a page of one edit that cites
    no policy and whose second request fails. *)
Definition rc_plain_then_fails
  : nat → PolicyCitation.rc_request → reply PolicyCitation.rc_data :=
  λ i _,
    if (i =? 0)%nat
    then Json (PolicyCitation.RcData
                 (Some [PolicyCitation.Change (Some (txt "fixed typo"))])
                 (Some (Some (txt "token"))))
    else Raised (txt "503").

(** A recent-changes API whose second request fails. *)
Definition rc_second_fails
  : nat → PolicyCitation.rc_request → reply PolicyCitation.rc_data :=
  λ i _,
    if (i =? 1)%nat then Raised (txt "503")
    else Json (PolicyCitation.RcData
                 (Some [PolicyCitation.Change (Some (txt "rv per WP:NOTAI"))])
                 (Some (Some (txt "token")))).

(** A closed deletion discussion of two sections. *)
Definition afd_page : text :=
  txt "== Discussion ==" ++ [newline]
  ++ txt "This uses ChatGPT to write text." ++ [newline]
  ++ txt "== Outcome ==" ++ [newline]
  ++ txt "The result was '''Delete'''.".

(** A recent-changes API with a single page of one edit whose summary cites
    no policy. *)
Definition rc_one_plain_edit
  : nat → PolicyCitation.rc_request → reply PolicyCitation.rc_data :=
  λ _ _, Json (PolicyCitation.RcData
                 (Some [PolicyCitation.Change (Some (txt "fixed typo"))]) None).
End Samples.

Module EnforcementSpec.
Import Py Re Enforcement.

(** A heading line, and a document's lines put back together, each with
    its newline. *)
Definition is_heading (line : text) : Prop :=
  is_Some (re_match NOFLAGS header_pattern line).

Definition join_lines (lines : list text) : text :=
  lines ≫= (λ line, line ++ [newline]).

Definition two_headings_one_blank : text :=
  txt "== A ==" ++ [newline] ++ [newline] ++ txt "== B ==".
End EnforcementSpec.

Module ReSpec.
Import Py Re.

Local Open Scope nat_scope.

(** [n] rounds of a relation on matcher positions. *)
Fixpoint iter (R : mstate → mstate → Prop) (n : nat) (s s' : mstate) : Prop :=
  match n with
  | 0 => s' = s
  | S n' => ∃ s1, R s s1 ∧ iter R n' s1 s'
  end.

(** What it means for a pattern to match from the position [s] to the
    position [s'], whatever the order in which the matcher tries things. *)
Fixpoint matches (fl : flags) (r : regex) (s s' : mstate) : Prop :=
  match r with
  | Empty => s' = s
  | Lit c => ∃ a t, rest s = a :: t ∧ char_eq fl c a = true ∧ s' = advance s a t
  | Dot => ∃ a t, rest s = a :: t ∧ dot_ok fl a = true ∧ s' = advance s a t
  | Class negated items =>
      ∃ a t, rest s = a :: t ∧ class_has fl negated items a = true
             ∧ s' = advance s a t
  | Cat r1 r2 => ∃ s1, matches fl r1 s s1 ∧ matches fl r2 s1 s'
  | Alt r1 r2 => matches fl r1 s s' ∨ matches fl r2 s s'
  | Rep _ lo hi r1 =>
      ∃ n, lo ≤ n ∧ match hi with Some h => n ≤ h | None => True end
           ∧ iter (matches fl r1) n s s'
  | Group i r1 =>
      ∃ s1, matches fl r1 s s1
            ∧ s' = set_cap i (take (pos s1 - pos s) (rest s)) s1
  | Backref i => ∃ v, get_cap (caps s) i = Some v ∧ eat fl v s = Some s'
  | Bol => at_bol fl s = true ∧ s' = s
  | Eol => at_eol fl s = true ∧ s' = s
  | WordBoundary => at_word_boundary s = true ∧ s' = s
  end.

(** The position [s'] is the position [s] moved over the text [w]. *)
Definition moved (s : mstate) (w : text) (s' : mstate) : Prop :=
  rest s = w ++ rest s' ∧ pos s' = pos s + length w.

(** A match object is sound for a pattern in a text: the text splits into
    what is before the match, the matched text and what is after, with the
    pattern matching from the one position to the other. *)
Definition sound_match (fl : flags) (r : regex) (s : text) (m : match_obj)
  : Prop :=
  ∃ before w after pv st',
    s = before ++ w ++ after
    ∧ matches fl r (MState (length before) pv (w ++ after) []) st'
    ∧ rest st' = after
    ∧ m_start m = length before
    ∧ m_end m = length before + length w
    ∧ m_group0 m = w
    ∧ m_caps m = caps st'.

End ReSpec.

Module ContextSpec.
Import Py Re.

Local Open Scope nat_scope.

(** The example [ex] of the entry [e] comes from a window of [text]: an
    occurrence of the indicator with at most 100 characters on each side,
    newlines replaced by spaces, cut to 200 characters. *)
Definition afd_context_ok (text : Py.text) (e : AfdPattern.indicator_entry)
    (ex : Py.text) : Prop :=
  length ex ≤ 200
  ∧ (newline ∉ ex)
  ∧ ∃ before pre occ post after,
      text = before ++ pre ++ occ ++ post ++ after
      ∧ length pre ≤ 100 ∧ length post ≤ 100
      ∧ lower occ = lower (AfdPattern.ie_indicator e)
      ∧ ex = take 200 (replace_newlines (pre ++ occ ++ post)).

(** The mention [m] comes from an occurrence of its keyword in
    [section_content]: the position is where the occurrence starts, and the
    context is the section from 100 characters before the occurrence to 100
    after it, clipped to the section and stripped. *)
Definition mention_ok (section_content : text) (m : Governance.mention)
  : Prop :=
  ∃ before occ after,
    section_content = before ++ occ ++ after
    ∧ lower occ = lower (Governance.mn_keyword m)
    ∧ Governance.mn_position m = length before
    ∧ Governance.mn_position m + length (Governance.mn_keyword m)
      ≤ length section_content
    ∧ Governance.mn_context m
      = strip (slice section_content (length before - 100)
                 (length section_content `min` (length before + length occ + 100)))
    ∧ length (Governance.mn_context m)
      ≤ 200 + length (Governance.mn_keyword m).

(** A page whose introduction mentions a keyword on each of two lines. *)
Definition two_line_intro : text :=
  txt "intro AI" ++ [newline] ++ txt "bot x".
End ContextSpec.

Module CounterSpec.
Import Py.

(** [c[k]] on a [Counter]: an absent key counts zero. *)
Definition count_of {K} `{EqDecision K} (c : dict K Z) (k : K) : Z :=
  default 0 (dict_get c k).

(** A well-formed counter: distinct keys, every count at least one. *)
Definition well_formed {K} (c : dict K Z) : Prop :=
  NoDup (dict_keys c) ∧ Forall (λ kv, 1 ≤ kv.2) c.

(** The counter [a] counts a part of what [b] counts. *)
Definition dominated {K} `{EqDecision K} (a b : dict K Z) : Prop :=
  ∀ k, count_of a k ≤ count_of b k.
End CounterSpec.
Module CountsSpec.
Import Py PolicyCitation CounterSpec.

(** What holds of the two counters of [search_edit_summaries_2025] between
    two citations: both are well formed, the keys are upper case, and the
    AI counter counts a part of what the other counts. *)
Definition counters_ok (all ai : dict text Z) : Prop :=
  well_formed all ∧ well_formed ai
  ∧ Forall (λ kv, upper kv.1 = kv.1) all
  ∧ dominated ai all
  ∧ sum_values ai ≤ sum_values all.

(** And between two edits: an edit with policies is an edit checked, and
    gave at least one citation. *)
Definition consistent_counts (r : results) : Prop :=
  counters_ok (all_policies r) (ai_policies r)
  ∧ 0 ≤ edits_with_policies r ≤ total_edits_checked r
  ∧ edits_with_policies r ≤ sum_values (all_policies r)
  ∧ (0 < sum_values (all_policies r) → 0 < edits_with_policies r).

(** A run that ends normally. *)
Definition completes {A} (m : io A) : Prop := ∃ o a, m = (o, inr a).
End CountsSpec.
Module GovernanceSpec.
Import Py Governance.

(** The mention [m] has its section on record: an entry of [sections] with
    the mention's section title that lists the mention's keyword. *)
Definition has_section (kws : list text) (sections : list ai_section)
    (m : mention) : Prop :=
  mn_keyword m ∈ kws
  ∧ ∃ s, s ∈ sections ∧ as_section_title s = mn_section m
         ∧ mn_keyword m ∈ as_ai_keywords_found s.

(** An entry of [ai_sections]: at most 1000 characters of content and a
    non-empty list of keywords, each from the keyword list. *)
Definition section_ok (kws : list text) (s : ai_section) : Prop :=
  (length (as_content s) ≤ 1000)%nat
  ∧ as_ai_keywords_found s ≠ []
  ∧ as_ai_keywords_found s `sublist_of` kws.
End GovernanceSpec.

Module DiscussionSpec.
Import Py Discussions.

(** A thread record: the comment it stands for has more than 50
    characters, the preview is the comment, or its first 300 characters
    and an ellipsis, and the keywords are a non-empty part of the keyword
    list. *)
Definition thread_ok (kws : list text) (t : thread) : Prop :=
  (50 < th_estimated_length t)%nat
  ∧ (length (th_comment_preview t) ≤ 303)%nat
  ∧ (if (300 <? th_estimated_length t)%nat
     then ∃ head, length head = 300%nat
                  ∧ th_comment_preview t = head ++ txt "..."
     else length (th_comment_preview t) = th_estimated_length t)
  ∧ th_ai_keywords t ≠ []
  ∧ th_ai_keywords t `sublist_of` kws.
End DiscussionSpec.
Module CaptureSpec.
Import Py Re.

End CaptureSpec.

Module AfdAnalysisSpec.
Import Py AfdPattern.



End AfdAnalysisSpec.

(** *** wikipedia_afd_ai_pattern_analyzer.py: [main] *)

Module AfdMain.
Import Py Re Net AfdPattern.

(** The body of a reply to the parse query: ['parse'] may be absent; under
    it, [data['parse']['wikitext']['*']] is a text or a missing key. *)
Record parse_data := ParseData { pd_parse : option (option text) }.

(** [fetch_afd_full_text]: the wikitext, or [None] when ['parse'] is absent
    and after any exception (a failed request, a missing key), which the
    function catches. *)
Definition fetch_afd_full_text (r : reply parse_data) : option text :=
  match r with
  | Json (ParseData (Some (Some wikitext))) => Some wikitext
  | _ => None
  end.

(** [s.replace(old, new)] for a non-empty [old]: the occurrences of [old]
    from the left, not overlapping. *)
Fixpoint replace_from (fuel : nat) (old new s : text) : text :=
  match fuel, s with
  | S fuel', c :: s' =>
      if startswith old s
      then new ++ replace_from fuel' old new (drop (length old) s)
      else c :: replace_from fuel' old new s'
  | _, _ => s
  end.

Definition replace (old new s : text) : text :=
  replace_from (length s) old new s.

(** The body of [for i, afd in enumerate(afd_list[:30], 1)]: the entry
    appended to [all_analyses].  [papi i title] is what the [i]-th parse
    request, for [title], gives. *)
Definition analyze_one (papi : nat → text → reply parse_data) (i : nat)
    (afd : discussion) : option analysis :=
  let article_name :=
    replace (txt "Wikipedia:Articles for deletion/") [] (d_title afd) in
  match fetch_afd_full_text (papi i (d_title afd)) with
  | Some ((_ :: _) as text) => analyze_afd_text (Some text) article_name
  | _ => None
  end.

Definition analyze_all (papi : nat → text → reply parse_data)
    (afd_list : list discussion) : list (option analysis) :=
  imap (analyze_one papi) (take 30 afd_list).

(** The statistics of [main], without [total_policies]: the analysis
    record leaves [policies_cited] out. *)
Record statistics := Statistics {
  total_analyzed : nat;
  total_indicators : nat;
  total_tools : nat;
  total_voters : nat
}.

Inductive stat_line :=
| Analyzed (n : nat)
| Indicators (n : nat)
| Tools (n : nat)
| Voters (n : nat)
| AverageVoters (average : Q).

(** The statistics block of [main]: the lines printed, then the exception
    or the statistics that go into the result file. *)
Definition print_statistics (all_analyses : list (option analysis))
  : list stat_line * (exn + statistics) :=
  let valid_analyses := omap id all_analyses in
  let total_indicators :=
    sum_list ((λ a, length (an_detection_indicators a)) <$> valid_analyses) in
  let total_tools :=
    sum_list ((λ a, length (an_tools_mentioned a)) <$> valid_analyses) in
  let total_voters := sum_list (an_voters <$> valid_analyses) in
  let printed := [Analyzed (length valid_analyses); Indicators total_indicators;
                  Tools total_tools; Voters total_voters] in
  match div (Z.of_nat total_voters) (Z.of_nat (length valid_analyses)) with
  | inl e => (printed, inl e)
  | inr average =>
      (printed ++ [AverageVoters average],
       inr (Statistics (length valid_analyses) total_indicators total_tools
              total_voters))
  end.

(** [main] up to its statistics: search, fetch and analyze, report. *)
Definition main (sapi : nat → text → reply search_data)
    (papi : nat → text → reply parse_data)
  : list stat_line * (exn + statistics) :=
  let afd_list := (get_afd_discussions_ai sapi 50).1 in
  print_statistics (analyze_all papi afd_list).

End AfdMain.
(** *** More of the Python runtime: [str.join] and [str.split] *)

Module PyStr.
Import Py.

(** [sep.join(l)]. *)
Fixpoint join (sep : text) (l : list text) : text :=
  match l with
  | [] => []
  | [x] => x
  | x :: l' => x ++ sep ++ join sep l'
  end.

(** [s.split(sep)] for a non-empty [sep]: the pieces between the
    occurrences of [sep] from the left; [piece] is the piece being read. *)
Fixpoint split_from (fuel : nat) (sep piece s : text) : list text :=
  match fuel, s with
  | S fuel', c :: s' =>
      if startswith sep s
      then piece :: split_from fuel' sep [] (drop (length sep) s)
      else split_from fuel' sep (piece ++ [c]) s'
  | _, _ => [piece ++ s]
  end.

Definition split (sep s : text) : list text := split_from (length s) sep [] s.

End PyStr.

(** *** wikipedia_ai_enforcement_analyzer.py: edits and talk pages *)

Module EnforcementAnalyzer.
Import Py Re Net PyStr Enforcement.

Definition word (s : string) : regex := Seq [WordBoundary; lit s; WordBoundary].

(** [self.ai_keywords], each a pattern. *)
Definition ai_keywords : list regex :=
  [ word "AI"; word "A.I."; lit "ChatGPT"; lit "GPT";
    Seq [lit "GPT-"; Class false [CRange "0" "9"]];
    lit "artificial intelligence"; lit "machine learning"; word "ML";
    lit "AI-generated"; lit "AI generated"; lit "bot-generated";
    lit "auto-generated"; lit "LLM"; lit "large language model";
    lit "neural network"; lit "automated content"; lit "automated edit" ].

(** ['|'.join(self.ai_keywords)], compiled with [re.IGNORECASE]. *)
Definition ai_pattern : regex :=
  match ai_keywords with
  | [] => Empty
  | r :: rs => Alts r rs
  end.

Definition ai_search (s : text) : option match_obj := search IGNORECASE ai_pattern s.

(** [r'revert|undid|undo|rv\b'] *)
Definition revert_pattern : regex :=
  Alts (lit "revert") [lit "undid"; lit "undo"; Seq [lit "rv"; WordBoundary]].

(** [policy_patterns], in the order of the dictionary. *)
Definition policy_patterns : list (text * regex) :=
  [ (txt "WP:BOT", Alt (word "WP:BOT") (lit "bot policy"));
    (txt "WP:V", Alt (word "WP:V") (lit "verifiability"));
    (txt "WP:RS", Alt (word "WP:RS") (lit "reliable source"));
    (txt "WP:NOR", Alt (word "WP:NOR") (lit "no original research"));
    (txt "WP:NOTAI", word "WP:NOTAI");
    (txt "WP:AI", Alt (word "WP:AI") (lit "artificial intelligence"));
    (txt "WP:COPIED", Alt (word "WP:COPIED") (lit "copyright"));
    (txt "WP:SPAM", word "WP:SPAM") ].

Definition extract_policy_mentions (text : Py.text) : list Py.text :=
  (filter (λ pp, is_Some (search IGNORECASE pp.2 text)) policy_patterns).*1.

(** [', '.join(policies) if policies else 'None'] *)
Definition policies_cited_of (policies : list text) : text :=
  match policies with
  | [] => txt "None"
  | _ => join (txt ", ") policies
  end.

(** A revision: [comment] is read with [.get], the other keys with
    [rev[..]]. *)
Record revision := Revision {
  rv_comment : option text;
  rv_timestamp : option text;
  rv_user : option text;
  rv_revid : option Z
}.

Record edit := Edit {
  e_article : text;
  e_timestamp : text;
  e_user : text;
  e_revid : Z;
  e_edit_summary : text;
  e_is_revert : bool;
  e_policies_cited : text
}.

(** The body of [for rev in page['revisions']]: nothing for a summary
    without an AI keyword, else the entry; [None] is the [KeyError] of a
    missing key. *)
Definition edit_of (article_title : text) (rev : revision)
  : option (list edit) :=
  let comment := default [] (rv_comment rev) in
  match ai_search comment with
  | Some _ =>
      let is_revert :=
        bool_decide (is_Some (search IGNORECASE revert_pattern comment)) in
      let policies := extract_policy_mentions comment in
      timestamp ← rv_timestamp rev;
      user ← rv_user rev;
      revid ← rv_revid rev;
      Some [Edit article_title timestamp user revid comment is_revert
              (policies_cited_of policies)]
  | None => Some []
  end.

Fixpoint edits_of (article_title : text) (revs : list revision)
  : option (list edit) :=
  match revs with
  | [] => Some []
  | rev :: revs' =>
      es ← edit_of article_title rev;
      es' ← edits_of article_title revs';
      Some (es ++ es')
  end.

(** A page of the reply, with its revisions if any; the reply body gives
    [list(data['query']['pages'].values())] when both keys are there. *)
Record history_page := HistoryPage { hp_revisions : option (list revision) }.
Record history_data := HistoryData { hd_pages : option (list history_page) }.

(** [analyze_edit_history]: any exception (a failed request, no page, a
    missing key) gives the empty list. *)
Definition analyze_edit_history (article_title : text)
    (r : reply history_data) : list edit :=
  match r with
  | Json (HistoryData (Some (page :: _))) =>
      match hp_revisions page with
      | Some revs => default [] (edits_of article_title revs)
      | None => []
      end
  | _ => []
  end.

(** A talk page of the reply: the revisions, each with its content under
    ['*'] if any. *)
Record talk_page := TalkPage { tp_revisions : option (list (option text)) }.
Record talk_data := TalkData { td_pages : option (list talk_page) }.

Record talk_discussion := TalkDiscussion {
  td_article : text;
  td_section_title : text;
  td_ai_keyword_count : nat;
  td_policies_cited : text;
  td_excerpt : text;
  td_section_length : nat
}.

(** The body of [for section in sections]. *)
Definition discussion_of (article_title : text) (s : section)
  : list talk_discussion :=
  match ai_search (content s) with
  | Some _ =>
      let ai_count := length (findall IGNORECASE ai_pattern (content s)) in
      let policies := extract_policy_mentions (content s) in
      let excerpt := strip (replace_newlines (take 200 (content s))) in
      [TalkDiscussion article_title (title s) ai_count
         (policies_cited_of policies) excerpt (length (content s))]
  | None => []
  end.

Definition analyze_talk_page (article_title : text) (r : reply talk_data)
  : list talk_discussion :=
  match r with
  | Json (TalkData (Some (page :: _))) =>
      match tp_revisions page with
      | Some (revision :: _) =>
          let content_ := default [] revision in
          parse_talk_sections content_ ≫= discussion_of article_title
      | _ => []
      end
  | _ => []
  end.

(** The policy table of [generate_statistics], from the [policies_cited]
    fields of the edits or of the discussions. *)
Definition count_field (acc : dict text Z) (policies_cited : text)
  : dict text Z :=
  if decide (policies_cited = txt "None") then acc
  else foldl (λ acc policy, counter_add policy 1%Z acc) acc
         (split (txt ", ") policies_cited).

Definition policy_counts (fields : list text) : dict text Z :=
  foldl count_field [] fields.

End EnforcementAnalyzer.
Module EditSpec.
Import Py Re EnforcementAnalyzer.

(** A revision whose summary holds an AI keyword, and one that has the
    three keys read with [rev[..]]. *)
Definition mentions_ai (rev : revision) : bool :=
  bool_decide (is_Some (ai_search (default [] (rv_comment rev)))).

Definition complete (rev : revision) : bool :=
  bool_decide (is_Some (rv_timestamp rev) ∧ is_Some (rv_user rev)
               ∧ is_Some (rv_revid rev)).

Definition ai_revisions (revs : list revision) : list revision :=
  filter (λ rev, mentions_ai rev = true) revs.

(** An entry made from a summary with an AI keyword. *)
Definition edit_ok (article_title : text) (e : edit) : Prop :=
  e_article e = article_title
  ∧ is_Some (ai_search (e_edit_summary e))
  ∧ e_policies_cited e
    = policies_cited_of (extract_policy_mentions (e_edit_summary e)).

(** An entry made from a section with an AI keyword. *)
Definition discussion_ok (article_title : text) (d : talk_discussion) : Prop :=
  td_article d = article_title
  ∧ (1 ≤ td_ai_keyword_count d)%nat
  ∧ (1 ≤ td_section_length d)%nat
  ∧ (length (td_excerpt d) ≤ 200)%nat
  ∧ (length (td_excerpt d) ≤ td_section_length d)%nat
  ∧ (newline ∉ td_excerpt d).
End EditSpec.

(** *** wikipedia_wikiproject_ai_analyzer.py: sections with AI references *)

Module WikiProjectSections.
Import Py Re Enforcement.

Definition ai_keywords : list text :=
  txt <$> ["artificial intelligence"; "AI"; "machine learning"; "ML";
           "bot"; "automated"; "automation"; "algorithm";
           "neural network"; "deep learning"; "chatbot"; "language model";
           "GPT"; "ChatGPT"; "generative"; "AI-generated"; "AI-assisted";
           "LLM"; "large language model"; "computer-generated"].

(** [r'\b' + re.escape(keyword.lower()) + r'\b'] *)
Definition keyword_pattern (keyword : text) : regex :=
  Seq [WordBoundary; literal (lower keyword); WordBoundary].

(** [count_ai_references] over any keyword list. *)
Definition count_with (kws : list text) (text : Py.text) : nat :=
  match text with
  | [] => 0%nat
  | _ =>
      let text_lower := lower text in
      sum_list ((λ keyword,
                   length (findall NOFLAGS (keyword_pattern keyword) text_lower))
                <$> kws)
  end.

Definition count_ai_references : text → nat := count_with ai_keywords.

(** A section dictionary; [ai_references] is set when the section is
    appended, and is absent (here 0) on the one being built. *)
Record policy_section := PolicySection {
  ps_title : text;
  ps_content : text;
  ps_level : nat;
  ps_ai_references : nat
}.

(** The test made when a section ends: it is kept if it has content and
    AI references. *)
Definition close_section (kws : list text) (sections : list policy_section)
    (current_section : policy_section) : list policy_section :=
  if nonempty (ps_content current_section) then
    let ai_count := count_with kws (ps_content current_section) in
    if (0 <? ai_count)%nat
    then sections ++ [PolicySection (ps_title current_section)
                        (ps_content current_section)
                        (ps_level current_section) ai_count]
    else sections
  else sections.

(** The body of [for line in lines]. *)
Definition section_line (kws : list text)
    (acc : list policy_section * policy_section) (line : text)
  : list policy_section * policy_section :=
  let '(sections, current_section) := acc in
  match re_match NOFLAGS header_pattern line with
  | Some m =>
      (close_section kws sections current_section,
       PolicySection (strip (group m 2)) [] (length (group m 1)) 0)
  | None =>
      (sections,
       PolicySection (ps_title current_section)
         (ps_content current_section ++ line ++ [newline])
         (ps_level current_section) (ps_ai_references current_section))
  end.

(** [extract_ai_policy_sections] over any keyword list; [None] is Python's
    [None]. *)
Definition extract_with (kws : list text) (wikitext : option text)
  : list policy_section :=
  match wikitext with
  | None | Some [] => []
  | Some wikitext =>
      let lines := split_lines wikitext in
      let '(sections, current_section) :=
        foldl (section_line kws)
          ([], PolicySection (txt "Introduction") [] 0 0) lines in
      close_section kws sections current_section
  end.

Definition extract_ai_policy_sections : option text → list policy_section :=
  extract_with ai_keywords.

End WikiProjectSections.
Module PolicySectionSpec.
Import Py Enforcement WikiProjectSections.

(** A section record read as a section of the talk-page splitter. *)
Definition as_section (s : policy_section) : section :=
  MkSection (ps_title s) (ps_content s).
End PolicySectionSpec.
(** *** wikipedia_wikiproject_ai_analyzer.py: the most watched projects *)

Module WikiProjectPopular.
Import Py Net PyStr WikiProject.

(** A WikiProject dictionary: [watchers] and [monthly_views] are set by
    the popularity phase only. *)
Record wikiproject := WikiProjectRec {
  wp_title : text;
  wp_pageid : Z;
  wp_watchers : option Z;
  wp_monthly_views : option Z
}.

(** An entry of [data['query']['pages']]: [watchers] and [pageviews] are
    read with [.get]; a page view may be [None]. *)
Record page_data := PageData {
  pd_watchers : option Z;
  pd_pageviews : option (list (option Z))
}.

(** The body of a reply to the popularity query: the items of
    [data['query']['pages']] when both keys are there. *)
Record pages_data := PagesData { pgs_pages : option (list (text * page_data)) }.

(** [str(n)] *)
Definition str (n : Z) : text := txt (pretty n).

(** [sum(v for v in pageviews.values() if v is not None)] *)
Definition monthly_views (pd : page_data) : Z :=
  foldr Z.add 0 (omap id (default [] (pd_pageviews pd))).

(** [for wp in batch: if str(wp['pageid']) == page_id: ..; break] *)
Fixpoint update_first (page_id : text) (pd : page_data)
    (batch : list wikiproject) : list wikiproject :=
  match batch with
  | [] => []
  | wp :: batch' =>
      if decide (str (wp_pageid wp) = page_id)
      then WikiProjectRec (wp_title wp) (wp_pageid wp)
             (Some (default 0 (pd_watchers pd))) (Some (monthly_views pd))
           :: batch'
      else wp :: update_first page_id pd batch'
  end.

Definition update_batch (batch : list wikiproject) (data : pages_data)
  : list wikiproject :=
  foldl (λ batch item, update_first item.1 item.2 batch) batch
    (default [] (pgs_pages data)).

(** [subset[i:i+50] for i in range(0, len(subset), 50)] *)
Fixpoint chunks_from (fuel n : nat) (l : list wikiproject)
  : list (list wikiproject) :=
  match fuel, l with
  | S fuel', _ :: _ => take n l :: chunks_from fuel' n (drop n l)
  | _, _ => []
  end.

Definition chunks (n : nat) (l : list wikiproject) : list (list wikiproject) :=
  chunks_from (length l) n l.

(** The popularity phase: one request for each batch, with the titles
    joined by [|]; the dictionaries of the batch are updated in place, so
    in [subset] too.  [None] is an exception. *)
Fixpoint popularity (api : nat → text → reply pages_data) (i : nat)
    (batches : list (list wikiproject)) : option (list wikiproject) :=
  match batches with
  | [] => Some []
  | batch :: batches' =>
      match api i (join (txt "|") (wp_title <$> batch)) with
      | Raised _ => None
      | Json data =>
          subset' ← popularity api (S i) batches';
          Some (update_batch batch data ++ subset')
      end
  end.

Definition watchers (wp : wikiproject) : Z := default 0 (wp_watchers wp).

(** [subset.sort(key=lambda x: x.get('watchers', 0), reverse=True)] *)
Definition sort_by_watchers (subset : list wikiproject) : list wikiproject :=
  (sorted_by_count_desc ((λ wp, (wp, watchers wp)) <$> subset)).*1.

(** [l[:limit]] for any integer [limit]. *)
Definition up_to (limit : Z) (l : list wikiproject) : list wikiproject :=
  if (0 <=? limit)%Z then take (Z.to_nat limit) l
  else take (length l - Z.to_nat (- limit)) l.

(** [get_popular_wikiprojects]: the pagination, the popularity phase, the
    sort and the cut; any exception gives the empty list.  [None] when the
    pagination is still running after [fuel] iterations. *)
Definition get_popular_wikiprojects
    (api : nat → option text → reply allpages_data)
    (papi : nat → text → reply pages_data) (fuel : nat) (limit : Z)
  : option (list wikiproject) :=
  match get_popular_wikiprojects_pagination api fuel with
  | None => None
  | Some (Failed _) => Some []
  | Some (Broke st) =>
      let subset :=
        (λ p, WikiProjectRec (pg_title p) (pg_pageid p) None None)
          <$> wikiprojects st in
      match popularity papi 0 (chunks 50 subset) with
      | None => Some []
      | Some subset => Some (up_to limit (sort_by_watchers subset))
      end
  end.

End WikiProjectPopular.

Module PopularSpec.
Import Py Net WikiProject WikiProjectPopular.

(** The page of a project. *)
Definition page_of (wp : wikiproject) : page := Page (wp_title wp) (wp_pageid wp).

(** A main page (no slash in the title) that is listed in the reply to one
    of the requests [requests], the [i]-th of them being the [i]-th request
    of the run. *)
Definition listed (api : nat → option text → reply allpages_data)
    (requests : list (option text)) (p : page) : Prop :=
  ("/"%char ∉ pg_title p)
  ∧ ∃ i request data, requests !! i = Some request
                      ∧ api i request = Json data
                      ∧ p ∈ default [] (ap_allpages data).

(** The batches of the popularity phase for the pages [pages], fifty
    projects each. *)
Definition batches_of (pages : list page) : list (list wikiproject) :=
  chunks 50 ((λ p, WikiProjectRec (pg_title p) (pg_pageid p) None None)
               <$> pages).
End PopularSpec.

(** *** wikipedia_specific_governance_analyzer.py: the report *)

Module GovernanceReport.
Import Py Governance.

(** The keys of a page dictionary of [get_page_full_content] that the
    analysis reads, each with [.get]. *)
Record page_content := PageContent {
  pc_wikitext : option text;
  pc_last_modified : option text
}.

Record page_analysis := PageAnalysis {
  pa_title : text;
  pa_page_type : text;
  pa_last_modified : text;
  pa_ai_analysis : references;
  pa_page_size : nat;
  pa_has_ai_content : bool
}.

Definition has (term title_lower : text) : bool := contains term title_lower.

Definition categorize_governance_page (page_title : text) : text :=
  let title_lower := lower page_title in
  if has (txt "policy") title_lower
     || bool_decide (page_title ∈ [txt "Wikipedia:Five pillars";
                                   txt "Wikipedia:What Wikipedia is not"])
  then txt "Policy"
  else if has (txt "guideline") title_lower
          || existsb (λ term, has term title_lower)
               [txt "manual of style"; txt "reliable sources"; txt "notability"]
  then txt "Guideline"
  else if has (txt "bot") title_lower || has (txt "automated") title_lower
  then txt "Bot/Automation Policy"
  else if has (txt "essay") title_lower
          || bool_decide (page_title ∈ [txt "Wikipedia:Ignore all rules";
                                        txt "Wikipedia:Be bold"])
  then txt "Essay"
  else if existsb (λ term, has term title_lower)
            [txt "help"; txt "village pump"; txt "teahouse"]
  then txt "Help/Community Page"
  else if has (txt "arbitration") title_lower
          || has (txt "administrator") title_lower
  then txt "Administrative Page"
  else if has (txt "wikiproject") title_lower
          || has (txt "assessment") title_lower
  then txt "Project/Assessment Page"
  else txt "Information Page".

(** The page analysis compiled in [analyze_governance_pages]. *)
Definition page_analysis_of (page_title : text) (pc : page_content)
  : page_analysis :=
  let ai_analysis := extract_ai_references (pc_wikitext pc) in
  PageAnalysis page_title (categorize_governance_page page_title)
    (default [] (pc_last_modified pc)) ai_analysis
    (length (default [] (pc_wikitext pc))) (ai_found ai_analysis).

(** [analyze_governance_pages] over the page titles, each with what
    [get_page_full_content] gave for it ([None] when it could not be
    retrieved). *)
Definition analyze_governance_pages
    (pages : list (text * option page_content)) : list page_analysis :=
  pages ≫= (λ page, match page.2 with
                    | Some pc => [page_analysis_of page.1 pc]
                    | None => []
                    end).

Inductive error :=
| ZeroDivisionError
| KeyError (key : text).

(** [round((a / b) * 100, 1)] before the rounding. *)
Definition percentage (a b : Z) : error + Q :=
  if (b =? 0)%Z then inl ZeroDivisionError
  else inr ((inject_Z a / inject_Z b) * 100)%Q.

(** [page['ai_analysis']['unique_ai_terms']] *)
Definition terms_of (page : page_analysis) : error + gset text :=
  match unique_ai_terms (pa_ai_analysis page) with
  | Some terms => inr terms
  | None => inl (KeyError (txt "unique_ai_terms"))
  end.

Record relevant_page := RelevantPage {
  rp_title : text;
  rp_page_type : text;
  rp_ai_references : nat;
  rp_unique_ai_terms : nat;
  rp_last_modified : text
}.

(** The report, without [most_frequent_terms] (its order comes from the
    iteration order of sets) and without [recent_activity]. *)
Record report := Report {
  total_pages_analyzed : nat;
  pages_with_ai_content : nat;
  ai_coverage_percentage : Q;
  total_references : nat;
  total_distribution : dict text Z;
  ai_content_distribution : dict text Z;
  ai_coverage_by_type : dict text Q;
  most_ai_relevant_pages : list relevant_page;
  total_unique_terms : nat
}.

(** The body of [for page in self.governance_pages_data], on the two
    tables. *)
Definition count_page (acc : dict text Z * dict text Z) (page : page_analysis)
  : dict text Z * dict text Z :=
  let '(page_type_stats, ai_by_type) := acc in
  (counter_add (pa_page_type page) 1%Z page_type_stats,
   if pa_has_ai_content page
   then counter_add (pa_page_type page) 1%Z ai_by_type
   else ai_by_type).

(** [sorted(l, key=.., reverse=True)] for an integer key. *)
Definition sorted_desc {A} (key : A → Z) (l : list A) : list A :=
  (sorted_by_count_desc ((λ x, (x, key x)) <$> l)).*1.

(** A loop or comprehension whose body may raise. *)
Fixpoint for_all {A B} (f : A → error + B) (l : list A) : error + list B :=
  match l with
  | [] => inr []
  | a :: l' =>
      match f a with
      | inl e => inl e
      | inr b =>
          match for_all f l' with
          | inl e => inl e
          | inr bs => inr (b :: bs)
          end
      end
  end.

Definition references_of (page : page_analysis) : nat :=
  total_ai_references (pa_ai_analysis page).

(** [generate_ai_governance_report]; [None] is the empty dictionary. *)
Definition generate_ai_governance_report (data : list page_analysis)
  : error + option report :=
  match data with
  | [] => inr None
  | _ =>
      let ai_pages := filter (λ page, pa_has_ai_content page = true) data in
      let '(page_type_stats, ai_by_type) := foldl count_page ([], []) data in
      let ai_heavy_pages :=
        sorted_desc (λ page, Z.of_nat (references_of page)) ai_pages in
      match for_all terms_of ai_pages with
      | inl e => inl e
      | inr all_ai_terms =>
          match percentage (Z.of_nat (length ai_pages)) (Z.of_nat (length data)),
                for_all (λ item,
                           match percentage
                                   (default 0%Z (dict_get ai_by_type item.1))
                                   item.2 with
                           | inl e => inl e
                           | inr p => inr (item.1, p)
                           end) page_type_stats,
                for_all (λ page,
                           match terms_of page with
                           | inl e => inl e
                           | inr terms =>
                               inr (RelevantPage (pa_title page)
                                      (pa_page_type page) (references_of page)
                                      (size terms) (pa_last_modified page))
                           end) (take 10 ai_heavy_pages) with
          | inr coverage, inr by_type, inr relevant =>
              inr (Some (Report (length data) (length ai_pages) coverage
                           (sum_list (references_of <$> ai_pages))
                           page_type_stats ai_by_type by_type relevant
                           (size (⋃ all_ai_terms))))
          | inl e, _, _ | _, inl e, _ | _, _, inl e => inl e
          end
      end
  end.

End GovernanceReport.
Module ReportSpec.
Import Py Governance GovernanceReport.

(** A page analysis as [analyze_governance_pages] compiles it: the flag is
    the one of the analysis, and an analysis that found AI content has its
    terms and at least one reference. *)
Definition compiled (page : page_analysis) : Prop :=
  pa_has_ai_content page = ai_found (pa_ai_analysis page)
  ∧ (ai_found (pa_ai_analysis page) = true →
     is_Some (unique_ai_terms (pa_ai_analysis page))
     ∧ (1 ≤ references_of page)%nat).
End ReportSpec.

(** ** Part II: properties *)

(** *** The embedding at work *)

Section Examples.
Import Py Re.

Example header_line_groups :
  (λ m, (group m 1, group m 2))
    <$> re_match NOFLAGS Enforcement.header_pattern (txt "=== Bots and AI  ===")
  = Some (txt "===", txt "Bots and AI").
Proof. vm_compute. reflexivity. Qed.

Example header_needs_equal_runs :
  re_match NOFLAGS Enforcement.header_pattern (txt "=== Bots ==") = None.
Proof. vm_compute. reflexivity. Qed.

Example sections_of_afd_page :
  Enforcement.parse_talk_sections Samples.afd_page
  = [Enforcement.MkSection (txt "Discussion")
       (txt "This uses ChatGPT to write text." ++ [newline]);
     Enforcement.MkSection (txt "Outcome")
       (txt "The result was '''Delete'''." ++ [newline])].
Proof. vm_compute. reflexivity. Qed.

Example outcome_of_afd_page :
  AfdPattern.an_outcomes
    <$> AfdPattern.analyze_afd_text (Some Samples.afd_page) (txt "X")
  = Some [AfdPattern.Outcome (txt "formal_result") (txt "Delete")].
Proof. vm_compute. reflexivity. Qed.

Example indicators_of_afd_page :
  (λ a, (λ e, (AfdPattern.ie_indicator e, AfdPattern.ie_count e))
          <$> AfdPattern.an_detection_indicators a)
    <$> AfdPattern.analyze_afd_text (Some Samples.afd_page) (txt "X")
  = Some [(txt "ChatGPT", 1%nat); (txt "GPT", 1%nat)].
Proof. vm_compute. reflexivity. Qed.

Example policies_in_summary :
  findall IGNORECASE PolicyCitation.POLICY_PATTERN
    (txt "rv per wp:NOTAI and WP:BLP-1_x, see MOS:ai-")
  = [txt "wp:NOTAI"; txt "WP:BLP-1_x"; txt "MOS:ai"].
Proof. vm_compute. reflexivity. Qed.

Example ai_policies_recognised :
  PolicyCitation.is_ai_policy
    <$> [txt "WP:BOT"; txt "WP:BOTTOM"; txt "WP:BOTS"; txt "WP:BLP"; txt "wp:ai"]
  = [true; false; true; false; true].
Proof. vm_compute. reflexivity. Qed.

Example governance_split :
  split NOFLAGS Governance.section_split_pattern
    (txt "intro" ++ [newline] ++ txt "== A ==" ++ [newline] ++ txt "body")
  = [txt "intro"; txt "A "; newline :: txt "body"].
Proof. vm_compute. reflexivity. Qed.

Example empty_matches_are_scanned_once :
  findall NOFLAGS (Star (Lit "a")) (txt "baac") = [[]; txt "aa"; []; []].
Proof. vm_compute. reflexivity. Qed.
End Examples.

Section TopN.
Context {K : Type}.
Implicit Types (t : Py.dict K Z) (x y : K * Z).

Lemma insert_desc_perm x l : Py.insert_desc x l ≡ₚ x :: l.
Proof.
  induction l as [|y l IH]; simpl; [done|].
  case_match; [done|]. rewrite IH. apply Permutation_swap.
Qed.

Lemma sorted_perm t : Py.sorted_by_count_desc t ≡ₚ t.
Proof.
  induction t as [|x t IH]; simpl; [done|].
  by rewrite insert_desc_perm, IH.
Qed.

Lemma insert_desc_sorted x l :
  StronglySorted Py.count_ge l → StronglySorted Py.count_ge (Py.insert_desc x l).
Proof.
  induction 1 as [|y l Hl IH Hy]; simpl.
  - repeat constructor.
  - destruct (Z.leb_spec y.2 x.2) as [Hle|Hlt].
    + constructor; [by constructor|].
      constructor; [done|].
      eapply Forall_impl; [exact Hy|]. unfold Py.count_ge. intros; lia.
    + constructor; [done|].
      rewrite insert_desc_perm. constructor; [|done].
      unfold Py.count_ge. lia.
Qed.

Lemma sorted_descending t : StronglySorted Py.count_ge (Py.sorted_by_count_desc t).
Proof.
  induction t as [|x t IH]; simpl; [constructor|].
  by apply insert_desc_sorted.
Qed.

Lemma insert_desc_filter (c : Z) x l :
  filter (λ y, y.2 = c) (Py.insert_desc x l)
  = filter (λ y, y.2 = c) (x :: l).
Proof.
  induction l as [|y l IH]; simpl; [done|].
  destruct (Z.leb_spec y.2 x.2) as [Hle|Hlt]; [done|].
  rewrite filter_cons, IH, !filter_cons.
  repeat case_decide; simpl in *; try done; lia.
Qed.

Lemma sorted_stable (c : Z) t :
  filter (λ y, y.2 = c) (Py.sorted_by_count_desc t) = filter (λ y, y.2 = c) t.
Proof.
  induction t as [|x t IH]; simpl; [done|].
  by rewrite insert_desc_filter, !filter_cons, IH.
Qed.
(** A label keeps the place of its first occurrence. *)
Lemma dict_set_keys `{EqDecision K} {V} (k : K) (v : V) (d : Py.dict K V) :
  Py.dict_keys (Py.dict_set k v d)
  = if decide (k ∈ Py.dict_keys d) then Py.dict_keys d
    else Py.dict_keys d ++ [k].
Proof.
  unfold Py.dict_keys. induction d as [|[k' v'] d IH].
  - simpl. destruct (decide (k ∈ [])) as [Hin|_]; [|done].
    by apply elem_of_nil in Hin.
  - cbn [Py.dict_set fmap list_fmap fst].
    destruct (decide (k' = k)) as [->|Hne]; cbn [fmap list_fmap fst].
    + destruct (decide (k ∈ k :: d.*1)) as [_|Hnin]; [done|].
      destruct Hnin. apply list_elem_of_here.
    + fold (fmap (M:=list) (@fst K V)). rewrite IH.
      destruct (decide (k ∈ d.*1)) as [Hin|Hnin];
        destruct (decide (k ∈ k' :: d.*1)) as [Hin'|Hnin']; try done.
      * destruct Hnin'. by apply list_elem_of_further.
      * apply elem_of_cons in Hin' as [?|?]; [by subst|done].
Qed.
End TopN.

(** C7.  Top-N extraction ([sorted(..)[:N]] in [categorize_detection_patterns],
    [most_common(N)] in [print_results]) returns the [min N (size)] entries of
    the table with the highest counts, in descending count order; among equal
    counts the labels seen first come first and are the ones kept, a label
    standing in the table where it was first counted.  For
    [{a: 5, b: 5, c: 3}] with [a] seen before [b], [top(2) = [a, b]]. *)
Theorem top_n_first_seen_tie_break (t : Py.dict Py.text Z) (N : nat)
    (k : Py.text) (n : Z) (all_analyses : list (option AfdPattern.analysis)) :
  let top := Py.most_common (Some N) t in
  length top = (N `min` length t)%nat
  ∧ (∃ rest, top ++ rest ≡ₚ t ∧ ∀ x y, x ∈ top → y ∈ rest → y.2 ≤ x.2)
  ∧ StronglySorted (λ x y, y.2 ≤ x.2) top
  ∧ (∀ c : Z, filter (λ y, y.2 = c) top `prefix_of` filter (λ y, y.2 = c) t)
  ∧ Py.dict_keys (Py.counter_add k n t)
    = (if decide (k ∈ Py.dict_keys t) then Py.dict_keys t
       else Py.dict_keys t ++ [k])
  ∧ (Py.most_common (Some 2%nat)
       [(Py.txt "a", 5); (Py.txt "b", 5); (Py.txt "c", 3)]).*1
    = [Py.txt "a"; Py.txt "b"]
  ∧ Py.most_common None t = Py.most_common (Some (length t)) t
  ∧ AfdPattern.top_indicators all_analyses
    = Py.most_common (Some 15%nat) (AfdPattern.count_indicators all_analyses).
Proof.
  simpl. set (s := Py.sorted_by_count_desc t).
  assert (Hs : StronglySorted Py.count_ge s) by apply sorted_descending.
  assert (Hp : s ≡ₚ t) by apply sorted_perm.
  split_and!.
  - rewrite length_take, (Permutation_length Hp). lia.
  - exists (drop N s). split; [by rewrite take_drop|].
    intros x y Hx Hy. rewrite <- (take_drop N s) in Hs.
    exact (StronglySorted_app_1_elem_of Py.count_ge _ _ x y Hs Hx Hy).
  - rewrite <- (take_drop N s) in Hs.
    by apply StronglySorted_app_1_l in Hs.
  - intros c. rewrite <- (sorted_stable c t). fold s.
    rewrite <- (take_drop N s) at 2. rewrite filter_app. by apply prefix_app_r.
  - apply dict_set_keys.
  - reflexivity.
  - rewrite <- (Permutation_length Hp). by rewrite firstn_all.
  - reflexivity.
Qed.

(** *** The keyword loop of [get_afd_discussions_ai] *)

Section AfdLoop.
Import Py Net AfdPattern AfdSpec.

(** The loop over the results of any reply: whether it ends or raises, the
    entries stay distinct and seen, and every new entry comes from a result
    that has its title and snippet. *)
Lemma add_results_any keyword results : ∀ c n,
  distinct c →
  ∃ new,
    distinct (add_results keyword c n results).1
    ∧ printed (add_results keyword c n results).1 = printed c
    ∧ all_discussions (add_results keyword c n results).1
      = all_discussions c ++ new
    ∧ ∀ d, d ∈ new →
        d_keyword d = keyword
        ∧ ∃ result, result ∈ results
            ∧ sr_title result = Some (d_title d)
            ∧ sr_snippet result = Some (d_snippet d).
Proof.
  induction results as [|r results IH]; intros c n Hc.
  - exists []. cbn [add_results fst]. rewrite app_nil_r.
    split_and!; try done. intros d Hd. by apply elem_of_nil in Hd.
  - cbn [add_results]. destruct (sr_title r) as [title|] eqn:Ht.
    2:{ exists []. cbn [fst]. rewrite app_nil_r.
        split_and!; try done. intros d Hd. by apply elem_of_nil in Hd. }
    destruct (decide (title ∈ seen_titles c)) as [Hin|Hnin].
    + destruct (IH c n Hc) as (new & Hd' & Hp & Ha & Hnew).
      exists new. split_and!; try done.
      intros d Hd. destruct (Hnew d Hd) as (Hk & result & Hr & Hrt & Hrs).
      split; [done|]. exists result. split; [|done].
      by apply list_elem_of_further.
    + cbv zeta. cbn [all_discussions seen_titles printed].
      destruct Hc as [Hnd Hseen].
      destruct (sr_snippet r) as [snippet|] eqn:Hs.
      * set (d0 := Discussion title snippet keyword
                     (default [] (sr_timestamp r))
                     (default 0%Z (sr_wordcount r))).
        set (c1 := Collector (all_discussions c ++ [d0])
                     ({[title]} ∪ seen_titles c) (printed c)).
        assert (Hc1 : distinct c1).
        { split.
          - unfold titles, c1. cbn [all_discussions]. rewrite fmap_app.
            apply NoDup_app. split_and!; [done| |apply NoDup_singleton].
            intros t Ht1 Ht2. apply list_elem_of_singleton in Ht2 as ->.
            by apply Hnin, Hseen.
          - intros t. unfold titles, c1. cbn [all_discussions seen_titles].
            rewrite fmap_app, elem_of_app, elem_of_union, elem_of_singleton.
            intros [Hin|Hin]; [right; by apply Hseen|].
            apply list_elem_of_singleton in Hin. by left. }
        destruct (IH c1 (S n) Hc1) as (new & Hd' & Hp & Ha & Hnew).
        exists (d0 :: new). split_and!; try done.
        -- rewrite Ha. unfold c1. cbn [all_discussions].
           by rewrite <- app_assoc.
        -- intros d Hd. apply elem_of_cons in Hd as [->|Hd].
           ++ split; [done|]. exists r.
              split_and!; [apply list_elem_of_here|done|done].
           ++ destruct (Hnew d Hd) as (Hk & result & Hr & Hrt & Hrs).
              split; [done|]. exists result. split; [|done].
              by apply list_elem_of_further.
      * exists []. cbn [fst all_discussions printed]. rewrite app_nil_r.
        split_and!; try done.
        -- split; [done|]. intros t Hin. cbn [seen_titles].
           apply elem_of_union. right. by apply Hseen.
        -- intros d Hd. by apply elem_of_nil in Hd.
Qed.

(** The loop over results that all have their title and snippet: it ends,
    and every title among them has its entry. *)
Lemma add_results_complete keyword results : ∀ c n,
  Forall has_keys results → consistent c →
  ∃ c' n' new,
    add_results keyword c n results = (c', inr n')
    ∧ consistent c'
    ∧ all_discussions c' = all_discussions c ++ new
    ∧ (∀ d, d ∈ new → d_keyword d = keyword
                      ∧ d_title d ∈ omap sr_title results
                      ∧ d_title d ∉ titles c)
    ∧ (∀ t, t ∈ omap sr_title results → t ∈ titles c').
Proof.
  induction results as [|r results IH]; intros c n Hk Hc.
  - exists c, n, []. rewrite app_nil_r. split_and!; try done.
    + intros d Hd. by apply elem_of_nil in Hd.
    + intros t Ht. by apply elem_of_nil in Ht.
  - apply Forall_cons in Hk as [[[title Ht] [snippet Hs]] Hk].
    cbn [add_results]. rewrite Ht. destruct Hc as [Hnd Hseen].
    assert (Hom : ∀ t, t ∈ omap sr_title (r :: results)
                       ↔ t = title ∨ t ∈ omap sr_title results).
    { intros t. cbn [omap list_omap]. rewrite Ht. apply elem_of_cons. }
    destruct (decide (title ∈ seen_titles c)) as [Hin|Hnin].
    + destruct (IH c n Hk (conj Hnd Hseen))
        as (c' & n' & new & Hf & Hc' & Ha & Hnew & Hall).
      exists c', n', new. split_and!; try done.
      * intros d Hd. destruct (Hnew d Hd) as (? & ? & ?).
        split_and!; try done. apply Hom. by right.
      * intros t [->|Hin']%Hom; [|by apply Hall].
        unfold titles. rewrite Ha, fmap_app. apply elem_of_app. left.
        by apply Hseen.
    + cbv zeta. cbn [all_discussions seen_titles printed]. rewrite Hs.
      set (d0 := Discussion title snippet keyword
                   (default [] (sr_timestamp r)) (default 0%Z (sr_wordcount r))).
      set (c1 := Collector (all_discussions c ++ [d0])
                   ({[title]} ∪ seen_titles c) (printed c)).
      assert (Hc1 : consistent c1).
      { split.
        - unfold titles, c1. cbn [all_discussions]. rewrite fmap_app.
          apply NoDup_app. split_and!; [done| |apply NoDup_singleton].
          intros t Ht1 Ht2. apply list_elem_of_singleton in Ht2 as ->.
          by apply Hnin, Hseen.
        - intros t. unfold titles, c1. cbn [all_discussions seen_titles].
          rewrite fmap_app, elem_of_app, elem_of_union, elem_of_singleton.
          rewrite Hseen. unfold titles.
          change (d_title <$> [d0]) with [title].
          rewrite list_elem_of_singleton. tauto. }
      destruct (IH c1 (S n) Hk Hc1)
        as (c' & n' & new & Hf & Hc' & Ha & Hnew & Hall).
      exists c', n', (d0 :: new). split_and!; try done.
      * rewrite Ha. unfold c1. cbn [all_discussions].
        by rewrite <- app_assoc.
      * intros d Hd. apply elem_of_cons in Hd as [->|Hd].
        -- split_and!; [done|apply Hom; by left|].
           intros Hin. by apply Hnin, Hseen.
        -- destruct (Hnew d Hd) as (? & ? & Hn). split_and!; [done| |].
           ++ apply Hom. by right.
           ++ intros Hin. apply Hn. unfold titles, c1.
              cbn [all_discussions]. rewrite fmap_app. apply elem_of_app.
              by left.
      * intros t [->|Hin']%Hom; [|by apply Hall].
        unfold titles. rewrite Ha, fmap_app. apply elem_of_app. left.
        unfold c1. cbn [all_discussions]. rewrite fmap_app.
        apply elem_of_app. right. apply list_elem_of_here.
Qed.

Variable api : nat → text → reply search_data.
Variable all : list text.

Lemma returned_mono b b' d :
  (b ≤ b')%nat → returned api all b d → returned api all b' d.
Proof.
  intros Hb (i & result & Hi & ?). exists i, result. split; [lia|done].
Qed.

Lemma first_keyword_mono b b' d :
  (b ≤ b')%nat → first_keyword api all b d → first_keyword api all b' d.
Proof.
  intros Hb (i & Hi & ?). exists i. split; [lia|done].
Qed.

Lemma search_keyword_inv_any i kw c :
  all !! i = Some kw → inv_any api all i c →
  inv_any api all (S i) (search_keyword c kw (api i kw)).
Proof.
  intros Hkw (Hc & Hret). unfold search_keyword.
  destruct (api i kw) as [e|data] eqn:Hapi.
  - split; [done|]. cbn [print all_discussions].
    eapply Forall_impl; [exact Hret|].
    intros d. apply returned_mono. lia.
  - destruct (add_results_any kw (default [] (sd_search data))
                (print (Searching kw) c) 0%nat Hc)
      as (new & Hc' & _ & Ha & Hnew).
    destruct (add_results _ _ _ _) as [c' [e|n']]; cbn [fst] in *.
    all: split; [done|]; cbn [print all_discussions] in *; rewrite Ha.
    all: apply Forall_app; split;
      [eapply Forall_impl; [exact Hret|]; intros d; apply returned_mono; lia|].
    all: apply Forall_forall; intros d Hd.
    all: destruct (Hnew d Hd) as (Hk & result & Hr & Hrt & Hrs).
    all: exists i, result; rewrite Hk, Hapi; split_and!; try done; lia.
Qed.

Lemma search_keywords_inv_any kws : ∀ i c,
  drop i all = kws → inv_any api all i c →
  inv_any api all (length all) (search_keywords api i kws c).
Proof.
  induction kws as [|kw kws IH]; intros i c Hdrop Hinv; simpl.
  - assert (length all ≤ i)%nat.
    { apply drop_nil_inv in Hdrop. lia. }
    destruct Hinv as (Hc & Hret). split; [done|].
    eapply Forall_impl; [exact Hret|]. intros d (j & result & Hj & Hl & ?).
    exists j, result. split; [|done]. apply lookup_lt_Some in Hl. lia.
  - assert (Hkw : all !! i = Some kw).
    { rewrite <- (Nat.add_0_r i), <- lookup_drop, Hdrop. done. }
    apply IH.
    + erewrite drop_S in Hdrop by exact Hkw. by injection Hdrop.
    + by apply search_keyword_inv_any.
Qed.

Hypothesis complete_replies : ∀ i kw, all !! i = Some kw → complete (api i kw).

Lemma search_keyword_inv i kw c :
  all !! i = Some kw → inv api all i c →
  inv api all (S i) (search_keyword c kw (api i kw)).
Proof.
  intros Hkw (Hc & Hfirst & Hcov). unfold search_keyword.
  pose proof (complete_replies i kw Hkw) as Hcomplete.
  unfold titles_of in *.
  destruct (api i kw) as [e|data] eqn:Hapi.
  - split_and!; [done| |].
    + simpl. eapply Forall_impl; [exact Hfirst|].
      intros d. apply first_keyword_mono. lia.
    + intros j kw' t Hj Hkw' Ht. unfold titles; simpl.
      destruct (decide (j = i)) as [->|Hne].
      * rewrite Hkw in Hkw'. injection Hkw' as <-.
        unfold titles_of in Ht. rewrite Hapi in Ht.
        by apply elem_of_nil in Ht.
      * apply (Hcov j kw' t); [lia|done..].
  - destruct (add_results_complete kw (default [] (sd_search data))
                (print (Searching kw) c) 0%nat Hcomplete Hc)
      as (c' & n' & new & Hf & Hc' & Ha & Hnew & Hall).
    rewrite Hf. simpl in Ha. split_and!; [done| |].
    + simpl. rewrite Ha. apply Forall_app. split.
      * eapply Forall_impl; [exact Hfirst|].
        intros d. apply first_keyword_mono. lia.
      * apply Forall_forall. intros d Hd.
        destruct (Hnew d Hd) as (Hk & Ht & Hn).
        exists i. unfold titles_of. rewrite Hk, Hapi.
        split_and!; [lia|done|done|].
        intros j kw' Hj Hkw' Hin. apply Hn. by apply (Hcov j kw' _).
    + intros j kw' t Hj Hkw' Ht. unfold titles; simpl.
      destruct (decide (j = i)) as [->|Hne].
      * rewrite Hkw in Hkw'. injection Hkw' as <-.
        unfold titles_of in Ht. rewrite Hapi in Ht. by apply Hall.
      * fold (titles c'). unfold titles. rewrite Ha, fmap_app.
        apply elem_of_app. left. apply (Hcov j kw' t); [lia|done..].
Qed.

Lemma search_keywords_inv kws : ∀ i c,
  drop i all = kws → inv api all i c →
  inv api all (length all) (search_keywords api i kws c).
Proof.
  induction kws as [|kw kws IH]; intros i c Hdrop Hinv; simpl.
  - assert (length all ≤ i)%nat.
    { apply drop_nil_inv in Hdrop. lia. }
    destruct Hinv as (Hc & Hfirst & Hcov). split_and!; [done| |].
    + eapply Forall_impl; [exact Hfirst|]. intros d (j & Hj & Hl & ?).
      exists j. split; [|done]. apply lookup_lt_Some in Hl. lia.
    + intros j kw' t Hj. apply Hcov. lia.
  - assert (Hkw : all !! i = Some kw).
    { rewrite <- (Nat.add_0_r i), <- lookup_drop, Hdrop. done. }
    apply IH.
    + erewrite drop_S in Hdrop by exact Hkw. by injection Hdrop.
    + by apply search_keyword_inv.
Qed.
End AfdLoop.

Section AfdClaims.
Import Py Net AfdPattern AfdSpec.

(** C10, as the code has it.  For any replies, the list returned by
    [get_afd_discussions_ai] has pairwise distinct titles, and every entry
    was made from a result, with title and snippet, of the reply to the
    search for the keyword it records.  When every result of every reply
    has its title and snippet, every entry records the first keyword, in
    the order of the keyword list, whose search returned its title, and
    every title returned by some search has an entry (so exactly one). *)
Theorem afd_discussions_distinct_first_keyword
    (api : nat → text → reply search_data) (limit : Z) :
  let ds := (get_afd_discussions_ai api limit).1 in
  NoDup (d_title <$> ds)
  ∧ Forall (λ d, ∃ (i : nat) result,
       keywords !! i = Some (d_keyword d)
       ∧ result ∈ results_of (api i (d_keyword d))
       ∧ sr_title result = Some (d_title d)
       ∧ sr_snippet result = Some (d_snippet d)) ds
  ∧ ((∀ (i : nat) kw, keywords !! i = Some kw → complete (api i kw)) →
     Forall (λ d, ∃ i : nat,
       keywords !! i = Some (d_keyword d)
       ∧ d_title d ∈ titles_of (api i (d_keyword d))
       ∧ ∀ (j : nat) kw, (j < i)%nat → keywords !! j = Some kw →
                 d_title d ∉ titles_of (api j kw)) ds
     ∧ ∀ (i : nat) kw t, keywords !! i = Some kw →
         t ∈ titles_of (api i kw) → t ∈ d_title <$> ds).
Proof.
  set (c0 := Collector [] ∅
               [Banner (txt "FETCHING AFD DISCUSSIONS WITH AI MENTIONS")]).
  assert (Hany : inv_any api keywords 0 c0).
  { split; [|constructor]. split; [constructor|].
    intros t Ht. by apply elem_of_nil in Ht. }
  apply (search_keywords_inv_any api keywords keywords 0 c0 eq_refl) in Hany.
  destruct Hany as ((Hnd & _) & Hret).
  unfold get_afd_discussions_ai. fold c0. cbn [fst print all_discussions].
  split_and!.
  - exact Hnd.
  - eapply Forall_impl; [exact Hret|].
    intros d (i & result & _ & ?). by exists i, result.
  - intros Hcomplete.
    assert (H0 : inv api keywords 0 c0).
    { split_and!.
      - split; [constructor|]. intros t. unfold titles; simpl.
        rewrite elem_of_nil. set_solver.
      - constructor.
      - intros j kw t Hj. lia. }
    apply (search_keywords_inv api keywords Hcomplete keywords 0 c0 eq_refl)
      in H0.
    destruct H0 as (_ & Hfirst & Hcov). split.
    + eapply Forall_impl; [exact Hfirst|].
      intros d (i & _ & ?). by exists i.
    + intros i kw t Hkw Ht. apply (Hcov i kw t); [|done..].
      by apply lookup_lt_Some in Hkw.
Qed.

Lemma afd_third_fails_complete (i : nat) kw :
  complete (Samples.afd_third_fails i kw).
Proof.
  unfold complete, Samples.afd_third_fails.
  destruct (i =? 2)%nat; cbn [results_of default sd_search from_option id].
  - constructor.
  - apply Forall_singleton. split; eexists; reflexivity.
Qed.

Lemma afd_discussions_witness :
  (∀ (i : nat) kw, keywords !! i = Some kw →
     complete (Samples.afd_third_fails i kw))
  ∧ (get_afd_discussions_ai Samples.afd_third_fails 50).1
    = [Discussion (txt "Wikipedia:Articles for deletion/X") (txt "snippet")
         (txt "AI-generated") [] 0]
  ∧ ∀ (i : nat) kw t, keywords !! i = Some kw →
      t ∈ titles_of (Samples.afd_third_fails i kw) →
      t ∈ d_title <$> (get_afd_discussions_ai Samples.afd_third_fails 50).1.
Proof.
  split; [intros i kw _; apply afd_third_fails_complete|].
  split; [vm_compute; reflexivity|].
  apply (afd_discussions_distinct_first_keyword Samples.afd_third_fails 50).
  intros i kw _. apply afd_third_fails_complete.
Defined.

(** The statement of C10 fails for a reply with a result that lacks its
    snippet.  The first reply lists A without snippet and then B: A is
    marked as seen and never listed, although every search returned it, and
    the rest of the reply is dropped, so that B is listed under the second
    keyword, although the search for the first returned it. *)
Lemma afd_missing_snippet_breaks_first_keyword :
  let ds := (get_afd_discussions_ai Samples.afd_missing_snippet 50).1 in
  ds = [Discussion (txt "Wikipedia:Articles for deletion/B") (txt "b")
          (txt "ChatGPT") [] 0]
  ∧ keywords !! 0%nat = Some (txt "AI-generated")
  ∧ titles_of (Samples.afd_missing_snippet 0 (txt "AI-generated"))
    = [txt "Wikipedia:Articles for deletion/A";
       txt "Wikipedia:Articles for deletion/B"]
  ∧ (txt "Wikipedia:Articles for deletion/A" ∉ d_title <$> ds)
  ∧ (get_afd_discussions_ai Samples.afd_missing_snippet 50).2 !! 2%nat
    = Some (Error (txt "'snippet'")).
Proof.
  assert (Hds : (get_afd_discussions_ai Samples.afd_missing_snippet 50).1
                = [Discussion (txt "Wikipedia:Articles for deletion/B")
                     (txt "b") (txt "ChatGPT") [] 0])
    by (vm_compute; reflexivity).
  cbv zeta. rewrite Hds. split_and!; try (vm_compute; reflexivity).
  intros Hin. apply list_elem_of_singleton in Hin. discriminate Hin.
Qed.

End AfdClaims.

(** *** Pagination loops *)

Section PolicyLoop.
Import Py Re Net PolicyCitation PolicySpec.
Variable api : nat → rc_request → reply rc_data.
Variable max_batches : Z.

Lemma count_policies_batches ps : ∀ r,
  batches_processed (foldl count_policy r ps) = batches_processed r.
Proof.
  induction ps as [|p ps IH]; intros r; [done|]. simpl. by rewrite IH.
Qed.

Lemma process_change_batches r c :
  batches_processed (process_change r c) = batches_processed r.
Proof.
  unfold process_change.
  destruct (default [] (ch_comment c)); [done|].
  destruct (findall _ _ _) as [|p ps]; [done|].
  by rewrite count_policies_batches.
Qed.

Lemma process_changes_batches cs : ∀ r,
  batches_processed (foldl process_change r cs) = batches_processed r.
Proof.
  induction cs as [|c cs IH]; intros r; [done|].
  simpl. by rewrite IH, process_change_batches.
Qed.

Lemma loop_stop st remaining snt bp prn :
  snt = sent st ++ [params st] →
  bp = (batches_processed (counts st) + 1)%Z →
  continues (api (length (sent st)) (params st)) = false →
  (∀ o, stop_line (batches_processed (counts st) + 1)
          (api (length (sent st)) (params st)) = Some o →
        last prn = Some o) →
  loop_spec api st (S remaining) snt bp prn.
Proof.
  intros Hs Hb Hc He. exists [params st]. simpl.
  split_and!; [done|lia|lia|lia| | |].
  - intros k req _ Hlt. lia.
  - intros [|k] req Hk Hl; [|simpl in Hl; lia]. injection Hk as <-.
    left. by rewrite Nat.add_0_r.
  - intros [|k] req o Hk Hr; [|done]. injection Hk as <-.
    rewrite Nat.add_0_r in Hr. split; [done|]. by apply He.
Qed.

Lemma batches_spec : ∀ remaining st,
  loop_spec api st remaining
    (sent (batches api max_batches remaining st))
    (batches_processed (counts (batches api max_batches remaining st)))
    (printed (batches api max_batches remaining st)).
Proof.
  induction remaining as [|remaining IH]; intros st.
  { exists []. simpl. rewrite app_nil_r. split_and!; try done; lia. }
  simpl.
  destruct (api (length (sent st)) (params st)) as [e|[changes cont]] eqn:Hapi.
  { apply loop_stop; rewrite ?Hapi; simpl;
      [reflexivity..|intros ? [= <-]; by rewrite last_snoc]. }
  destruct changes as [[|c cs]|]; simpl.
  { apply loop_stop; rewrite ?Hapi; simpl;
      [reflexivity..|intros ? [= <-]; by rewrite last_snoc]. }
  2:{ apply loop_stop; rewrite ?Hapi; simpl;
      [reflexivity..|intros ? [= <-]; by rewrite last_snoc]. }
  destruct cont as [[token|]|].
  2:{ apply loop_stop; rewrite ?Hapi; simpl;
      rewrite ?process_changes_batches, ?process_change_batches;
      [reflexivity..|intros ? [= <-]; by rewrite last_snoc]. }
  2:{ apply loop_stop; rewrite ?Hapi; simpl;
      rewrite ?process_changes_batches, ?process_change_batches;
      [reflexivity..|intros ? [= <-]; by rewrite last_snoc]. }
  match goal with |- context [batches api max_batches remaining ?s] =>
    destruct (IH s) as (extra & Hs & Hl & Hpos & Hb & Hc & Hd & He) end.
  simpl in Hs, Hb, Hc, Hd, He. rewrite length_app in Hc, Hd, He.
  simpl in Hc, Hd, He.
  rewrite ?process_changes_batches, ?process_change_batches in Hb, He.
  simpl in Hb, He.
  exists (params st :: extra). rewrite Hs, Hb. simpl.
  split_and!.
  - by rewrite <- app_assoc.
  - lia.
  - lia.
  - lia.
  - intros [|k] req Hk Hlt; simpl in Hk.
    + injection Hk as <-. by rewrite Nat.add_0_r, Hapi.
    + replace (length (sent st) + S k)%nat
        with (length (sent st) + 1 + k)%nat by lia.
      apply Hc; [done|lia].
  - intros [|k] req Hk Hlen; simpl in Hk.
    + right. destruct remaining; [lia|]. specialize (Hpos ltac:(lia)). lia.
    + replace (length (sent st) + S k)%nat
        with (length (sent st) + 1 + k)%nat by lia.
      destruct (Hd k req Hk ltac:(lia)) as [?|?]; [by left|right; lia].
  - intros [|k] req o Hk Hr; simpl in Hk.
    + injection Hk as <-. rewrite Nat.add_0_r, Hapi in Hr. done.
    + replace (length (sent st) + S k)%nat
        with (length (sent st) + 1 + k)%nat in Hr by lia.
      replace (batches_processed (counts st) + Z.of_nat (S (S k)))%Z
        with (batches_processed (counts st) + 1 + Z.of_nat (S k))%Z in Hr by lia.
      destruct (He k req o Hk Hr) as [? ->]. split; [lia|done].
Qed.

Lemma batches_data : ∀ remaining st1 st2,
  counts st1 = counts st2 → params st1 = params st2 → sent st1 = sent st2 →
  counts (batches api max_batches remaining st1)
  = counts (batches (λ i req, as_no_data (api i req)) max_batches remaining st2)
  ∧ sent (batches api max_batches remaining st1)
    = sent (batches (λ i req, as_no_data (api i req)) max_batches remaining st2).
Proof.
  induction remaining as [|remaining IH]; intros st1 st2 Hc Hp Hs; [done|].
  simpl. rewrite Hc, Hp, Hs.
  destruct (api (length (sent st2)) (params st2)) as [e|[changes cont]];
    simpl; [done|].
  destruct changes as [[|c cs]|]; simpl; [done| |done].
  destruct cont as [[token|]|]; simpl; [|done..].
  by apply IH.
Qed.
End PolicyLoop.

Section WikiLoop.
Import Py Net WikiProject WikiSpec.
Variable api : nat → option text → reply allpages_data.

Lemma pagination_stops n : ∀ fuel st,
  (∀ k req, (k < n)%nat → continues (api (length (sent st) + k)%nat req) = true) →
  (∀ req, continues (api (length (sent st) + n)%nat req) = false) →
  (n < fuel)%nat →
  ∃ e, pagination api fuel st = Some e
       ∧ length (sent (final e)) = (length (sent st) + S n)%nat.
Proof.
  induction n as [|n IH]; intros fuel st Hc Hs Hf.
  - destruct fuel as [|fuel]; [lia|]. simpl.
    specialize (Hs (apcontinue_param (continue_token st))).
    rewrite Nat.add_0_r in Hs.
    destruct (api _ _) as [e|[pages [token|]]]; simpl in Hs; try done.
    + eexists. split; [done|]. simpl. rewrite length_app. simpl. lia.
    + eexists. split; [done|]. simpl. rewrite length_app. simpl. lia.
  - destruct fuel as [|fuel]; [lia|]. simpl.
    pose proof (Hc 0%nat (apcontinue_param (continue_token st)) ltac:(lia)) as H0.
    rewrite Nat.add_0_r in H0.
    destruct (api _ _) as [e|[pages [token|]]]; simpl in H0; try done.
    simpl.
    match goal with |- context [pagination api fuel ?s] =>
      destruct (IH fuel s) as (e & He & Hl) end.
    + intros k req Hk. simpl. rewrite length_app. simpl.
      replace (length (sent st) + 1 + k)%nat with (length (sent st) + S k)%nat by lia.
      apply Hc. lia.
    + intros req. simpl. rewrite length_app. simpl.
      replace (length (sent st) + 1 + n)%nat with (length (sent st) + S n)%nat by lia.
      apply Hs.
    + lia.
    + exists e. split; [done|]. rewrite Hl. simpl. rewrite length_app. simpl. lia.
Qed.

Lemma pagination_runs n : ∀ fuel st,
  (∀ k req, (k < n)%nat → continues (api (length (sent st) + k)%nat req) = true) →
  (fuel ≤ n)%nat →
  pagination api fuel st = None.
Proof.
  induction n as [|n IH]; intros fuel st Hc Hf.
  - by replace fuel with 0%nat by lia.
  - destruct fuel as [|fuel]; [done|]. simpl.
    pose proof (Hc 0%nat (apcontinue_param (continue_token st)) ltac:(lia)) as H0.
    rewrite Nat.add_0_r in H0.
    destruct (api _ _) as [e|[pages [token|]]]; simpl in H0; try done.
    simpl. apply IH; [|lia].
    intros k req Hk. simpl. rewrite length_app. simpl.
    replace (length (sent st) + 1 + k)%nat with (length (sent st) + S k)%nat by lia.
    apply Hc. lia.
Qed.
End WikiLoop.

Section PaginationClaims.
Import Py Net PolicyCitation PolicySpec.

(** C3 (as amended).  [search_edit_summaries_2025] sends at most
    [max_batches] requests whatever the replies, counts them in
    [batches_processed], goes on only after a reply with changes and an
    [rccontinue] token, and returns at the first reply without them or at
    the ceiling, the last line printed saying which: no more changes for an
    empty page, no more data for a missing token.  The loop of
    [get_popular_wikiprojects] has no ceiling: it ends with the first reply
    that carries no token (or raises), after exactly that many requests, and
    is still running before. *)
Theorem pagination_bounded_only_by_max_batches
    (api : nat → rc_request → reply rc_data) (limit_per_batch max_batches : Z)
    (wapi : nat → option text → reply WikiProject.allpages_data)
    (n fuel : nat)
    (Hmore : ∀ k req, (k < n)%nat → WikiSpec.continues (wapi k req) = true)
    (Hlast : ∀ req, WikiSpec.continues (wapi n req) = false) :
  let st := search_edit_summaries_2025 api limit_per_batch max_batches in
  (Z.of_nat (length (sent st)) ≤ Z.max 0 max_batches)%Z
  ∧ batches_processed (counts st) = Z.of_nat (length (sent st))
  ∧ (∀ j req, sent st !! j = Some req → (S j < length (sent st))%nat →
       continues (api j req) = true)
  ∧ (∀ j req, sent st !! j = Some req → S j = length (sent st) →
       continues (api j req) = false
       ∨ Z.of_nat (length (sent st)) = max_batches)
  ∧ (∀ j req o, sent st !! j = Some req →
       stop_line (Z.of_nat (S j)) (api j req) = Some o →
       S j = length (sent st) ∧ last (printed st) = Some o)
  ∧ ((n < fuel)%nat →
       ∃ e, WikiProject.get_popular_wikiprojects_pagination wapi fuel = Some e
            ∧ length (WikiProject.sent (WikiSpec.final e)) = S n)
  ∧ ((fuel ≤ n)%nat →
       WikiProject.get_popular_wikiprojects_pagination wapi fuel = None).
Proof.
  intros st.
  destruct (batches_spec api max_batches (Z.to_nat max_batches)
              (Locals (Results [] [] 0 0 0) (RcRequest limit_per_batch None) []
                 [Banner (txt "SEARCHING 2025 EDIT SUMMARIES FOR POLICY CITATIONS")]))
    as (extra & Hs & Hl & _ & Hb & Hc & Hd & He).
  fold (search_edit_summaries_2025 api limit_per_batch max_batches) in Hs, Hb, He.
  fold st in Hs, Hb, He. simpl in Hs, Hb, Hc, Hd, He. subst extra.
  split_and!.
  - lia.
  - rewrite Hb. lia.
  - exact Hc.
  - intros j req Hj Hlen. destruct (Hd j req Hj Hlen) as [?|Heq]; [by left|].
    right. lia.
  - exact He.
  - intros Hf.
    apply (pagination_stops wapi n fuel (WikiProject.Locals [] None 0 [] []));
      simpl; done.
  - intros Hf.
    apply (pagination_runs wapi n fuel (WikiProject.Locals [] None 0 [] []));
      simpl; done.
Qed.

Lemma pagination_bounded_witness :
  (∀ k req, (k < 2)%nat →
     WikiSpec.continues (Samples.wiki_three_pages k req) = true)
  ∧ (∀ req, WikiSpec.continues (Samples.wiki_three_pages 2 req) = false)
  ∧ length (sent (search_edit_summaries_2025 Samples.rc_always_more 500 3)) = 3%nat
  ∧ ∃ e, WikiProject.get_popular_wikiprojects_pagination
           Samples.wiki_three_pages 5 = Some e
         ∧ length (WikiProject.sent (WikiSpec.final e)) = 3%nat.
Proof.
  assert (H1 : ∀ k req, (k < 2)%nat →
            WikiSpec.continues (Samples.wiki_three_pages k req) = true).
  { intros [|[|k]] req Hk; [reflexivity|reflexivity|lia]. }
  assert (H2 : ∀ req, WikiSpec.continues (Samples.wiki_three_pages 2 req) = false).
  { reflexivity. }
  split; [exact H1|]. split; [exact H2|]. split; [reflexivity|].
  apply (pagination_bounded_only_by_max_batches Samples.rc_always_more 500 3
           Samples.wiki_three_pages 2 5 H1 H2). lia.
Defined.

(** C3 as stated fails for [get_popular_wikiprojects]: against an API that
    always returns a continuation token its loop never ends, whatever bound
    is put on the number of iterations. *)
Lemma wikiproject_pagination_unbounded :
  ¬ ∃ fuel, is_Some (WikiProject.get_popular_wikiprojects_pagination
                       WikiSpec.always_more fuel).
Proof.
  intros (fuel & e & He).
  unfold WikiProject.get_popular_wikiprojects_pagination in He.
  rewrite (pagination_runs WikiSpec.always_more fuel fuel) in He; done.
Qed.

End PaginationClaims.

(** *** Failed requests *)

Section AfdFailures.
Import Py Net AfdPattern AfdSpec.

Lemma add_results_data keyword results : ∀ c1 c2 n,
  data c1 = data c2 →
  data (add_results keyword c1 n results).1
  = data (add_results keyword c2 n results).1
  ∧ (add_results keyword c1 n results).2
    = (add_results keyword c2 n results).2.
Proof.
  induction results as [|r results IH]; intros c1 c2 n Hd; [done|].
  cbn [add_results]. destruct (sr_title r) as [title|]; [|done].
  injection Hd as Ha Hs. rewrite Hs.
  destruct (decide (title ∈ seen_titles c2)).
  - apply IH. unfold data. by rewrite Ha, Hs.
  - cbv zeta. cbn [all_discussions seen_titles printed].
    destruct (sr_snippet r) as [snippet|].
    + apply IH. unfold data. cbn [all_discussions seen_titles].
      by rewrite Ha.
    + cbn [fst snd]. unfold data. cbn [all_discussions seen_titles].
      by rewrite Ha.
Qed.

Lemma add_results_printed keyword results : ∀ c n,
  printed (add_results keyword c n results).1 = printed c.
Proof.
  induction results as [|r results IH]; intros c n; [done|].
  cbn [add_results]. destruct (sr_title r) as [title|]; [|done].
  destruct (decide _); [apply IH|]. cbv zeta.
  destruct (sr_snippet r); [|done]. by rewrite IH.
Qed.

Lemma search_keyword_printed c kw r :
  ∃ o, printed (search_keyword c kw r) = printed c ++ [Searching kw; o]
       ∧ (∀ e, r = Raised e → o = Error e)
       ∧ (∀ kw', o ≠ Searching kw').
Proof.
  unfold search_keyword. destruct r as [e|d].
  - exists (Error e). simpl. rewrite <- app_assoc. split_and!; [done| |done].
    by intros e' [= <-].
  - pose proof (add_results_printed kw (default [] (sd_search d))
                  (print (Searching kw) c) 0%nat) as Hp.
    destruct (add_results _ _ _ _) as [c' [e|n']]; cbn [fst] in Hp.
    + exists (Error e). cbn [print printed] in *. rewrite Hp, <- app_assoc.
      split_and!; done.
    + exists (Found (length (default [] (sd_search d))) n').
      cbn [print printed] in *. rewrite Hp, <- app_assoc.
      split_and!; done.
Qed.

Variable api : nat → text → reply search_data.

Lemma search_keywords_data kws : ∀ i c1 c2,
  data c1 = data c2 →
  data (search_keywords api i kws c1)
  = data (search_keywords (λ i kw, as_no_data (api i kw)) i kws c2).
Proof.
  induction kws as [|kw kws IH]; intros i c1 c2 Hd; [done|].
  simpl. apply IH. unfold search_keyword.
  destruct (api i kw) as [e|d]; simpl.
  - done.
  - pose proof (add_results_data kw (default [] (sd_search d))
                  (print (Searching kw) c1) (print (Searching kw) c2) 0%nat Hd)
      as [H1 H2].
    destruct (add_results _ (print _ c1) _ _) as [c1' o1].
    destruct (add_results _ (print _ c2) _ _) as [c2' o2].
    cbn [fst snd] in H1, H2. subst o2. by destruct o1.
Qed.

Lemma search_keywords_searched kws : ∀ i c,
  searched (printed (search_keywords api i kws c))
  = searched (printed c) ++ kws.
Proof.
  induction kws as [|kw kws IH]; intros i c; simpl.
  - by rewrite app_nil_r.
  - rewrite IH.
    destruct (search_keyword_printed c kw (api i kw)) as (o & -> & _ & Ho).
    unfold searched. rewrite omap_app. simpl.
    destruct o; try (by rewrite <- app_assoc). by destruct (Ho keyword).
Qed.

Lemma search_keywords_grows kws : ∀ i c,
  ∃ more, printed (search_keywords api i kws c) = printed c ++ more.
Proof.
  induction kws as [|kw kws IH]; intros i c; simpl.
  - exists []. by rewrite app_nil_r.
  - destruct (IH (S i) (search_keyword c kw (api i kw))) as (more & ->).
    destruct (search_keyword_printed c kw (api i kw)) as (o & -> & _).
    eexists. by rewrite <- app_assoc.
Qed.

Lemma search_keywords_error kws : ∀ i c j kw e,
  kws !! j = Some kw → api (i + j)%nat kw = Raised e →
  ∃ before after,
    printed (search_keywords api i kws c)
    = before ++ [Searching kw; Error e] ++ after.
Proof.
  induction kws as [|kw0 kws IH]; intros i c j kw e Hj He; [done|].
  destruct j as [|j]; simpl in Hj.
  - injection Hj as ->. rewrite Nat.add_0_r in He. simpl.
    destruct (search_keywords_grows kws (S i) (search_keyword c kw (api i kw)))
      as (more & ->).
    destruct (search_keyword_printed c kw (api i kw)) as (o & -> & Ho & _).
    rewrite (Ho e He). exists (printed c), more. by rewrite <- app_assoc.
  - simpl. apply (IH (S i) _ j kw e Hj).
    by replace (S i + j)%nat with (i + S j)%nat by lia.
Qed.
End AfdFailures.

Section FailureClaims.
Import Py Net.

(** What the two fetch loops do with a request that raises.  In
    [get_afd_discussions_ai] the discussions returned are those of the run
    in which every such request had returned no results; every keyword is
    still searched, and the error is printed right after the announcement
    of its keyword.  In [search_edit_summaries_2025] the counts returned
    are those of the run in which the request had returned a page without
    changes: what the earlier batches gave is kept, the error is printed
    with the number of its batch, and the function returns. *)
Lemma raised_request_adds_nothing
    (api : nat → text → reply AfdPattern.search_data) (limit : Z)
    (rapi : nat → PolicyCitation.rc_request → reply PolicyCitation.rc_data)
    (limit_per_batch max_batches : Z) :
  let afd := AfdPattern.get_afd_discussions_ai api limit in
  let st := PolicyCitation.search_edit_summaries_2025 rapi limit_per_batch
              max_batches in
  let st0 := PolicyCitation.search_edit_summaries_2025
               (λ i req, PolicySpec.as_no_data (rapi i req)) limit_per_batch
               max_batches in
  afd.1 = (AfdPattern.get_afd_discussions_ai
             (λ i kw, AfdSpec.as_no_data (api i kw)) limit).1
  ∧ AfdSpec.searched afd.2 = AfdPattern.keywords
  ∧ (∀ i kw e, AfdPattern.keywords !! i = Some kw → api i kw = Raised e →
       ∃ before after,
         afd.2 = before ++ [AfdPattern.Searching kw; AfdPattern.Error e] ++ after)
  ∧ PolicyCitation.counts st = PolicyCitation.counts st0
  ∧ PolicyCitation.sent st = PolicyCitation.sent st0
  ∧ (∀ j req e, PolicyCitation.sent st !! j = Some req → rapi j req = Raised e →
       S j = length (PolicyCitation.sent st)
       ∧ last (PolicyCitation.printed st)
         = Some (PolicyCitation.ErrorInBatch (Z.of_nat (S j)) e)).
Proof.
  intros afd st st0.
  set (c0 := AfdPattern.Collector [] ∅
    [AfdPattern.Banner (txt "FETCHING AFD DISCUSSIONS WITH AI MENTIONS")]).
  assert (Hafd : afd
    = (AfdPattern.all_discussions
         (AfdPattern.search_keywords api 0 AfdPattern.keywords c0),
       AfdPattern.printed
         (AfdPattern.search_keywords api 0 AfdPattern.keywords c0)
       ++ [AfdPattern.TotalUnique
             (length (AfdPattern.all_discussions
                (AfdPattern.search_keywords api 0 AfdPattern.keywords c0)))]))
    by reflexivity.
  rewrite Hafd. clear Hafd. cbn [fst snd].
  split_and!.
  - pose proof (search_keywords_data api AfdPattern.keywords 0 c0 c0 eq_refl) as H.
    injection H as H _. exact H.
  - unfold AfdSpec.searched. rewrite omap_app. cbn [omap]. rewrite app_nil_r.
    apply (search_keywords_searched api AfdPattern.keywords 0 c0).
  - intros i kw e Hkw He.
    destruct (search_keywords_error api AfdPattern.keywords 0 c0 i kw e Hkw He)
      as (before & after & ->).
    eexists before, (after ++ _). by rewrite <- !app_assoc.
  - by apply batches_data.
  - by apply batches_data.
  - intros j req e Hj He.
    destruct (batches_spec rapi max_batches (Z.to_nat max_batches)
      (PolicyCitation.Locals (PolicyCitation.Results [] [] 0 0 0)
         (PolicyCitation.RcRequest limit_per_batch None) []
         [PolicyCitation.Banner
            (txt "SEARCHING 2025 EDIT SUMMARIES FOR POLICY CITATIONS")]))
      as (extra & Hs & _ & _ & _ & _ & _ & Herr).
    fold (PolicyCitation.search_edit_summaries_2025 rapi limit_per_batch
            max_batches) in Hs, Herr.
    fold st in Hs, Herr. simpl in Hs, Herr. subst extra.
    apply (Herr j req _ Hj). by rewrite He.
Qed.

(** C9 fails on the code.  The fetch loops catch a request that raises, but
    the run does not go on to completion.  When every search request
    raises, whatever the exceptions, [get_afd_discussions_ai] prints each
    error after its keyword and returns no discussion, and [main] then
    divides the voters by the number of analyses, which is zero: the run
    of the deletion analyzer ends in [ZeroDivisionError], for any replies
    to the parse requests.  In [search_edit_summaries_2025] a request that
    raises ends the loop; when the batches before it held edits but no
    policy citation, the report of [main] ends in [ZeroDivisionError] too.
    And [get_afd_discussions_ai] never looks at the status of a reply: a
    reply with an error status and a JSON body without results is
    announced as found results, with no error printed. *)
Theorem failed_requests_abort_the_run
    (errors : nat → text → text)
    (papi : nat → text → reply AfdMain.parse_data) :
  let unreachable : nat → text → reply AfdPattern.search_data :=
    λ i kw, Raised (errors i kw) in
  let st := PolicyCitation.search_edit_summaries_2025
              Samples.rc_plain_then_fails 500 20 in
  AfdPattern.get_afd_discussions_ai unreachable 50
  = ([],
     [AfdPattern.Banner (txt "FETCHING AFD DISCUSSIONS WITH AI MENTIONS")]
     ++ concat (imap (λ i kw, [AfdPattern.Searching kw;
                               AfdPattern.Error (errors i kw)])
                  AfdPattern.keywords)
     ++ [AfdPattern.TotalUnique 0])
  ∧ (AfdMain.main unreachable papi).2 = inl ZeroDivisionError
  ∧ PolicyCitation.counts st = PolicyCitation.Results [] [] 1 0 2
  ∧ last (PolicyCitation.printed st)
    = Some (PolicyCitation.ErrorInBatch 2 (txt "503"))
  ∧ (PolicyCitation.main_report Samples.rc_plain_then_fails).2
    = inl ZeroDivisionError
  ∧ AfdPattern.get_afd_discussions_ai Samples.afd_error_status 50
    = ([],
       [AfdPattern.Banner (txt "FETCHING AFD DISCUSSIONS WITH AI MENTIONS")]
       ++ concat ((λ kw, [AfdPattern.Searching kw; AfdPattern.Found 0 0])
                    <$> AfdPattern.keywords)
       ++ [AfdPattern.TotalUnique 0]).
Proof.
  intros unreachable st.
  assert (Hafd : AfdPattern.get_afd_discussions_ai unreachable 50
    = ([],
       [AfdPattern.Banner (txt "FETCHING AFD DISCUSSIONS WITH AI MENTIONS")]
       ++ concat (imap (λ i kw, [AfdPattern.Searching kw;
                                 AfdPattern.Error (errors i kw)])
                    AfdPattern.keywords)
       ++ [AfdPattern.TotalUnique 0])) by reflexivity.
  split_and!.
  - exact Hafd.
  - unfold AfdMain.main. rewrite Hafd. reflexivity.
  - vm_compute. reflexivity.
  - vm_compute. reflexivity.
  - vm_compute. reflexivity.
  - vm_compute. reflexivity.
Qed.

Lemma raised_request_witness :
  (∃ before after,
     (AfdPattern.get_afd_discussions_ai Samples.afd_third_fails 50).2
     = before ++ [AfdPattern.Searching (txt "GPT");
                  AfdPattern.Error (txt "timeout")] ++ after)
  ∧ length (PolicyCitation.sent
              (PolicyCitation.search_edit_summaries_2025
                 Samples.rc_second_fails 500 20)) = 2%nat.
Proof.
  destruct (raised_request_adds_nothing Samples.afd_third_fails 50
              Samples.rc_second_fails 500 20)
    as (_ & _ & Hafd & _ & _ & Hrc).
  split.
  - apply (Hafd 2%nat (txt "GPT") (txt "timeout")); reflexivity.
  - symmetry.
    apply (Hrc 1%nat (PolicyCitation.RcRequest 500 (Some (txt "token")))
             (txt "503")); reflexivity.
Defined.
End FailureClaims.

(** *** The section splitter *)

Section Sections.
Import Py Re Enforcement EnforcementSpec.

Lemma join_lines_cons line lines :
  join_lines (line :: lines) = line ++ newline :: join_lines lines.
Proof. unfold join_lines. simpl. by rewrite <- app_assoc. Qed.

Lemma split_lines_cons (s : text) : ∃ l ls, split_lines s = l :: ls.
Proof.
  destruct s as [|c s]; simpl; [by eexists _, _|].
  destruct (Ascii.eqb c newline); by eexists _, _.
Qed.

Lemma join_split_lines (s : text) : join_lines (split_lines s) = s ++ [newline].
Proof.
  induction s as [|c s IH]; [done|].
  cbn [split_lines]. destruct (split_lines_cons s) as (l & ls & Hs).
  rewrite Hs in *. cbn [hd tl]. rewrite join_lines_cons in IH.
  destruct (Ascii.eqb_spec c newline) as [->|Hc].
  - rewrite !join_lines_cons. simpl. by rewrite IH.
  - rewrite join_lines_cons. simpl. by rewrite IH.
Qed.

Lemma parse_lines_plain lines : ∀ sections current,
  Forall (λ line, re_match NOFLAGS header_pattern line = None) lines →
  foldl parse_line (sections, current) lines
  = (sections, MkSection (title current) (content current ++ join_lines lines)).
Proof.
  induction lines as [|line lines IH]; intros sections current Hl.
  - simpl. unfold join_lines. simpl. rewrite app_nil_r. by destruct current.
  - apply Forall_cons in Hl as [Hline Hl]. cbn [foldl parse_line].
    rewrite Hline, IH by done. cbn [title content].
    rewrite join_lines_cons. f_equal. f_equal. rewrite <- !app_assoc. done.
Qed.

Lemma parse_lines_headings lines : ∀ t,
  Forall is_heading lines →
  ∃ t', foldl parse_line ([], MkSection t []) lines = ([], MkSection t' []).
Proof.
  induction lines as [|line lines IH]; intros t Hl.
  - by exists t.
  - apply Forall_cons in Hl as [[m Hm] Hl]. simpl. rewrite Hm. simpl.
    by apply IH.
Qed.

Lemma parse_lines_nonempty lines : ∀ sections current,
  Forall (λ s, content s ≠ []) sections →
  Forall (λ s, content s ≠ [])
    (foldl parse_line (sections, current) lines).1.
Proof.
  induction lines as [|line lines IH]; intros sections current Hs; [done|].
  simpl. destruct (re_match NOFLAGS header_pattern line) as [m|].
  - apply IH. destruct (content current) as [|c cs] eqn:Hc; simpl; [done|].
    apply Forall_app. split; [done|]. constructor; [|done]. by rewrite Hc.
  - by apply IH.
Qed.

(** C4 (as amended).  A document none of whose lines is a heading gives
    exactly one section, titled "Introduction", whose body is the document
    followed by a newline (each line is put back with its newline); a
    document all of whose lines are headings gives no section. *)
Theorem sections_without_headings_or_only_headings (doc1 doc2 : text)
    (Hplain : Forall (λ line, re_match NOFLAGS header_pattern line = None)
                (split_lines doc1))
    (Hheads : Forall is_heading (split_lines doc2)) :
  parse_talk_sections doc1
  = [MkSection (txt "Introduction") (doc1 ++ [newline])]
  ∧ parse_talk_sections doc2 = [].
Proof.
  unfold parse_talk_sections. split.
  - rewrite parse_lines_plain by done. simpl. rewrite join_split_lines.
    by destruct doc1.
  - destruct (parse_lines_headings (split_lines doc2) (txt "Introduction") Hheads)
      as [t' ->]. done.
Qed.

Lemma sections_without_headings_witness :
  Forall (λ line, re_match NOFLAGS header_pattern line = None)
    (split_lines (txt "abc"))
  ∧ Forall is_heading (split_lines (txt "== A =="))
  ∧ parse_talk_sections (txt "abc")
    = [MkSection (txt "Introduction") (txt "abc" ++ [newline])]
  ∧ parse_talk_sections (txt "== A ==") = [].
Proof.
  assert (H1 : Forall (λ line, re_match NOFLAGS header_pattern line = None)
                 (split_lines (txt "abc"))).
  { vm_compute. repeat constructor. }
  assert (H2 : Forall is_heading (split_lines (txt "== A =="))).
  { constructor; [|constructor]. vm_compute. eexists. reflexivity. }
  split; [exact H1|]. split; [exact H2|].
  exact (sections_without_headings_or_only_headings _ _ H1 H2).
Defined.

(** C4 as stated fails: the body of the single section of a document without
    headings is not the document itself. *)
Lemma introduction_body_is_not_the_document :
  Forall (λ line, re_match NOFLAGS header_pattern line = None)
    (split_lines (txt "abc"))
  ∧ parse_talk_sections (txt "abc") ≠ [MkSection (txt "Introduction") (txt "abc")].
Proof.
  split; [vm_compute; repeat constructor|]. vm_compute. discriminate.
Qed.

(** C5 (as amended).  Every section emitted has a non-empty body; the body
    is not trimmed before the test. *)
Theorem emitted_sections_have_nonempty_body (doc : text) :
  Forall (λ s, content s ≠ []) (parse_talk_sections doc).
Proof.
  unfold parse_talk_sections.
  pose proof (parse_lines_nonempty (split_lines doc) []
                (MkSection (txt "Introduction") []) (Forall_nil_2 _)) as H.
  destruct (foldl parse_line _ _) as [sections current]. simpl in H.
  destruct (content current) as [|c cs] eqn:Hc; simpl; [done|].
  apply Forall_app. split; [done|]. constructor; [|done]. by rewrite Hc.
Qed.

(** C5 as stated fails: a section whose body is one blank line is emitted,
    and that body trims to the empty string. *)
Lemma blank_section_is_emitted :
  parse_talk_sections two_headings_one_blank = [MkSection (txt "A") [newline]]
  ∧ strip [newline] = [].
Proof. split; vm_compute; reflexivity. Qed.
End Sections.

(** *** The report *)

Section ReportClaims.
Import Py Net PolicyCitation.

(** [generate_statistics] tests for an empty project list first, so its
    rates never divide by zero. *)
Lemma generate_statistics_guarded (projects : list Eclipse.project) :
  Eclipse.generate_statistics [] = inr None
  ∧ ∃ r, Eclipse.generate_statistics projects = inr r.
Proof.
  split; [done|]. destruct projects as [|p ps]; [by eexists|].
  unfold Eclipse.generate_statistics, Eclipse.rate, div.
  replace (Z.of_nat (length (p :: ps)) =? 0) with false; [by eexists|].
  symmetry. apply Z.eqb_neq. simpl. lia.
Qed.

(** C1 fails on the code.  With edits checked but no policy citation found,
    [print_results] passes its guarded ratio and then divides by
    [len(all_policies)], which is zero: it ends in [ZeroDivisionError].  Such
    results are what [search_edit_summaries_2025] returns for a page of
    edits that cite no policy, so [main] ends the same way. *)
Theorem print_results_zero_citations_raises (n : positive) (e b : Z) :
  (print_results (Results [] [] (Z.pos n) e b)).2 = inl ZeroDivisionError
  ∧ counts (search_edit_summaries_2025 Samples.rc_one_plain_edit 500 20)
    = Results [] [] 1 0 1
  ∧ (main_report Samples.rc_one_plain_edit).2 = inl ZeroDivisionError.
Proof.
  split_and!.
  - reflexivity.
  - vm_compute. reflexivity.
  - vm_compute. reflexivity.
Qed.
End ReportClaims.

(** *** Scanning *)

Section ScanClaims.
Import Py Re Net.

(** C2 fails on the code.  [analyze_afd_text] counts the matches of the
    context pattern, and one context window swallows every occurrence within
    100 characters: for "GPT GPT" it reports the count 1, where a scan for
    the indicator alone finds 2 occurrences. *)
Theorem afd_count_merges_nearby_occurrences :
  AfdPattern.an_detection_indicators
    <$> AfdPattern.analyze_afd_text (Some (txt "GPT GPT")) (txt "A")
  = Some [AfdPattern.IndicatorEntry (txt "GPT") 1 [txt "GPT GPT"]]
  ∧ length (finditer IGNORECASE (literal (txt "GPT")) (txt "GPT GPT")) = 2%nat.
Proof. split; vm_compute; reflexivity. Qed.

(** In [extract_ai_references] each occurrence of a keyword is one mention. *)
Lemma governance_mentions_per_keyword (current_section section_content kw : text) :
  length (Governance.keyword_mentions current_section section_content kw)
  = length (finditer IGNORECASE (Governance.keyword_pattern kw) section_content).
Proof. unfold Governance.keyword_mentions. by rewrite length_fmap. Qed.

Lemma discussions_no_keywords parts : ∀ cur,
  (foldl (Discussions.visit_part []) (cur, []) parts).2 = [].
Proof.
  induction parts as [|[i part] parts IH]; intros cur; [done|].
  cbn [foldl Discussions.visit_part existsb].
  destruct (i mod 2 =? 0)%nat; apply IH.
Qed.

Lemma governance_no_keywords parts : ∀ cur,
  Governance.w_mentions
    (foldl (Governance.visit_part []) (Governance.Walk cur [] []) parts) = [].
Proof.
  induction parts as [|[i part] parts IH]; intros cur; [done|].
  cbn [foldl Governance.visit_part].
  destruct (i mod 2 =? 0)%nat; cbn; apply IH.
Qed.

(** C8 (as amended).  On an empty or absent text [analyze_afd_text] returns
    [None] (which its callers skip), [extract_ai_discussions] returns the
    empty list and [extract_ai_references] an empty list of mentions,
    whatever the patterns; with no patterns, any non-empty text gives an
    empty list of indicators, of discussions and of mentions. *)
Theorem scan_of_empty_text_or_no_patterns
    (inds kws : list text) (article : text) (c : ascii) (t : text) :
  AfdPattern.analyze_with inds None article = None
  ∧ AfdPattern.analyze_with inds (Some []) article = None
  ∧ Discussions.extract_with kws None = []
  ∧ Discussions.extract_with kws (Some []) = []
  ∧ Governance.ai_mentions (Governance.extract_with kws None) = []
  ∧ Governance.ai_mentions (Governance.extract_with kws (Some [])) = []
  ∧ AfdPattern.an_detection_indicators
      <$> AfdPattern.analyze_with [] (Some (c :: t)) article = Some []
  ∧ Discussions.extract_with [] (Some (c :: t)) = []
  ∧ Governance.ai_mentions (Governance.extract_with [] (Some (c :: t))) = [].
Proof.
  split_and!; try reflexivity.
  - unfold Discussions.extract_with. apply discussions_no_keywords.
  - unfold Governance.extract_with. cbn [default Governance.ai_mentions].
    apply governance_no_keywords.
Qed.

(** C8 as stated fails for [analyze_afd_text]: for an empty text the result
    is [None], not an empty sequence. *)
Lemma afd_empty_text_gives_none :
  AfdPattern.analyze_afd_text (Some []) (txt "A") = None
  ∧ AfdPattern.an_detection_indicators
      <$> AfdPattern.analyze_afd_text (Some []) (txt "A") ≠ Some [].
Proof. split; [reflexivity|discriminate]. Qed.
End ScanClaims.

(** *** The matcher is sound *)

Section Soundness.
Import Py Re ReSpec.
Variable fl : flags.

Lemma orelse_Some {R} (x y : option R) v :
  orelse x y = Some v → x = Some v ∨ y = Some v.
Proof. destruct x; simpl; auto. Qed.

Lemma one_sound {R} ok s (k : mstate → option R) x :
  one ok s k = Some x →
  ∃ a t, rest s = a :: t ∧ ok a = true ∧ k (advance s a t) = Some x.
Proof.
  unfold one. destruct (rest s) as [|a t]; [done|].
  destruct (ok a) eqn:Hok; [|done]. intros Hk. by exists a, t.
Qed.

Lemma rep_sound {R} (P : mstate → mstate → Prop)
    (step : mstate → (mstate → option R) → option R) greedy :
  (∀ s k x, step s k = Some x → ∃ s', P s s' ∧ k s' = Some x) →
  ∀ n lo s k x,
    rep step greedy lo n s k = Some x →
    ∃ m s', (lo ≤ m)%nat ∧ (m ≤ n)%nat ∧ iter P m s s' ∧ k s' = Some x.
Proof.
  intros Hstep. induction n as [|n IH]; intros lo s k x Hr.
  - destruct lo; [|done]. simpl in Hr. exists 0%nat, s. by split_and!.
  - destruct lo as [|lo]; simpl in Hr.
    + assert (Hone : k s = Some x → ∃ m s', (0 ≤ m)%nat ∧ (m ≤ S n)%nat
                ∧ iter P m s s' ∧ k s' = Some x).
      { intros Hk. exists 0%nat, s. split_and!; [lia|lia|done|done]. }
      assert (Hmore :
        step s (λ s1, if (pos s1 =? pos s)%nat then None
                      else rep step greedy 0 n s1 k) = Some x →
        ∃ m s', (0 ≤ m)%nat ∧ (m ≤ S n)%nat ∧ iter P m s s' ∧ k s' = Some x).
      { intros Hs. apply Hstep in Hs as (s1 & HP & Hs1).
        destruct (pos s1 =? pos s)%nat; [done|].
        apply IH in Hs1 as (m & s' & _ & Hm & Hi & Hk).
        exists (S m), s'. split_and!; [lia|lia| |done]. by exists s1. }
      destruct greedy; apply orelse_Some in Hr as [?|?]; auto.
    + apply Hstep in Hr as (s1 & HP & Hs1).
      apply IH in Hs1 as (m & s' & Hlo & Hm & Hi & Hk).
      exists (S m), s'. split_and!; [lia|lia| |done]. by exists s1.
Qed.

Lemma run_sound {R} r : ∀ s (k : mstate → option R) x,
  run fl r s k = Some x → ∃ s', matches fl r s s' ∧ k s' = Some x.
Proof.
  induction r as [|c| |negated items|r1 IH1 r2 IH2|r1 IH1 r2 IH2
                  |greedy lo hi r1 IH1|i r1 IH1|i| | |];
    intros s k x Hr; simpl in Hr.
  - by exists s.
  - apply one_sound in Hr as (a & t & ? & ? & ?). eexists. split; [|done].
    by exists a, t.
  - apply one_sound in Hr as (a & t & ? & ? & ?). eexists. split; [|done].
    by exists a, t.
  - apply one_sound in Hr as (a & t & ? & ? & ?). eexists. split; [|done].
    by exists a, t.
  - apply IH1 in Hr as (s1 & H1 & Hr). apply IH2 in Hr as (s2 & H2 & Hk).
    exists s2. split; [by exists s1|done].
  - apply orelse_Some in Hr as [Hr|Hr].
    + apply IH1 in Hr as (s' & ? & ?). exists s'. split; [by left|done].
    + apply IH2 in Hr as (s' & ? & ?). exists s'. split; [by right|done].
  - apply (rep_sound (matches fl r1)) in Hr as (m & s' & Hlo & Hm & Hi & Hk);
      [|exact IH1].
    exists s'. split; [|done]. exists m. split_and!; [done| |done].
    by destruct hi.
  - apply IH1 in Hr as (s1 & H1 & Hk). eexists. split; [|exact Hk].
    by exists s1.
  - destruct (get_cap (caps s) i) as [v|] eqn:Hv; [|done].
    destruct (eat fl v s) as [s1|] eqn:He; [|done].
    exists s1. split; [by exists v|done].
  - destruct (at_bol fl s) eqn:H; [|done]. by exists s.
  - destruct (at_eol fl s) eqn:H; [|done]. by exists s.
  - destruct (at_word_boundary s) eqn:H; [|done]. by exists s.
Qed.

Lemma moved_refl s : moved s [] s.
Proof. split; simpl; [done|lia]. Qed.

Lemma moved_trans s w1 s1 w2 s2 :
  moved s w1 s1 → moved s1 w2 s2 → moved s (w1 ++ w2) s2.
Proof.
  intros [H1 H2] [H3 H4]. split.
  - by rewrite H1, H3, app_assoc.
  - rewrite H4, H2, length_app. lia.
Qed.

Lemma moved_advance s a t : rest s = a :: t → moved s [a] (advance s a t).
Proof. intros H. split; simpl; [done|lia]. Qed.

Lemma eat_moved v : ∀ s s', eat fl v s = Some s' →
  ∃ w, moved s w s' ∧ length w = length v ∧ caps s' = caps s
       ∧ Forall2 (λ c a, char_eq fl c a = true) v w.
Proof.
  induction v as [|c v IH]; intros s s' He; simpl in He.
  - injection He as <-. exists []. split_and!; [apply moved_refl|done..|constructor].
  - destruct (rest s) as [|a t] eqn:Hr; [done|].
    destruct (char_eq fl c a) eqn:Hc; [|done].
    apply IH in He as (w & Hm & Hl & Hcaps & Hf).
    exists (a :: w). split_and!.
    + apply (moved_trans s [a] (advance s a t) w s'); [|done].
      by apply moved_advance.
    + simpl. by rewrite Hl.
    + done.
    + by constructor.
Qed.

Lemma iter_moved (P : mstate → mstate → Prop) :
  (∀ s s', P s s' → ∃ w, moved s w s') →
  ∀ n s s', iter P n s s' → ∃ w, moved s w s'.
Proof.
  intros HP. induction n as [|n IH]; intros s s' Hi; simpl in Hi.
  - subst. exists []. apply moved_refl.
  - destruct Hi as (s1 & H1 & Hi). apply HP in H1 as [w1 H1].
    apply IH in Hi as [w2 H2]. exists (w1 ++ w2). by eapply moved_trans.
Qed.

Lemma matches_moved r : ∀ s s', matches fl r s s' → ∃ w, moved s w s'.
Proof.
  induction r as [|c| |negated items|r1 IH1 r2 IH2|r1 IH1 r2 IH2
                  |greedy lo hi r1 IH1|i r1 IH1|i| | |];
    intros s s' Hm; simpl in Hm.
  - subst. exists []. apply moved_refl.
  - destruct Hm as (a & t & Hr & _ & ->). exists [a]. by apply moved_advance.
  - destruct Hm as (a & t & Hr & _ & ->). exists [a]. by apply moved_advance.
  - destruct Hm as (a & t & Hr & _ & ->). exists [a]. by apply moved_advance.
  - destruct Hm as (s1 & H1 & H2). apply IH1 in H1 as [w1 H1].
    apply IH2 in H2 as [w2 H2]. exists (w1 ++ w2). by eapply moved_trans.
  - destruct Hm as [Hm|Hm]; [by apply IH1|by apply IH2].
  - destruct Hm as (n & _ & _ & Hi). by apply (iter_moved _ IH1) in Hi.
  - destruct Hm as (s1 & H1 & ->). apply IH1 in H1 as [w H1]. by exists w.
  - destruct Hm as (v & _ & He). apply eat_moved in He as (w & ? & _). by exists w.
  - destruct Hm as [_ ->]. exists []. apply moved_refl.
  - destruct Hm as [_ ->]. exists []. apply moved_refl.
  - destruct Hm as [_ ->]. exists []. apply moved_refl.
Qed.

Lemma attempt_sound r must_advance s m :
  attempt fl r must_advance s = Some m →
  ∃ s', matches fl r s s' ∧ m = mk_match s s'.
Proof.
  unfold attempt. intros Hr. apply run_sound in Hr as (s' & Hm & Hk).
  exists s'. split; [done|].
  destruct (must_advance && (pos s' =? pos s)%nat); [done|]. by injection Hk.
Qed.

Lemma search_at_sound r t : ∀ must_advance p pv m,
  search_at fl r must_advance p pv t = Some m →
  ∃ skipped t' pv' s',
    t = skipped ++ t'
    ∧ matches fl r (MState (p + length skipped) pv' t' []) s'
    ∧ m = mk_match (MState (p + length skipped) pv' t' []) s'.
Proof.
  induction t as [|a t IH]; intros must_advance p pv m Hs; simpl in Hs.
  - destruct (attempt fl r must_advance (MState p pv [] [])) as [m'|] eqn:Ha;
      [|done].
    injection Hs as ->. apply attempt_sound in Ha as (s' & Hm & ->).
    exists [], [], pv, s'. simpl. rewrite Nat.add_0_r. done.
  - destruct (attempt fl r must_advance (MState p pv (a :: t) [])) as [m'|] eqn:Ha.
    + injection Hs as ->. apply attempt_sound in Ha as (s' & Hm & ->).
      exists [], (a :: t), pv, s'. simpl. rewrite Nat.add_0_r. done.
    + apply IH in Hs as (skipped & t' & pv' & s' & -> & Hm & ->).
      exists (a :: skipped), t', pv', s'. simpl.
      replace (p + S (length skipped))%nat with (S p + length skipped)%nat by lia.
      done.
Qed.

Lemma scan_sound r fuel : ∀ must_advance p pv t m,
  m ∈ scan fl fuel r must_advance p pv t →
  ∃ skipped t' pv' s',
    t = skipped ++ t'
    ∧ matches fl r (MState (p + length skipped) pv' t' []) s'
    ∧ m = mk_match (MState (p + length skipped) pv' t' []) s'.
Proof.
  induction fuel as [|fuel IH]; intros must_advance p pv t m Hm; simpl in Hm.
  - by apply elem_of_nil in Hm.
  - destruct (search_at fl r must_advance p pv t) as [m0|] eqn:Hs;
      [|by apply elem_of_nil in Hm].
    apply elem_of_cons in Hm as [->|Hm].
    + by apply search_at_sound in Hs.
    + apply search_at_sound in Hs as (sk & t0 & pv0 & s0 & -> & Hm0 & ->).
      apply matches_moved in Hm0 as [w [Hw Hp]]. simpl in Hw, Hp.
      simpl in Hm. rewrite Hp in Hm.
      replace (p + length sk + length w - p)%nat
        with (length (sk ++ w)) in Hm by (rewrite length_app; lia).
      rewrite Hw, app_assoc, drop_app_length in Hm.
      apply IH in Hm as (sk' & t' & pv' & s' & Ht & Hm' & ->).
      exists ((sk ++ w) ++ sk'), t', pv', s'.
      replace (p + length ((sk ++ w) ++ sk'))%nat
        with (p + length sk + length w + length sk')%nat
        by (rewrite !length_app; lia).
      split_and!; [|done..]. rewrite Hw, Ht. by rewrite <- !app_assoc.
Qed.

Lemma finditer_sound r s m :
  m ∈ finditer fl r s → sound_match fl r s m.
Proof.
  unfold finditer. intros Hm.
  apply scan_sound in Hm as (before & t' & pv & st' & -> & Hm & ->).
  simpl in Hm. destruct (matches_moved _ _ _ Hm) as [w [Hw Hp]].
  simpl in Hw, Hp. subst t'.
  exists before, w, (rest st'), pv, st'. unfold mk_match. simpl.
  rewrite Hp. replace (length before + length w - length before)%nat
    with (length w) by lia.
  rewrite take_app_length. done.
Qed.

(** Patterns of one shape. *)

Lemma iter_dot_moved n : ∀ s s',
  iter (matches fl Dot) n s s' → ∃ w, moved s w s' ∧ length w = n.
Proof.
  induction n as [|n IH]; intros s s' Hi; simpl in Hi.
  - subst. exists []. split; [apply moved_refl|done].
  - destruct Hi as (s1 & (a & t & Hr & _ & ->) & Hi).
    apply IH in Hi as (w & Hw & Hl). exists (a :: w). split; [|simpl; lia].
    apply (moved_trans s [a] (advance s a t) w s'); [|done].
    by apply moved_advance.
Qed.

Lemma literal_moved v : ∀ s s',
  matches fl (literal v) s s' →
  ∃ w, moved s w s' ∧ Forall2 (λ c a, char_eq fl c a = true) v w.
Proof.
  induction v as [|c v IH]; intros s s' Hm.
  - simpl in Hm. subst. exists []. split; [apply moved_refl|constructor].
  - destruct Hm as (s1 & (a & t & Hr & Hc & ->) & Hm).
    apply IH in Hm as (w & Hw & Hf). exists (a :: w). split; [|by constructor].
    apply (moved_trans s [a] (advance s a t) w s'); [|done].
    by apply moved_advance.
Qed.
End Soundness.

(** *** Context windows *)

Section Contexts.
Import Py Re ReSpec.

Lemma char_eq_ignorecase v w :
  Forall2 (λ c a, char_eq IGNORECASE c a = true) v w → lower w = lower v.
Proof.
  induction 1 as [|c a v w Hc _ IH]; [done|].
  change (lower_char a :: lower w = lower_char c :: lower v).
  rewrite IH. f_equal.
  unfold char_eq in Hc. simpl in Hc. symmetry. by apply Ascii.eqb_eq.
Qed.

Lemma char_eq_ignorecase_dotall v w :
  Forall2 (λ c a, char_eq IGNORECASE_DOTALL c a = true) v w → lower w = lower v.
Proof.
  induction 1 as [|c a v w Hc _ IH]; [done|].
  change (lower_char a :: lower w = lower_char c :: lower v).
  rewrite IH. f_equal.
  unfold char_eq in Hc. simpl in Hc. symmetry. by apply Ascii.eqb_eq.
Qed.

(** A match of the context pattern: at most 100 characters, an occurrence
    of the indicator, at most 100 characters. *)
Lemma context_match_window indicator s m :
  m ∈ finditer IGNORECASE_DOTALL (AfdPattern.context_pattern indicator) s →
  ∃ before pre occ post after,
    s = before ++ pre ++ occ ++ post ++ after
    ∧ (length pre ≤ 100)%nat ∧ (length post ≤ 100)%nat
    ∧ lower occ = lower indicator
    ∧ m_group0 m = pre ++ occ ++ post.
Proof.
  intros Hm. apply finditer_sound in Hm
    as (before & w & after & pv & st' & -> & Hm & Hr & _ & _ & Hg & _).
  destruct Hm as (s1 & (n1 & _ & Hn1 & Hi1) & s2 & Hlit & s3
                  & (n3 & _ & Hn3 & Hi3) & Hs3).
  simpl in Hs3. subst s3.
  apply iter_dot_moved in Hi1 as (pre & [Hpre _] & Hlpre).
  apply literal_moved in Hlit as (occ & [Hocc _] & Hf).
  apply iter_dot_moved in Hi3 as (post & [Hpost _] & Hlpost).
  simpl in Hpre. rewrite Hocc, Hpost, Hr in Hpre.
  assert (w = pre ++ occ ++ post) as ->.
  { apply (app_inv_tail after). by rewrite Hpre, <- !app_assoc. }
  exists before, pre, occ, post, after.
  split_and!; [by rewrite <- !app_assoc|lia|lia| |done].
  by apply char_eq_ignorecase_dotall.
Qed.

(** A match of the keyword pattern is an occurrence of the keyword. *)
Lemma keyword_match_occurrence keyword s m :
  m ∈ finditer IGNORECASE (Governance.keyword_pattern keyword) s →
  ∃ before occ after,
    s = before ++ occ ++ after
    ∧ lower occ = lower keyword
    ∧ m_start m = length before
    ∧ m_end m = (length before + length occ)%nat.
Proof.
  intros Hm. apply finditer_sound in Hm
    as (before & w & after & pv & st' & -> & Hm & Hr & Hs & He & _ & _).
  destruct Hm as (s1 & [_ ->] & s2 & Hlit & s3 & [_ ->] & Hs3).
  simpl in Hs3. subst s2.
  apply literal_moved in Hlit as (occ & [Hocc _] & Hf).
  simpl in Hocc. rewrite Hr in Hocc. apply app_inv_tail in Hocc as ->.
  exists before, occ, after. split_and!; [done| |done|done].
  by apply char_eq_ignorecase.
Qed.
End Contexts.

Section ContextClaims.
Import Py Re ReSpec ContextSpec.

Lemma lstrip_length s : (length (lstrip s) ≤ length s)%nat.
Proof.
  induction s as [|c s IH]; simpl; [lia|]. destruct (is_space c); simpl; lia.
Qed.

Lemma strip_length s : (length (strip s) ≤ length s)%nat.
Proof.
  unfold strip, rstrip. rewrite length_reverse.
  etrans; [apply lstrip_length|]. rewrite length_reverse. apply lstrip_length.
Qed.

Lemma slice_length s a b : (length (slice s a b) ≤ b - a)%nat.
Proof. unfold slice. rewrite length_take. lia. Qed.

Lemma replace_newlines_clean s : newline ∉ replace_newlines s.
Proof.
  unfold replace_newlines. intros Hin.
  apply list_elem_of_fmap in Hin as (c & Hc & _).
  destruct (Ascii.eqb_spec c newline) as [Heq|Hne]; [done|]. by subst.
Qed.

Lemma scan_indicators_ok inds text :
  Forall (λ e, Forall (afd_context_ok text e) (AfdPattern.ie_examples e))
    (AfdPattern.scan_indicators inds text).
Proof.
  apply Forall_forall. intros e He.
  unfold AfdPattern.scan_indicators in He.
  apply list_elem_of_bind in He as (ind & He & _).
  unfold AfdPattern.scan_indicator in He.
  destruct (search _ _ _); [|by apply elem_of_nil in He].
  destruct (findall _ _ _) as [|m0 ms] eqn:Hf; [by apply elem_of_nil in He|].
  apply list_elem_of_singleton in He as ->. cbn [AfdPattern.ie_examples].
  apply Forall_forall. intros ex Hex.
  apply list_elem_of_fmap in Hex as (mt & -> & Hmt).
  apply elem_of_take in Hmt as (i & Hmt & _).
  apply list_elem_of_lookup_2 in Hmt. rewrite <- Hf in Hmt.
  unfold findall in Hmt. apply list_elem_of_fmap in Hmt as (mo & -> & Hm).
  apply context_match_window in Hm
    as (before & pre & occ & post & after & Ht & Hpre & Hpost & Hocc & Hg).
  split_and!.
  - rewrite length_take. lia.
  - intros Hin. apply elem_of_take in Hin as (j & Hin & _).
    apply list_elem_of_lookup_2 in Hin. by apply replace_newlines_clean in Hin.
  - exists before, pre, occ, post, after. rewrite Hg. done.
Qed.

Lemma mentions_in_ok kws current_section section_content :
  Forall (mention_ok section_content)
    (Governance.mentions_in kws current_section section_content).
Proof.
  apply Forall_forall. intros m Hm. unfold Governance.mentions_in in Hm.
  apply list_elem_of_bind in Hm as (kw & Hm & _).
  unfold Governance.keyword_mentions in Hm.
  apply list_elem_of_fmap in Hm as (mo & -> & Hmo).
  apply keyword_match_occurrence in Hmo
    as (before & occ & after & Hs & Hocc & Hst & Hen).
  assert (Hlen : length occ = length kw).
  { apply (f_equal length) in Hocc. unfold lower in Hocc.
    by rewrite !length_fmap in Hocc. }
  exists before, occ, after. unfold Governance.mention_of. simpl.
  rewrite Hst, Hen. split_and!; [done..| | |].
  - rewrite Hs, !length_app. lia.
  - done.
  - etrans; [apply strip_length|]. etrans; [apply slice_length|]. lia.
Qed.

Lemma visit_parts_mentions kws parts : ∀ w m,
  m ∈ Governance.w_mentions (foldl (Governance.visit_part kws) w parts) →
  m ∈ Governance.w_mentions w
  ∨ ∃ i part cur, (i, part) ∈ parts ∧ (i mod 2 = 0)%nat
                  ∧ m ∈ Governance.mentions_in kws cur part.
Proof.
  induction parts as [|[i part] parts IH]; intros w m Hm; [by left|].
  cbn [foldl] in Hm. apply IH in Hm as [Hm|(j & p & cur & Hin & Hj & Hm)].
  - unfold Governance.visit_part in Hm.
    destruct (Nat.eqb_spec (i mod 2) 0) as [Hi|Hi]; simpl in Hm; [|by left].
    apply elem_of_app in Hm as [Hm|Hm]; [by left|].
    right. exists i, part, (Governance.w_current_section w).
    split_and!; [apply list_elem_of_here|done|done].
  - right. exists j, p, cur. split_and!; [by apply list_elem_of_further|done..].
Qed.

(** C6 (as amended).  Every example that [analyze_afd_text] attaches to an
    indicator has at most 200 characters and no newline, and is the start
    of a window of the text holding an occurrence of the indicator with at
    most 100 characters on each side; no offset is recorded there.  Every
    mention of [extract_ai_references] records the offset of an occurrence
    of its keyword inside the section scanned; its context is that section
    from 100 characters before the occurrence to 100 after it, clipped to
    the section and stripped at both ends, so at most 200 characters more
    than the keyword; newlines inside it stay. *)
Theorem match_contexts_are_windows (inds kws : list text) (page article : text)
    (a : AfdPattern.analysis) (wikitext : option text)
    (Ha : AfdPattern.analyze_with inds (Some page) article = Some a) :
  Forall (λ e, Forall (afd_context_ok page e) (AfdPattern.ie_examples e))
    (AfdPattern.an_detection_indicators a)
  ∧ Forall (λ m, ∃ i section_content,
       split NOFLAGS Governance.section_split_pattern (default [] wikitext)
         !! (2 * i)%nat = Some section_content
       ∧ mention_ok section_content m)
      (Governance.ai_mentions (Governance.extract_with kws wikitext)).
Proof.
  split.
  - unfold AfdPattern.analyze_with in Ha. destruct page as [|c t]; [done|].
    injection Ha as <-. simpl. apply scan_indicators_ok.
  - unfold Governance.extract_with.
    destruct (default [] wikitext) as [|c t] eqn:Hw; [constructor|].
    cbn [Governance.ai_mentions]. apply Forall_forall. intros m Hm.
    apply visit_parts_mentions in Hm as [Hm|(i & part & cur & Hin & Hi & Hm)];
      [by apply elem_of_nil in Hm|].
    apply list_elem_of_lookup_1 in Hin as [j Hj].
    apply list_lookup_imap_Some in Hj as (part' & Hj & [= -> ->]).
    exists (j / 2)%nat, part'. split.
    + rewrite <- Hj. f_equal.
      pose proof (Nat.div_mod_eq j 2). lia.
    + pose proof (mentions_in_ok kws cur part') as Hok.
      rewrite Forall_forall in Hok. by apply Hok.
Qed.

Lemma match_contexts_witness :
  AfdPattern.analyze_with AfdPattern.indicators (Some (txt "GPT GPT")) (txt "A")
  = Some (AfdPattern.Analysis (txt "A") 7
            [AfdPattern.IndicatorEntry (txt "GPT") 1 [txt "GPT GPT"]] [] [] [] 0)
  ∧ Forall (λ e, Forall (afd_context_ok (txt "GPT GPT") e)
                   (AfdPattern.ie_examples e))
      [AfdPattern.IndicatorEntry (txt "GPT") 1 [txt "GPT GPT"]].
Proof.
  assert (Ha : AfdPattern.analyze_with AfdPattern.indicators
                 (Some (txt "GPT GPT")) (txt "A")
               = Some (AfdPattern.Analysis (txt "A") 7
                   [AfdPattern.IndicatorEntry (txt "GPT") 1 [txt "GPT GPT"]]
                   [] [] [] 0)).
  { vm_compute. reflexivity. }
  split; [exact Ha|].
  exact (proj1 (match_contexts_are_windows AfdPattern.indicators [] _ _ _ None Ha)).
Defined.

(** C6 as stated fails for [extract_ai_references]: the context of a mention
    keeps the newlines of the section. *)
Lemma governance_context_keeps_newlines :
  ∃ m, m ∈ Governance.ai_mentions
             (Governance.extract_ai_references (Some two_line_intro))
       ∧ newline ∈ Governance.mn_context m.
Proof.
  exists (Governance.Mention (txt "AI") (txt "Introduction") two_line_intro 6).
  split.
  - vm_compute. apply list_elem_of_here.
  - vm_compute. do 8 apply list_elem_of_further. apply list_elem_of_here.
Qed.
End ContextClaims.

(** *** Counters *)

Section Counters.
Import Py CounterSpec.
Context {K : Type} `{EqDecision K}.
Implicit Types (c : dict K Z) (k : K).

Lemma dict_get_set {V} k (v : V) (d : dict K V) k' :
  dict_get (dict_set k v d) k'
  = if decide (k = k') then Some v else dict_get d k'.
Proof.
  induction d as [|[k0 v0] d IH]; simpl.
  - destruct (decide (k = k')); done.
  - destruct (decide (k0 = k)) as [->|Hne]; simpl.
    + destruct (decide (k = k')); done.
    + destruct (decide (k0 = k')) as [->|]; [|done].
      by rewrite decide_False.
Qed.

Lemma count_of_add k n c k' :
  count_of (counter_add k n c) k'
  = if decide (k = k') then count_of c k + n else count_of c k'.
Proof.
  unfold count_of, counter_add. rewrite dict_get_set.
  by destruct (decide (k = k')).
Qed.

Lemma dict_get_Some_elem {V} (d : dict K V) k v :
  dict_get d k = Some v → (k, v) ∈ d.
Proof.
  induction d as [|[k0 v0] d IH]; simpl; [done|].
  destruct (decide (k0 = k)) as [->|]; intros Hd.
  - injection Hd as ->. apply list_elem_of_here.
  - apply list_elem_of_further. by apply IH.
Qed.

Lemma dict_get_None_keys {V} (d : dict K V) k :
  dict_get d k = None → k ∉ dict_keys d.
Proof.
  induction d as [|[k0 v0] d IH]; simpl; [intros _; apply not_elem_of_nil|].
  destruct (decide (k0 = k)) as [->|]; [done|]. intros Hd.
  apply not_elem_of_cons. split; [done|by apply IH].
Qed.

Lemma sum_values_set v c k :
  sum_values (dict_set k v c) = sum_values c - count_of c k + v.
Proof.
  unfold sum_values, dict_values, count_of.
  induction c as [|[k0 v0] c IH]; [simpl; lia|].
  cbn [dict_set dict_get].
  destruct (decide (k0 = k)) as [->|]; rewrite !fmap_cons; cbn [foldr snd];
    [unfold default, from_option, id|rewrite IH]; lia.
Qed.

Lemma sum_values_add k n c :
  sum_values (counter_add k n c) = sum_values c + n.
Proof. unfold counter_add. rewrite sum_values_set. unfold count_of. lia. Qed.

Lemma well_formed_nil : well_formed ([] : dict K Z).
Proof. split; [apply NoDup_nil_2|constructor]. Qed.

Lemma well_formed_count c k : well_formed c → 0 ≤ count_of c k.
Proof.
  intros [_ Hpos]. unfold count_of.
  destruct (dict_get c k) as [v|] eqn:Hk; simpl; [|lia].
  apply dict_get_Some_elem in Hk. rewrite Forall_forall in Hpos.
  specialize (Hpos _ Hk). simpl in Hpos. lia.
Qed.

Lemma dict_set_Forall {V} (P : K * V → Prop) k v (d : dict K V) :
  Forall P d → P (k, v) → Forall P (dict_set k v d).
Proof.
  intros Hd Hv. induction Hd as [|[k0 v0] d H0 Hd IH]; simpl.
  - by constructor.
  - destruct (decide (k0 = k)) as [->|]; constructor; auto.
Qed.

Lemma well_formed_add k n c :
  1 ≤ n → well_formed c → well_formed (counter_add k n c).
Proof.
  intros Hn Hc. pose proof (well_formed_count c k Hc) as H0.
  destruct Hc as [Hnd Hpos]. split.
  - unfold counter_add. rewrite dict_set_keys.
    destruct (decide (k ∈ dict_keys c)); [done|].
    apply NoDup_app. split_and!; [done| |apply NoDup_singleton].
    intros x Hx Hx'. apply list_elem_of_singleton in Hx' as ->. done.
  - unfold counter_add. apply dict_set_Forall; [done|].
    simpl. fold (count_of c k). lia.
Qed.

Lemma well_formed_sum c : well_formed c → Z.of_nat (length c) ≤ sum_values c.
Proof.
  intros [_ Hpos]. unfold sum_values, dict_values.
  induction Hpos as [|[k v] c Hv Hpos IH]; [simpl; lia|].
  rewrite fmap_cons. cbn [length foldr snd] in *. lia.
Qed.

Lemma counter_keys_add k n c x :
  x ∈ dict_keys (counter_add k n c) ↔ x = k ∨ x ∈ dict_keys c.
Proof.
  unfold counter_add. rewrite dict_set_keys.
  destruct (decide (k ∈ dict_keys c)) as [Hin|Hin].
  - split; [by right|]. intros [->|]; done.
  - rewrite elem_of_app, list_elem_of_singleton. tauto.
Qed.
End Counters.
(** *** The counters of the policy search and its report *)

Section PolicyCounts.
Import Py Re Net PolicyCitation CounterSpec CountsSpec.

Lemma upper_char_idemp c : upper_char (upper_char c) = upper_char c.
Proof.
  destruct c as [[] [] [] [] [] [] [] []]; vm_compute; reflexivity.
Qed.

Lemma upper_idemp s : upper (upper s) = upper s.
Proof.
  unfold upper. rewrite <- list_fmap_compose. apply list_fmap_ext.
  intros i c _. apply upper_char_idemp.
Qed.

Local Ltac fields :=
  cbn [all_policies ai_policies total_edits_checked edits_with_policies
       batches_processed] in *.

Lemma count_policy_ok r policy :
  counters_ok (all_policies r) (ai_policies r) →
  counters_ok (all_policies (count_policy r policy))
    (ai_policies (count_policy r policy))
  ∧ sum_values (all_policies (count_policy r policy))
    = sum_values (all_policies r) + 1
  ∧ total_edits_checked (count_policy r policy) = total_edits_checked r
  ∧ edits_with_policies (count_policy r policy) = edits_with_policies r.
Proof.
  intros (Hall & Hai & Hup & Hdom & Hsum).
  unfold count_policy. fields.
  split_and!; try done.
  - unfold counters_ok. split_and!.
    + by apply well_formed_add.
    + destruct (is_ai_policy policy); [by apply well_formed_add|done].
    + unfold counter_add. apply dict_set_Forall; [done|].
      apply upper_idemp.
    + intros k. rewrite count_of_add.
      destruct (is_ai_policy policy).
      * rewrite count_of_add. pose proof (Hdom (upper policy)).
        destruct (decide (upper policy = k)); [lia|apply Hdom].
      * destruct (decide (upper policy = k)) as [<-|]; [|apply Hdom].
        specialize (Hdom (upper policy)). lia.
    + rewrite sum_values_add.
      destruct (is_ai_policy policy); [rewrite sum_values_add|]; lia.
  - apply sum_values_add.
Qed.

Lemma count_policies_ok ps : ∀ r,
  counters_ok (all_policies r) (ai_policies r) →
  counters_ok (all_policies (foldl count_policy r ps))
    (ai_policies (foldl count_policy r ps))
  ∧ sum_values (all_policies (foldl count_policy r ps))
    = sum_values (all_policies r) + Z.of_nat (length ps)
  ∧ total_edits_checked (foldl count_policy r ps) = total_edits_checked r
  ∧ edits_with_policies (foldl count_policy r ps) = edits_with_policies r.
Proof.
  induction ps as [|p ps IH]; intros r Hr.
  - simpl. split_and!; [done|lia|done|done].
  - cbn [foldl length].
    destruct (count_policy_ok r p Hr) as (H1 & H2 & H3 & H4).
    destruct (IH _ H1) as (I1 & I2 & I3 & I4).
    split_and!; [done|lia|congruence|congruence].
Qed.

Lemma process_change_consistent r c :
  consistent_counts r → consistent_counts (process_change r c).
Proof.
  intros (Hok & Hed & Hcit & Hsome).
  assert (H1 : ∀ b, consistent_counts
            (Results (all_policies r) (ai_policies r)
               (total_edits_checked r + 1) (edits_with_policies r) b)).
  { intros b. unfold consistent_counts. fields. split_and!; try done; lia. }
  unfold process_change. fields.
  destruct (default [] (ch_comment c)) as [|a comment]; [apply H1|].
  destruct (findall IGNORECASE POLICY_PATTERN (a :: comment)) as [|p ps] eqn:Hf;
    [apply H1|].
  set (r1 := Results _ _ _ _ _).
  destruct (count_policies_ok (p :: ps) r1 Hok) as (I1 & I2 & I3 & I4).
  unfold consistent_counts. rewrite I2, I3, I4. unfold r1. fields.
  cbn [length]. split_and!; [done|lia|lia|lia|lia].
Qed.

Lemma process_changes_consistent cs : ∀ r,
  consistent_counts r → consistent_counts (foldl process_change r cs).
Proof.
  induction cs as [|c cs IH]; intros r Hr; simpl; [done|].
  apply IH. by apply process_change_consistent.
Qed.

Lemma consistent_counts_batches r b :
  consistent_counts r →
  consistent_counts (Results (all_policies r) (ai_policies r)
                       (total_edits_checked r) (edits_with_policies r) b).
Proof. done. Qed.

Lemma batches_consistent api max_batches : ∀ remaining st,
  consistent_counts (counts st) →
  consistent_counts (counts (batches api max_batches remaining st)).
Proof.
  induction remaining as [|remaining IH]; intros st Hst; simpl; [done|].
  pose proof (consistent_counts_batches _ (batches_processed (counts st) + 1) Hst)
    as Hst1.
  destruct (api _ _) as [e|data]; [done|].
  destruct (default [] (rc_changes data)) as [|c cs]; [done|].
  pose proof (process_changes_consistent (c :: cs) _ Hst1) as Hst2.
  destruct (rc_continue data) as [[token|]|]; [|done..].
  by apply IH.
Qed.

Lemma search_consistent api limit_per_batch max_batches :
  consistent_counts
    (counts (search_edit_summaries_2025 api limit_per_batch max_batches)).
Proof.
  apply batches_consistent. unfold consistent_counts, counters_ok. fields.
  split_and!; try apply well_formed_nil; try done.
Qed.
End PolicyCounts.
Section PolicyReport.
Import Py Re Net PolicyCitation CounterSpec CountsSpec.
#[local] Existing Instance io_ret.
#[local] Existing Instance io_bind.

Lemma dict_keys_get {K V} `{EqDecision K} (d : dict K V) k :
  k ∈ dict_keys d → ∃ v, dict_get d k = Some v ∧ (k, v) ∈ d.
Proof.
  induction d as [|[k0 v0] d IH]; simpl; [by intros ?%elem_of_nil|].
  intros Hk. destruct (decide (k0 = k)) as [->|Hne].
  - exists v0. split; [done|apply list_elem_of_here].
  - apply elem_of_cons in Hk as [->|Hk]; [done|].
    destruct (IH Hk) as (v & Hv & Hin). exists v.
    split; [done|by apply list_elem_of_further].
Qed.

Lemma completes_ret {A} (a : A) : completes (mret a).
Proof. by exists [], a. Qed.

Lemma completes_say l : completes (say l).
Proof. by exists [l], tt. Qed.

Lemma completes_bind {A B} (m : io A) (f : A → io B) :
  completes m → (∀ a, completes (f a)) → completes (m ≫= f).
Proof.
  intros (o & a & ->) Hf. destruct (Hf a) as (o' & b & Hb).
  exists (o ++ o'), b. unfold mbind, io_bind. by rewrite Hb.
Qed.

Lemma completes_truediv a b : b ≠ 0 → completes (truediv a b).
Proof.
  intros Hb. unfold truediv, div.
  apply Z.eqb_neq in Hb. rewrite Hb. by eexists [], _.
Qed.

Lemma completes_percent a b : b ≠ 0 → completes (percent_of a b).
Proof.
  intros Hb. unfold percent_of. apply completes_bind.
  - by apply completes_truediv.
  - intros q. apply completes_ret.
Qed.

Lemma completes_for_each {A} (l : list A) body :
  (∀ a, completes (body a)) → completes (for_each l body).
Proof.
  intros Hbody. induction l as [|a l IH]; simpl.
  - apply completes_ret.
  - apply completes_bind; [apply Hbody|by intros _].
Qed.

Lemma completes_not_raised {A} (m : io A) e : completes m → m.2 ≠ inl e.
Proof. by intros (o & a & ->). Qed.

(** The report on consistent counts: it ends in [ZeroDivisionError] when
    edits were checked and no policy was counted, and completes
    otherwise. *)
Lemma print_results_consistent r :
  consistent_counts r →
  (0 < total_edits_checked r ∧ all_policies r = [] →
   (print_results r).2 = inl ZeroDivisionError)
  ∧ (total_edits_checked r = 0 ∨ all_policies r ≠ [] →
     completes (print_results r)).
Proof.
  intros ((Hall & Hai & Hup & Hdom & Hsum) & Hed & Hcit & _).
  pose proof (well_formed_sum _ Hall) as Hlen.
  pose proof (well_formed_sum _ Hai) as Hlen_ai.
  split.
  - intros [Ht Hnil]. destruct r as [all ai t e b]. simpl in *. subst all.
    destruct ai as [|x ai]; [|simpl in *; unfold sum_values in *; simpl in *; lia].
    destruct t as [|t|t]; [lia| |lia]. reflexivity.
  - intros Hcase. unfold print_results. cbv zeta.
    apply completes_bind; [apply completes_say|intros _].
    apply completes_bind; [apply completes_say|intros _].
    destruct (0 <? total_edits_checked r) eqn:Ht.
    + apply Z.ltb_lt in Ht. destruct Hcase as [?|Hne]; [lia|].
      assert (Hpos : 0 < sum_values (all_policies r)).
      { destruct (all_policies r); [done|]. simpl in Hlen. lia. }
      apply completes_bind; [apply completes_percent; lia|intros p].
      apply completes_bind; [apply completes_say|intros _].
      apply completes_bind; [apply completes_say|intros _].
      apply completes_bind; [apply completes_say|intros _].
      apply completes_bind.
      { destruct (0 <? sum_values (all_policies r)); [|apply completes_ret].
        apply completes_bind; [apply completes_percent; lia|intros q].
        apply completes_say. }
      intros _.
      apply completes_bind; [apply completes_say|intros _].
      apply completes_bind.
      { apply completes_for_each. intros (i & policy & count).
        apply completes_bind; [apply completes_percent; lia|intros q].
        apply completes_say. }
      intros _.
      apply completes_bind.
      { destruct (ai_policies r) as [|x ai] eqn:Hai_eq; [apply completes_say|].
        apply completes_bind; [apply completes_say|intros _].
        assert (0 < sum_values (x :: ai)) by (simpl in Hlen_ai; lia).
        apply completes_for_each. intros (policy & count).
        apply completes_bind; [apply completes_percent; lia|intros q].
        apply completes_bind; [apply completes_percent; lia|intros q'].
        apply completes_say. }
      intros _.
      apply completes_bind; [apply completes_say|intros _].
      apply completes_bind; [apply completes_say|intros _].
      apply completes_bind; [apply completes_say|intros _].
      apply completes_bind.
      { apply completes_truediv. destruct (all_policies r); [done|]. simpl. lia. }
      intros avg.
      apply completes_bind; [apply completes_say|intros _].
      apply completes_say.
    + apply completes_bind; [apply completes_say|intros _].
      apply completes_say.
Qed.

(** [search_edit_summaries_2025] returns consistent counters: the keys of
    [all_policies] are distinct upper-case texts with counts of at least
    one, every policy of [ai_policies] is a policy of [all_policies] with
    at most the same count, and so are the totals. *)
Theorem search_counters_consistent
    (api : nat → rc_request → reply rc_data) (limit_per_batch max_batches : Z) :
  let r := counts (search_edit_summaries_2025 api limit_per_batch max_batches) in
  NoDup (dict_keys (all_policies r))
  ∧ NoDup (dict_keys (ai_policies r))
  ∧ Forall (λ kv, upper kv.1 = kv.1 ∧ 1 ≤ kv.2) (all_policies r)
  ∧ (∀ policy, policy ∈ dict_keys (ai_policies r) →
       policy ∈ dict_keys (all_policies r)
       ∧ 1 ≤ count_of (ai_policies r) policy ≤ count_of (all_policies r) policy)
  ∧ 0 ≤ sum_values (ai_policies r) ≤ sum_values (all_policies r).
Proof.
  intros r.
  destruct (search_consistent api limit_per_batch max_batches)
    as (((Hnd & Hpos) & (Hnd_ai & Hpos_ai) & Hup & Hdom & Hsum) & _).
  fold r in Hnd, Hpos, Hnd_ai, Hpos_ai, Hup, Hdom, Hsum.
  split_and!; try done.
  - rewrite Forall_forall in Hup, Hpos. apply Forall_forall. intros kv Hkv.
    split; [by apply Hup|by apply Hpos].
  - intros policy Hin.
    destruct (dict_keys_get _ _ Hin) as (v & Hv & Hkv).
    rewrite Forall_forall in Hpos_ai. pose proof (Hpos_ai _ Hkv) as Hv1.
    pose proof (Hdom policy) as Hle. unfold count_of in *. rewrite Hv in *.
    simpl in *. split; [|lia].
    destruct (dict_get (all_policies r) policy) as [v'|] eqn:Hv'; simpl in Hle;
      [|lia].
    apply dict_get_Some_elem in Hv'.
    apply list_elem_of_fmap. by exists (policy, v').
  - pose proof (well_formed_sum (ai_policies r) (conj Hnd_ai Hpos_ai)). lia.
Qed.

(** The edits counted by [search_edit_summaries_2025]: the edits with
    policies are among the edits checked, each of them gave at least one
    citation, and each distinct policy was cited at least once. *)
Theorem search_edit_counts_bounded
    (api : nat → rc_request → reply rc_data) (limit_per_batch max_batches : Z) :
  let r := counts (search_edit_summaries_2025 api limit_per_batch max_batches) in
  0 ≤ edits_with_policies r ≤ total_edits_checked r
  ∧ edits_with_policies r ≤ sum_values (all_policies r)
  ∧ Z.of_nat (length (all_policies r)) ≤ sum_values (all_policies r)
  ∧ (edits_with_policies r = 0 ↔ all_policies r = []).
Proof.
  intros r.
  destruct (search_consistent api limit_per_batch max_batches)
    as ((Hall & _) & Hed & Hcit & Hsome).
  fold r in Hall, Hed, Hcit, Hsome.
  pose proof (well_formed_sum _ Hall) as Hlen.
  split_and!; try done; try lia. split.
  - intros He. destruct (all_policies r); [done|]. simpl in Hlen. lia.
  - intros Hnil. rewrite Hnil in Hcit. unfold sum_values in Hcit. simpl in Hcit.
    lia.
Qed.

(** The report on the counts of a search ends in [ZeroDivisionError]
    exactly when edits were checked and none cited a policy; in every other
    case it completes. *)
Theorem report_raises_iff_no_citation
    (api : nat → rc_request → reply rc_data) (limit_per_batch max_batches : Z) :
  let r := counts (search_edit_summaries_2025 api limit_per_batch max_batches) in
  ((print_results r).2 = inl ZeroDivisionError
   ↔ 0 < total_edits_checked r ∧ all_policies r = [])
  ∧ (completes (print_results r)
     ↔ total_edits_checked r = 0 ∨ all_policies r ≠ []).
Proof.
  intros r.
  pose proof (search_consistent api limit_per_batch max_batches) as Hr.
  fold r in Hr.
  destruct (print_results_consistent r Hr) as [Hraise Hok].
  destruct Hr as (_ & Hed & _).
  assert (Hcases : (0 < total_edits_checked r ∧ all_policies r = [])
                   ∨ (total_edits_checked r = 0 ∨ all_policies r ≠ [])).
  { destruct (all_policies r); [|right; by right].
    destruct (decide (total_edits_checked r = 0)); [right; by left|left].
    split; [lia|done]. }
  split; split.
  - intros Hraised. destruct Hcases as [?|Hc]; [done|].
    exfalso. by eapply completes_not_raised; [apply Hok, Hc|].
  - apply Hraise.
  - intros Hc. destruct Hcases as [Hc'|?]; [|done].
    exfalso. by eapply completes_not_raised; [apply Hc|apply Hraise].
  - apply Hok.
Qed.
End PolicyReport.
(** *** What the section splitter keeps *)

Section SectionBodies.
Import Py Re Enforcement EnforcementSpec.

(** The text held by the loop: the bodies emitted so far, then the one
    being built. *)
Lemma parse_lines_bodies lines : ∀ sections current,
  let acc := foldl parse_line (sections, current) lines in
  (acc.1 ≫= content) ++ content acc.2
  = (sections ≫= content) ++ content current
    ++ join_lines (filter (λ line, ¬ is_heading line) lines)
  ∧ (length acc.1 ≤ length sections + length (filter is_heading lines))%nat.
Proof.
  induction lines as [|line lines IH]; intros sections current.
  - simpl. rewrite app_nil_r. split; [done|lia].
  - cbn [foldl]. cbv zeta.
    destruct (re_match NOFLAGS header_pattern line) as [m|] eqn:Hm.
    + assert (Hh : is_heading line) by (unfold is_heading; by rewrite Hm).
      assert (Hstep : parse_line (sections, current) line
                      = (if nonempty (content current)
                         then sections ++ [current] else sections,
                         MkSection (strip (group m 2)) []))
        by (unfold parse_line; by rewrite Hm).
      rewrite Hstep.
      rewrite filter_cons_False by (by intros Hn; apply Hn).
      rewrite (filter_cons_True is_heading) by done.
      destruct (IH (if nonempty (content current)
                    then sections ++ [current] else sections)
                  (MkSection (strip (group m 2)) [])) as [IH1 IH2].
      cbv zeta in IH1, IH2. split.
      * rewrite IH1. cbn [content]. rewrite app_nil_l.
        destruct (content current) as [|c t] eqn:Hc; cbn [nonempty].
        -- by rewrite app_nil_l.
        -- rewrite bind_app. cbn. rewrite Hc, app_nil_r.
           by rewrite <- !app_assoc.
      * etrans; [apply IH2|]. cbn [length].
        destruct (nonempty (content current)); [rewrite length_app; simpl|]; lia.
    + assert (Hh : ¬ is_heading line).
      { unfold is_heading. rewrite Hm. by intros [? ?]. }
      assert (Hstep : parse_line (sections, current) line
                      = (sections,
                         MkSection (title current)
                           (content current ++ line ++ [newline])))
        by (unfold parse_line; by rewrite Hm).
      rewrite Hstep.
      rewrite filter_cons_True by done.
      rewrite (filter_cons_False is_heading) by done.
      destruct (IH sections
                  (MkSection (title current)
                     (content current ++ line ++ [newline]))) as [IH1 IH2].
      cbv zeta in IH1, IH2. split; [|done].
      rewrite IH1. cbn [content]. rewrite join_lines_cons.
      rewrite <- !app_assoc. do 3 f_equal.
Qed.

(** [parse_talk_sections] loses no text: the bodies of the sections, one
    after the other, are the lines of the document that are not headings,
    in order, each with its newline; and there is at most one section more
    than there are heading lines. *)
Theorem sections_keep_every_body_line (doc : text) :
  parse_talk_sections doc ≫= content
  = join_lines (filter (λ line, ¬ is_heading line) (split_lines doc))
  ∧ (length (parse_talk_sections doc)
     ≤ S (length (filter is_heading (split_lines doc))))%nat.
Proof.
  unfold parse_talk_sections.
  destruct (parse_lines_bodies (split_lines doc) []
              (MkSection (txt "Introduction") [])) as [H1 H2].
  cbv zeta in H1, H2.
  destruct (foldl parse_line _ _) as [sections current].
  cbn [fst snd content] in H1, H2. simpl in H1.
  destruct (content current) as [|c t] eqn:Hc; cbn [nonempty].
  - rewrite app_nil_r in H1. split; [done|]. simpl in H2. lia.
  - split.
    + rewrite bind_app. cbn. by rewrite Hc, app_nil_r.
    + rewrite length_app. simpl in *. lia.
Qed.
End SectionBodies.
(** *** The frequency tables of the deletion discussions *)

Section Tables.
Import Py CounterSpec AfdPattern.

Lemma counter_add_NoDup {K} `{EqDecision K} (k : K) n (c : dict K Z) :
  NoDup (dict_keys c) → NoDup (dict_keys (counter_add k n c)).
Proof.
  intros Hnd. unfold counter_add. rewrite dict_set_keys.
  destruct (decide (k ∈ dict_keys c)); [done|].
  apply NoDup_app. split_and!; [done| |apply NoDup_singleton].
  by intros x Hx ->%list_elem_of_singleton.
Qed.

(** A counter filled in a loop: the total is the sum of what was added, the
    keys stay distinct and are the keys added. *)
Lemma counter_fold {K A} `{EqDecision K} (key : A → K) (val : A → Z) xs :
  ∀ c : dict K Z,
    NoDup (dict_keys c) →
    let c' := foldl (λ acc x, counter_add (key x) (val x) acc) c xs in
    sum_values c' = sum_values c + foldr Z.add 0 (val <$> xs)
    ∧ NoDup (dict_keys c')
    ∧ ∀ k, k ∈ dict_keys c' ↔ k ∈ dict_keys c ∨ k ∈ key <$> xs.
Proof.
  induction xs as [|x xs IH]; intros c Hc; cbv zeta.
  - simpl. split_and!; [lia|done|].
    intros k. rewrite elem_of_nil. tauto.
  - cbn [foldl]. destruct (IH (counter_add (key x) (val x) c)) as (I1 & I2 & I3).
    { by apply counter_add_NoDup. }
    cbv zeta in I1, I2, I3. split_and!; [|done|].
    + rewrite I1, sum_values_add, fmap_cons. cbn [foldr]. lia.
    + intros k. rewrite I3, counter_keys_add, fmap_cons, elem_of_cons. tauto.
Qed.

Lemma sum_values_perm {K} (c c' : dict K Z) :
  c ≡ₚ c' → sum_values c = sum_values c'.
Proof.
  unfold sum_values, dict_values.
  induction 1 as [|[k v] c c' _ IH|[k v] [k' v'] c|c c' c'' _ IH1 _ IH2];
    rewrite ?fmap_cons; cbn [foldr snd]; [done|rewrite IH| |congruence]; lia.
Qed.

Lemma sum_of_nat (ns : list nat) :
  foldr Z.add 0 (Z.of_nat <$> ns) = Z.of_nat (sum_list ns).
Proof.
  induction ns as [|n ns IH]; [done|].
  rewrite fmap_cons. cbn [foldr]. rewrite IH.
  change (sum_list (n :: ns)) with (n + sum_list ns)%nat. lia.
Qed.

Lemma sum_of_ones {A} (xs : list A) :
  foldr Z.add 0 ((λ _, 1) <$> xs) = Z.of_nat (length xs).
Proof.
  induction xs as [|x xs IH]; [done|].
  rewrite fmap_cons. cbn [foldr length]. rewrite IH. lia.
Qed.

(** [categorize_detection_patterns] loses no count: the indicator table
    sums to the counts of all indicator entries of the valid analyses, its
    keys are distinct and are the lower-cased indicators of those entries;
    the tool and outcome tables sum to the numbers of tools and outcomes
    recorded. *)
Theorem pattern_tables_keep_totals (all_analyses : list (option analysis)) :
  let p := categorize_detection_patterns all_analyses in
  let entries := omap id all_analyses ≫= an_detection_indicators in
  sum_values (p_indicators p) = Z.of_nat (sum_list (ie_count <$> entries))
  ∧ NoDup (dict_keys (p_indicators p))
  ∧ (∀ k, k ∈ dict_keys (p_indicators p)
          ↔ ∃ e, e ∈ entries ∧ k = lower (ie_indicator e))
  ∧ sum_values (p_tools p)
    = Z.of_nat (length (omap id all_analyses ≫= an_tools_mentioned))
  ∧ sum_values (p_outcomes p)
    = Z.of_nat (length (omap id all_analyses ≫= an_outcomes)).
Proof.
  intros p entries. unfold p, categorize_detection_patterns.
  cbn [p_indicators p_tools p_outcomes].
  unfold sorted_indicators, count_indicators, count_tools, count_outcomes.
  fold entries.
  destruct (counter_fold (λ e, lower (ie_indicator e))
              (λ e, Z.of_nat (ie_count e)) entries [] NoDup_nil_2)
    as (H1 & H2 & H3).
  cbv zeta in H1, H2, H3.
  pose proof (sorted_perm
    (foldl (λ acc e, counter_add (lower (ie_indicator e))
                       (Z.of_nat (ie_count e)) acc) [] entries)) as Hperm.
  split_and!.
  - rewrite (sum_values_perm _ _ Hperm), H1.
    rewrite (list_fmap_compose ie_count Z.of_nat), sum_of_nat.
    unfold sum_values. simpl. lia.
  - unfold dict_keys. by rewrite Hperm.
  - intros k. unfold dict_keys. rewrite Hperm. fold (dict_keys
      (foldl (λ acc e, counter_add (lower (ie_indicator e))
                         (Z.of_nat (ie_count e)) acc) [] entries)).
    rewrite H3, list_elem_of_fmap. rewrite elem_of_nil.
    split; [intros [[]|(e & -> & He)]; by exists e|intros (e & He & ->); right; by exists e].
  - destruct (counter_fold lower (λ _, 1)
                (omap id all_analyses ≫= an_tools_mentioned) []
                NoDup_nil_2) as (T1 & _).
    cbv zeta in T1. rewrite T1, sum_of_ones. unfold sum_values. simpl. lia.
  - destruct (counter_fold o_decision (λ _, 1)
                (omap id all_analyses ≫= an_outcomes) []
                NoDup_nil_2) as (T1 & _).
    cbv zeta in T1. rewrite T1, sum_of_ones. unfold sum_values. simpl. lia.
Qed.
End Tables.
(** *** Mentions and sections of a governance page *)

Section GovernanceSections.
Import Py Re Governance GovernanceSpec.

Lemma startswith_app p s : startswith p (p ++ s) = true.
Proof.
  induction p as [|a p IH]; simpl; [done|].
  by rewrite Ascii.eqb_refl, IH.
Qed.

Lemma contains_app p before after : contains p (before ++ p ++ after) = true.
Proof.
  induction before as [|a before IH]; simpl.
  - destruct (p ++ after) eqn:Hp; simpl; rewrite <- Hp, startswith_app; done.
  - rewrite IH. apply orb_true_r.
Qed.

Lemma lower_app s t : lower (s ++ t) = lower s ++ lower t.
Proof. apply fmap_app. Qed.

(** An occurrence found by the keyword pattern is also found by the
    substring test of the same section. *)
Lemma keyword_match_contains keyword s m :
  m ∈ finditer IGNORECASE (keyword_pattern keyword) s →
  contains (lower keyword) (lower s) = true.
Proof.
  intros Hm. apply keyword_match_occurrence in Hm
    as (before & occ & after & -> & Hocc & _).
  rewrite !lower_app, Hocc. apply contains_app.
Qed.

Lemma has_section_more kws sections more m :
  has_section kws sections m → has_section kws (sections ++ more) m.
Proof.
  intros (Hk & s & Hs & Ht & Hf). split; [done|]. exists s.
  split; [|done]. apply elem_of_app. by left.
Qed.

Lemma mentions_in_have_section kws cur part sections m :
  m ∈ mentions_in kws cur part →
  ∃ found, keywords_in kws part = found ∧ found ≠ []
    ∧ has_section kws (sections ++ [AiSection cur (take 1000 part) found]) m.
Proof.
  unfold mentions_in. intros (kw & Hm & Hkw)%list_elem_of_bind.
  unfold keyword_mentions in Hm.
  apply list_elem_of_fmap in Hm as (mo & -> & Hmo).
  apply keyword_match_contains in Hmo.
  assert (Hin : kw ∈ keywords_in kws part).
  { unfold keywords_in. apply list_elem_of_filter. split; [|done].
    by rewrite Hmo. }
  exists (keywords_in kws part). split; [done|]. split.
  { intros Hnil. rewrite Hnil in Hin. by apply elem_of_nil in Hin. }
  split; [done|]. exists (AiSection cur (take 1000 part) (keywords_in kws part)).
  split; [|done]. apply elem_of_app. right. apply list_elem_of_here.
Qed.

Lemma visit_parts_have_sections kws parts : ∀ w,
  Forall (has_section kws (w_sections w)) (w_mentions w) →
  Forall (section_ok kws) (w_sections w) →
  let w' := foldl (visit_part kws) w parts in
  Forall (has_section kws (w_sections w')) (w_mentions w')
  ∧ Forall (section_ok kws) (w_sections w').
Proof.
  induction parts as [|[i part] parts IH]; intros w Hw Hs; [done|].
  cbn [foldl]. apply IH.
  - unfold visit_part. destruct (i mod 2 =? 0)%nat; [|done].
    cbn [w_mentions w_sections]. apply Forall_app. split.
    + eapply Forall_impl; [exact Hw|]. intros m Hm.
      destruct (keywords_in kws part); [done|by apply has_section_more].
    + apply Forall_forall. intros m Hm.
      destruct (mentions_in_have_section kws _ _ (w_sections w) _ Hm)
        as (found & Hfound & Hne & Hhas).
      rewrite Hfound. by destruct found.
  - unfold visit_part. destruct (i mod 2 =? 0)%nat; [|done].
    cbn [w_sections].
    destruct (keywords_in kws part) as [|kw found] eqn:Hfound; [done|].
    apply Forall_app. split; [done|]. apply Forall_singleton.
    split_and!; cbn [as_content as_ai_keywords_found].
    + rewrite length_take. lia.
    + done.
    + rewrite <- Hfound. unfold keywords_in. apply sublist_filter.
Qed.

(** Every mention returned by [extract_ai_references] has its section on
    record: its keyword is one of the keywords, and [ai_sections] holds an
    entry with the mention's section title that lists the keyword.  (The
    converse fails: the substring test lists sections in which no whole
    word matches.)  This is for the texts of the conventions, with
    characters below U+0100: there a match of the keyword under
    [re.IGNORECASE] has the lower case of the keyword, which is what the
    substring test looks for.  A character from U+0100 on that matches a
    letter of the keyword has another lower case, and a section whose only
    occurrence is written with it gets a mention and no entry. *)
Theorem governance_mentions_have_sections (kws : list text)
    (wikitext : option text) :
  let refs := extract_with kws wikitext in
  Forall (has_section kws (ai_sections refs)) (ai_mentions refs)
  ∧ total_ai_references refs = length (ai_mentions refs)
  ∧ (ai_found refs = true ↔ ai_mentions refs ≠ [])
  ∧ (ai_mentions refs ≠ [] → ai_sections refs ≠ []).
Proof.
  intros refs.
  assert (H1 : Forall (has_section kws (ai_sections refs)) (ai_mentions refs)
               ∧ total_ai_references refs = length (ai_mentions refs)
               ∧ (ai_found refs = true ↔ ai_mentions refs ≠ [])).
  { unfold refs, extract_with.
    destruct (default [] wikitext) as [|c t]; [by split_and!|].
    cbn [ai_sections ai_mentions total_ai_references ai_found].
    split_and!; [|done|].
    - by apply (visit_parts_have_sections kws _ (Walk (txt "Introduction") [] [])).
    - rewrite bool_decide_eq_true.
      destruct (w_mentions _); simpl; split; (done || lia). }
  destruct H1 as (H1 & H2 & H3). split_and!; try done.
  intros Hne Hnil. destruct (ai_mentions refs) as [|m ms]; [done|].
  apply Forall_cons in H1 as [(_ & s & Hs & _) _].
  rewrite Hnil in Hs. by apply elem_of_nil in Hs.
Qed.

(** Every entry of [ai_sections] keeps at most 1000 characters of the
    section and lists at least one keyword, in the order of the keyword
    list. *)
Theorem governance_sections_bounded (kws : list text) (wikitext : option text) :
  Forall (λ s, (length (as_content s) ≤ 1000)%nat
               ∧ as_ai_keywords_found s ≠ []
               ∧ as_ai_keywords_found s `sublist_of` kws)
    (ai_sections (extract_with kws wikitext)).
Proof.
  unfold extract_with.
  destruct (default [] wikitext) as [|c t]; [constructor|].
  cbn [ai_sections].
  by apply (visit_parts_have_sections kws _ (Walk (txt "Introduction") [] [])).
Qed.
End GovernanceSections.

(** *** Threads of a discussion page *)

Section Threads.
Import Py Re Discussions DiscussionSpec.

Lemma thread_at_ok kws section_title comments i :
  Forall (thread_ok kws) (thread_at kws section_title comments i).
Proof.
  unfold thread_at. set (comment_text := strip _).
  destruct (50 <? length comment_text)%nat eqn:Hlen; [|constructor].
  apply Nat.ltb_lt in Hlen.
  destruct (filter _ kws) as [|kw found] eqn:Hfound; [constructor|].
  apply Forall_singleton. unfold thread_ok.
  cbn [th_estimated_length th_comment_preview th_ai_keywords].
  split_and!; [done| | |done|rewrite <- Hfound; apply sublist_filter].
  - destruct (300 <? length comment_text)%nat eqn:Hlong.
    + rewrite length_app, length_take.
      change (length (txt "...")) with 3%nat. lia.
    + apply Nat.ltb_ge in Hlong. lia.
  - destruct (300 <? length comment_text)%nat eqn:Hlong; [|done].
    apply Nat.ltb_lt in Hlong. exists (take 300 comment_text).
    split; [|done]. rewrite length_take. lia.
Qed.

Lemma threads_ok kws section_content section_title :
  Forall (thread_ok kws)
    (extract_discussion_threads kws section_content section_title).
Proof.
  unfold extract_discussion_threads. apply Forall_forall.
  intros t (i & Ht & _)%list_elem_of_bind.
  pose proof (thread_at_ok kws section_title
                (split NOFLAGS signature_pattern section_content) i) as Hok.
  rewrite Forall_forall in Hok. by apply Hok.
Qed.

Lemma visit_parts_threads kws parts : ∀ acc,
  Forall (thread_ok kws) acc.2 →
  Forall (thread_ok kws) (foldl (visit_part kws) acc parts).2.
Proof.
  induction parts as [|[i part] parts IH]; intros [cur ds] Hacc; [done|].
  cbn [foldl]. apply IH. unfold visit_part.
  destruct (i mod 2 =? 0)%nat; [|done].
  destruct (existsb _ kws); [|done].
  cbn [snd] in *. apply Forall_app. split; [done|apply threads_ok].
Qed.

(** Every thread returned by [extract_ai_discussions] stands for a comment
    of more than 50 characters; its preview has at most 303 characters and
    is the whole comment when that has at most 300, else its first 300
    characters followed by an ellipsis; and it lists at least one keyword,
    in the order of the keyword list. *)
Theorem discussion_threads_bounded (kws : list text) (content : option text) :
  Forall (λ t, (50 < th_estimated_length t)%nat
               ∧ (length (th_comment_preview t) ≤ 303)%nat
               ∧ (if (300 <? th_estimated_length t)%nat
                  then ∃ head, length head = 300%nat
                               ∧ th_comment_preview t = head ++ txt "..."
                  else length (th_comment_preview t) = th_estimated_length t)
               ∧ th_ai_keywords t ≠ []
               ∧ th_ai_keywords t `sublist_of` kws)
    (extract_with kws content).
Proof.
  unfold extract_with. destruct content as [[|c t]|]; [constructor| |constructor].
  by apply (visit_parts_threads kws _ (txt "Introduction", [])).
Qed.
End Threads.
(** *** The statistics of the Eclipse projects *)

Section EclipseStatistics.
Import Py CounterSpec Eclipse.

Lemma count_of_le_sum {K} `{EqDecision K} (c : dict K Z) k :
  Forall (λ kv, 0 ≤ kv.2) c → 0 ≤ count_of c k ≤ sum_values c.
Proof.
  unfold count_of, sum_values, dict_values.
  induction 1 as [|[k0 v0] c Hv Hc IH]; [simpl; lia|].
  rewrite fmap_cons. cbn [foldr snd dict_get] in *.
  destruct (decide (k0 = k)); [|lia].
  unfold default, from_option, id. lia.
Qed.

Lemma counter_fold_positive {K A} `{EqDecision K} (key : A → K) xs :
  ∀ c : dict K Z,
    well_formed c →
    well_formed (foldl (λ acc x, counter_add (key x) 1 acc) c xs).
Proof.
  induction xs as [|x xs IH]; intros c Hc; [done|].
  cbn [foldl]. apply IH. by apply well_formed_add.
Qed.

Lemma counter_total (xs : list text) :
  sum_values (counter xs) = Z.of_nat (length xs)
  ∧ Forall (λ kv, 0 ≤ kv.2) (counter xs).
Proof.
  unfold counter. split.
  - destruct (counter_fold (λ x : text, x) (λ _, 1) xs [] NoDup_nil_2)
      as (H1 & _).
    cbv zeta in H1. rewrite H1, sum_of_ones. unfold sum_values. simpl. lia.
  - destruct (counter_fold_positive (λ x : text, x) xs [] well_formed_nil)
      as [_ Hpos].
    eapply Forall_impl; [exact Hpos|]. intros kv Hkv. simpl in *. lia.
Qed.

Lemma count_if_bounded cond projects :
  0 ≤ count_if cond projects ≤ Z.of_nat (length projects).
Proof.
  unfold count_if. pose proof (length_filter (λ p, cond p = true) projects). lia.
Qed.

Lemma rate_bounded (count total : Z) :
  0 ≤ count ≤ total → 0 < total →
  ∃ q, rate count total = inr q ∧ (0 <= q)%Q ∧ (q <= 100)%Q.
Proof.
  intros Hc Ht. unfold rate, div.
  destruct total as [|p|p]; [lia| |lia].
  cbn [Z.eqb]. eexists. split; [done|].
  unfold Qle, Qdiv, Qinv, inject_Z. cbn [Qnum Qden].
  unfold Qmult. cbn [Qnum Qden].
  rewrite !Pos.mul_1_l, !Pos.mul_1_r, !Z.mul_1_r. split; lia.
Qed.

Lemma most_common_length {K} n (c : dict K Z) :
  (length (most_common (Some n) c) ≤ n)%nat.
Proof. unfold most_common. rewrite length_take. lia. Qed.

(** [generate_statistics] on any project list: the empty dictionary for no
    projects and never an exception; else the platform and state tables
    each sum to the number of projects, the two counts are between 0 and
    that number, the three rates are between 0 and 100, and the category
    and organisation tables have at most ten entries. *)
Theorem eclipse_statistics_bounded (projects : list project) :
  match generate_statistics projects with
  | inl _ => False
  | inr None => projects = []
  | inr (Some s) =>
      projects ≠ []
      ∧ total_projects s = length projects
      ∧ sum_values (platform_distribution s) = Z.of_nat (length projects)
      ∧ sum_values (project_states s) = Z.of_nat (length projects)
      ∧ 0 ≤ projects_with_github_issues s ≤ Z.of_nat (length projects)
      ∧ 0 ≤ projects_with_mailing_lists s ≤ Z.of_nat (length projects)
      ∧ (0 <= github_adoption_rate s)%Q ∧ (github_adoption_rate s <= 100)%Q
      ∧ (0 <= github_issues_adoption s)%Q ∧ (github_issues_adoption s <= 100)%Q
      ∧ (0 <= mailing_list_usage s)%Q ∧ (mailing_list_usage s <= 100)%Q
      ∧ (length (project_categories s) ≤ 10)%nat
      ∧ (length (top_github_organizations s) ≤ 10)%nat
  end.
Proof.
  destruct projects as [|p ps]; [done|].
  set (projects := p :: ps).
  assert (Hpos : 0 < Z.of_nat (length projects)) by (simpl; lia).
  destruct (counter_total (repository_platform <$> projects)) as [Hsum Hnn].
  rewrite length_fmap in Hsum.
  pose proof (count_of_le_sum _ (txt "GitHub") Hnn) as Hgh.
  rewrite Hsum in Hgh.
  destruct (rate_bounded _ _ Hgh Hpos) as (r1 & Hr1 & Hr1a & Hr1b).
  destruct (rate_bounded _ _ (count_if_bounded github_issues projects) Hpos)
    as (r2 & Hr2 & Hr2a & Hr2b).
  destruct (rate_bounded _ _
              (count_if_bounded
                 (λ p, match mailing_lists p with [] => false | _ => true end)
                 projects) Hpos)
    as (r3 & Hr3 & Hr3a & Hr3b).
  unfold generate_statistics. fold projects. unfold count_of in Hr1.
  cbv zeta. rewrite Hr1, Hr2, Hr3.
  cbn [total_projects platform_distribution project_states
       projects_with_github_issues projects_with_mailing_lists
       github_adoption_rate github_issues_adoption mailing_list_usage
       project_categories top_github_organizations].
  split_and!; try done.
  - destruct (counter_total (state <$> projects)) as [Hs _].
    by rewrite length_fmap in Hs.
  - apply count_if_bounded.
  - apply count_if_bounded.
  - apply count_if_bounded.
  - apply count_if_bounded.
  - apply most_common_length.
  - apply most_common_length.
Qed.
End EclipseStatistics.
(** *** What an analysis of a deletion discussion holds *)

Section Captures.
Import Py Re ReSpec CaptureSpec.
Variable fl : flags.

Local Open Scope nat_scope.




Lemma moved_inj s w1 w2 s' : moved s w1 s' → moved s w2 s' → w1 = w2.
Proof.
  intros [Hr1 Hp1] [Hr2 Hp2]. rewrite Hr1 in Hr2.
  apply app_inj_1 in Hr2 as [? _]; [done|lia].
Qed.



End Captures.
Section AfdAnalysis.
Import Py Re ReSpec CaptureSpec AfdPattern AfdAnalysisSpec.

Local Open Scope nat_scope.


Lemma elem_of_lstrip x s : x ∈ lstrip s → x ∈ s.
Proof.
  induction s as [|c s IH]; simpl; [done|].
  destruct (is_space c); [|done]. intros Hx. apply list_elem_of_further. auto.
Qed.

Lemma elem_of_strip x s : x ∈ strip s → x ∈ s.
Proof.
  unfold strip, rstrip. rewrite elem_of_reverse. intros Hx.
  apply elem_of_lstrip in Hx. rewrite elem_of_reverse in Hx.
  by apply elem_of_lstrip.
Qed.




Lemma bind_length_le {A B} (f : A → list B) (l : list A) :
  (∀ a, length (f a) ≤ 1) → length (l ≫= f) ≤ length l.
Proof.
  intros Hf. induction l as [|a l IH]; [done|].
  cbn [mbind list_bind]. rewrite length_app. specialize (Hf a). simpl. lia.
Qed.

Lemma search_finditer_nonempty fl r s m :
  search fl r s = Some m → finditer fl r s ≠ [].
Proof.
  unfold search, finditer. intros Hs.
  replace (2 * length s + 2) with (S (2 * length s + 1)) by lia.
  cbn [scan]. by rewrite Hs.
Qed.



End AfdAnalysis.

(** *** The statistics of the deletion discussions *)

Section AfdStatistics.
Import Py Re Net AfdPattern AfdMain.

Lemma analyze_one_None papi i afd :
  analyze_one papi i afd = None
  ↔ default [] (fetch_afd_full_text (papi i (d_title afd))) = [].
Proof.
  unfold analyze_one, analyze_afd_text, analyze_with.
  destruct (fetch_afd_full_text _) as [[|c t]|]; simpl; split; done.
Qed.

Lemma omap_id_nil {A} (l : list (option A)) :
  omap id l = [] ↔ Forall (λ x, x = None) l.
Proof.
  induction l as [|[a|] l IH]; simpl.
  - split; [constructor|done].
  - split; [done|]. by intros [? _]%Forall_cons.
  - rewrite IH. split; [by constructor|by intros [_ ?]%Forall_cons].
Qed.

Lemma omap_length_le {A B} (f : A → option B) (l : list A) :
  (length (omap f l) ≤ length l)%nat.
Proof.
  induction l as [|a l IH]; [done|].
  change (omap f (a :: l))
    with (match f a with Some b => b :: omap f l | None => omap f l end).
  destruct (f a); cbn [length]; lia.
Qed.

Lemma print_statistics_raises all_analyses :
  (print_statistics all_analyses).2 = inl ZeroDivisionError
  ↔ omap id all_analyses = [].
Proof.
  unfold print_statistics, div. cbv zeta.
  destruct (omap id all_analyses) as [|a valid]; [done|].
  replace (Z.of_nat (length (a :: valid)) =? 0) with false; [done|].
  symmetry. apply Z.eqb_neq. simpl. lia.
Qed.

(** [main] divides the voters by the number of analyses without a guard:
    it ends in [ZeroDivisionError] exactly when none of the first thirty
    discussions found gave a non-empty text, so in particular when the
    search found nothing; otherwise it analyzed at least one discussion. *)
Theorem afd_main_raises_iff_no_text
    (sapi : nat → text → reply search_data)
    (papi : nat → text → reply parse_data) :
  let afd_list := (get_afd_discussions_ai sapi 50).1 in
  ((main sapi papi).2 = inl ZeroDivisionError
   ↔ ∀ (i : nat) afd, (i < 30)%nat → afd_list !! i = Some afd →
       default [] (fetch_afd_full_text (papi i (d_title afd))) = [])
  ∧ (afd_list = [] → (main sapi papi).2 = inl ZeroDivisionError)
  ∧ (∀ s, (main sapi papi).2 = inr s →
       (1 ≤ total_analyzed s ≤ 30)%nat
       ∧ (total_analyzed s ≤ length afd_list)%nat).
Proof.
  intros afd_list.
  assert (Hiff : (main sapi papi).2 = inl ZeroDivisionError
            ↔ ∀ (i : nat) afd, (i < 30)%nat → afd_list !! i = Some afd →
                default [] (fetch_afd_full_text (papi i (d_title afd))) = []).
  { unfold main. fold afd_list. rewrite print_statistics_raises, omap_id_nil.
    unfold analyze_all. rewrite Forall_forall. split.
    - intros Hall i afd Hi Hafd. apply analyze_one_None. apply Hall.
      apply list_elem_of_lookup. exists i. rewrite list_lookup_imap.
      rewrite lookup_take_lt by done. by rewrite Hafd.
    - intros Hall x Hx. apply list_elem_of_lookup in Hx as [i Hi].
      apply list_lookup_imap_Some in Hi as (afd & Hafd & ->).
      apply lookup_take_Some in Hafd as [Hafd Hi].
      apply analyze_one_None. by apply Hall. }
  split_and!; [done| |].
  - intros Hnil. apply Hiff. intros i afd _. by rewrite Hnil.
  - intros s. unfold main. fold afd_list. unfold print_statistics, div.
    cbv zeta.
    assert (Hlen : (length (omap id (analyze_all papi afd_list))
                    ≤ 30 `min` length afd_list)%nat).
    { etrans; [apply omap_length_le|]. unfold analyze_all.
      rewrite length_imap, length_take. lia. }
    destruct (omap id (analyze_all papi afd_list)) as [|a valid]; [done|].
    replace (Z.of_nat (length (a :: valid)) =? 0) with false
      by (symmetry; apply Z.eqb_neq; simpl; lia).
    intros [= <-]. cbn [total_analyzed length] in *. lia.
Qed.
End AfdStatistics.
(** *** Joining and splitting *)

Section JoinSplit.
Import Py PyStr.
Variables (sep0 : ascii) (sep' : text).

Lemma split_from_nil fuel piece : split_from fuel (sep0 :: sep') piece [] = [piece].
Proof. destruct fuel; simpl; by rewrite app_nil_r. Qed.

Lemma split_from_piece x : ∀ fuel piece s,
  sep0 ∉ x → (length x ≤ fuel)%nat →
  split_from fuel (sep0 :: sep') piece (x ++ s)
  = split_from (fuel - length x) (sep0 :: sep') (piece ++ x) s.
Proof.
  induction x as [|c x IH]; intros fuel piece s Hx Hfuel.
  - simpl. by rewrite Nat.sub_0_r, app_nil_r.
  - apply not_elem_of_cons in Hx as [Hc Hx].
    destruct fuel as [|fuel]; [simpl in Hfuel; lia|].
    cbn [app split_from startswith length].
    replace (Ascii.eqb sep0 c) with false
      by (symmetry; apply Ascii.eqb_neq; congruence).
    cbn [andb]. rewrite IH by (simpl in Hfuel; done || lia).
    rewrite <- app_assoc. done.
Qed.

Lemma split_from_sep fuel piece s :
  split_from (S fuel) (sep0 :: sep') piece ((sep0 :: sep') ++ s)
  = piece :: split_from fuel (sep0 :: sep') [] s.
Proof.
  cbn [app split_from]. change (sep0 :: sep' ++ s) with ((sep0 :: sep') ++ s).
  rewrite startswith_app. by rewrite drop_app_length.
Qed.

Lemma length_join_cons x y l :
  length (join (sep0 :: sep') (x :: y :: l))
  = (length x + S (length sep') + length (join (sep0 :: sep') (y :: l)))%nat.
Proof. cbn [join]. rewrite !length_app. simpl. lia. Qed.

Lemma split_from_join l : ∀ fuel piece x,
  Forall (λ y, sep0 ∉ y) (x :: l) →
  (length (join (sep0 :: sep') (x :: l)) ≤ fuel)%nat →
  split_from fuel (sep0 :: sep') piece (join (sep0 :: sep') (x :: l)) = (piece ++ x) :: l.
Proof.
  induction l as [|y l IH]; intros fuel piece x Hall Hfuel.
  - apply Forall_cons in Hall as [Hx _]. cbn [join] in *.
    rewrite <- (app_nil_r x) at 1. rewrite split_from_piece by done.
    apply split_from_nil.
  - apply Forall_cons in Hall as [Hx Hall].
    rewrite length_join_cons in Hfuel.
    change (join (sep0 :: sep') (x :: y :: l)) with (x ++ (sep0 :: sep') ++ join (sep0 :: sep') (y :: l)).
    rewrite split_from_piece by (done || lia).
    replace (fuel - length x)%nat with (S (fuel - length x - 1)) by lia.
    rewrite split_from_sep. f_equal.
    rewrite IH by (done || lia). done.
Qed.

(** Splitting what was joined gives the list back, when the list is not
    empty and no element holds the first character of the separator. *)
Lemma split_join l :
  l ≠ [] → Forall (λ y, sep0 ∉ y) l → split (sep0 :: sep') (join (sep0 :: sep') l) = l.
Proof.
  destruct l as [|x l]; [done|]. intros _ Hall.
  unfold split. by rewrite split_from_join.
Qed.

Lemma head_join c l :
  l ≠ [] → Forall (λ y, head y = Some c) l → head (join (sep0 :: sep') l) = Some c.
Proof.
  destruct l as [|x l]; [done|]. intros _ [Hx _]%Forall_cons.
  destruct x as [|c' x]; [done|]. by destruct l.
Qed.
End JoinSplit.

(** *** Edits and talk pages of the enforcement sample *)

Section EnforcementEdits.
Import Py Re Net PyStr Enforcement EnforcementAnalyzer.

Lemma sublist_fmap {A B} (f : A → B) (l1 l2 : list A) :
  l1 `sublist_of` l2 → f <$> l1 `sublist_of` f <$> l2.
Proof.
  induction 1; rewrite ?fmap_cons;
    [constructor|by apply sublist_skip|by apply sublist_cons].
Qed.

Lemma policy_names_plain :
  Forall (λ name, head name = Some "W"%char ∧ (","%char ∉ name))
    policy_patterns.*1.
Proof.
  repeat (apply Forall_cons; split;
    [split; [reflexivity|];
     intros Hin; repeat (apply elem_of_cons in Hin as [Hin|Hin]; [discriminate Hin|]);
     by apply elem_of_nil in Hin|]).
  constructor.
Qed.

Lemma policy_mentions_sublist text :
  extract_policy_mentions text `sublist_of` policy_patterns.*1.
Proof. unfold extract_policy_mentions. apply sublist_fmap, sublist_filter. Qed.

Lemma policy_mentions_plain text :
  Forall (λ name, head name = Some "W"%char ∧ (","%char ∉ name))
    (extract_policy_mentions text).
Proof.
  apply Forall_forall. intros name Hin.
  pose proof policy_names_plain as Hall. rewrite Forall_forall in Hall.
  apply Hall. eapply elem_of_sublist; [exact Hin|apply policy_mentions_sublist].
Qed.

Lemma policies_cited_split text :
  let policies := extract_policy_mentions text in
  (policies_cited_of policies = txt "None" ↔ policies = [])
  ∧ (policies ≠ [] → split (txt ", ") (policies_cited_of policies) = policies).
Proof.
  intros policies. pose proof (policy_mentions_plain text) as Hplain.
  fold policies in Hplain. destruct policies as [|p ps] eqn:Hp; [done|].
  split.
  - split; [|done]. intros Hnone.
    assert (Hh : head (policies_cited_of (p :: ps)) = Some "W"%char).
    { apply (head_join ","%char (txt " ") "W"%char (p :: ps)); [done|].
      eapply Forall_impl; [exact Hplain|]. by intros ? [? _]. }
    rewrite Hnone in Hh. done.
  - intros _. apply (split_join ","%char (txt " ") (p :: ps)); [done|].
    eapply Forall_impl; [exact Hplain|]. by intros ? [_ ?].
Qed.

Lemma count_field_mentions acc text :
  count_field acc (policies_cited_of (extract_policy_mentions text))
  = foldl (λ acc policy, counter_add policy 1%Z acc) acc
      (extract_policy_mentions text).
Proof.
  destruct (policies_cited_split text) as [Hnone Hsplit]. cbv zeta in *.
  unfold count_field.
  destruct (decide (policies_cited_of (extract_policy_mentions text) = txt "None"))
    as [Heq|Hne].
  - apply Hnone in Heq. by rewrite Heq.
  - rewrite Hsplit; [done|]. intros Hnil. apply Hne. by apply Hnone.
Qed.

(** The [policies_cited] field can be read back: the policies found in a
    text are a duplicate-free part of the policy table, in its order; the
    field is ['None'] exactly when there are none, and otherwise splits
    into the policies found; so the policy table of [generate_statistics]
    counts each policy once for every text that mentions it. *)
Theorem policies_cited_round_trip (text : Py.text) (texts : list Py.text) :
  let policies := extract_policy_mentions text in
  policies `sublist_of` policy_patterns.*1
  ∧ NoDup policies
  ∧ (policies_cited_of policies = txt "None" ↔ policies = [])
  ∧ (policies ≠ [] → split (txt ", ") (policies_cited_of policies) = policies)
  ∧ policy_counts ((λ t, policies_cited_of (extract_policy_mentions t)) <$> texts)
    = foldl (λ acc policy, counter_add policy 1%Z acc) []
        (texts ≫= extract_policy_mentions).
Proof.
  intros policies. destruct (policies_cited_split text) as [Hnone Hsplit].
  split_and!; [apply policy_mentions_sublist| |done|done|].
  - eapply sublist_NoDup; [|apply policy_mentions_sublist].
    apply (bool_decide_unpack _). vm_compute. exact I.
  - unfold policy_counts. generalize ([] : dict Py.text Z).
    induction texts as [|t texts IH]; intros acc; [done|].
    rewrite fmap_cons. cbn [foldl mbind list_bind].
    rewrite foldl_app, count_field_mentions. apply IH.
Qed.
End EnforcementEdits.
Section EnforcementHistory.
Import Py Re Net PyStr Enforcement EnforcementAnalyzer EditSpec.

Lemma ai_revisions_cons rev revs :
  ai_revisions (rev :: revs)
  = if mentions_ai rev then rev :: ai_revisions revs else ai_revisions revs.
Proof.
  unfold ai_revisions. rewrite filter_cons.
  destruct (mentions_ai rev); by destruct (decide _).
Qed.

Lemma edit_of_spec article_title rev :
  match edit_of article_title rev with
  | Some [] => mentions_ai rev = false
  | Some [e] =>
      mentions_ai rev = true ∧ complete rev = true
      ∧ e_edit_summary e = default [] (rv_comment rev)
      ∧ edit_ok article_title e
  | Some _ => False
  | None => mentions_ai rev = true ∧ complete rev = false
  end.
Proof.
  unfold edit_of, mentions_ai, complete.
  destruct (ai_search (default [] (rv_comment rev))) as [m|] eqn:Hs;
    [|apply bool_decide_eq_false_2; by intros [? ?]].
  assert (Hm : bool_decide (is_Some (Some m)) = true)
    by (apply bool_decide_eq_true_2; by eexists).
  destruct (rv_timestamp rev) as [ts|]; cbn [mbind option_bind];
    [|split; [done|apply bool_decide_eq_false_2; by intros [[? ?] _]]].
  destruct (rv_user rev) as [u|]; cbn [mbind option_bind];
    [|split; [done|apply bool_decide_eq_false_2; by intros (_ & [? ?] & _)]].
  destruct (rv_revid rev) as [id|]; cbn [mbind option_bind];
    [|split; [done|apply bool_decide_eq_false_2; by intros (_ & _ & [? ?])]].
  split_and!; [done| |done|].
  - apply bool_decide_eq_true_2. split_and!; by eexists.
  - unfold edit_ok. cbn [e_article e_edit_summary e_policies_cited].
    rewrite Hs. split_and!; [done|by eexists|done].
Qed.

Lemma edits_of_spec article_title revs :
  match edits_of article_title revs with
  | Some es =>
      forallb complete (ai_revisions revs) = true
      ∧ e_edit_summary <$> es
        = (λ rev, default [] (rv_comment rev)) <$> ai_revisions revs
      ∧ Forall (edit_ok article_title) es
  | None => forallb complete (ai_revisions revs) = false
  end.
Proof.
  induction revs as [|rev revs IH]; [done|].
  cbn [edits_of]. rewrite ai_revisions_cons.
  pose proof (edit_of_spec article_title rev) as Hrev.
  destruct (edit_of article_title rev) as [[|e [|e' es0]]|];
    cbn [mbind option_bind].
  - rewrite Hrev.
    destruct (edits_of article_title revs) as [es|]; cbn [mbind option_bind app];
      done.
  - destruct Hrev as (-> & Hc & Hsum & Hok). cbn [forallb]. rewrite Hc.
    cbn [andb].
    destruct (edits_of article_title revs) as [es|]; cbn [mbind option_bind];
      [|done].
    destruct IH as (IH1 & IH2 & IH3). split_and!; [done| |].
    + cbn [app]. rewrite !fmap_cons. by f_equal.
    + by apply Forall_cons.
  - done.
  - destruct Hrev as [-> Hc]. cbn [forallb]. by rewrite Hc.
Qed.

(** [analyze_edit_history] is all or nothing: when every revision whose
    summary holds an AI keyword has its timestamp, user and revision id, the
    result has one entry for each of them, in order, each with the article
    title, the summary and the policies found in it; when one of them lacks
    a key, the result is empty, also for the revisions before it; and a
    failed request or a reply without a page gives the empty list. *)
Theorem edit_history_all_or_nothing (article_title : text)
    (revs : list revision) (pages : list history_page) (e : text) :
  let es := analyze_edit_history article_title
              (Json (HistoryData (Some (HistoryPage (Some revs) :: pages)))) in
  e_edit_summary <$> es
  = (if forallb complete (ai_revisions revs)
     then (λ rev, default [] (rv_comment rev)) <$> ai_revisions revs
     else [])
  ∧ Forall (λ ed, e_article ed = article_title
                  ∧ is_Some (ai_search (e_edit_summary ed))
                  ∧ e_policies_cited ed
                    = policies_cited_of
                        (extract_policy_mentions (e_edit_summary ed))) es
  ∧ analyze_edit_history article_title (Raised e) = []
  ∧ analyze_edit_history article_title (Json (HistoryData None)) = []
  ∧ analyze_edit_history article_title (Json (HistoryData (Some []))) = []
  ∧ analyze_edit_history article_title
      (Json (HistoryData (Some (HistoryPage None :: pages)))) = [].
Proof.
  intros es. unfold es, analyze_edit_history. cbn [hp_revisions].
  pose proof (edits_of_spec article_title revs) as Hspec.
  destruct (edits_of article_title revs) as [es'|]; cbn [default from_option id].
  - destruct Hspec as (H1 & H2 & H3). rewrite H1. by split_and!.
  - rewrite Hspec. by split_and!.
Qed.

Lemma discussion_of_ok article_title s :
  content s ≠ [] → Forall (discussion_ok article_title) (discussion_of article_title s).
Proof.
  intros Hne. unfold discussion_of.
  destruct (ai_search (content s)) as [m|] eqn:Hs; [|constructor].
  apply Forall_singleton. unfold discussion_ok.
  cbn [td_article td_ai_keyword_count td_section_length td_excerpt].
  pose proof (strip_length (replace_newlines (take 200 (content s)))) as Hlen.
  unfold replace_newlines in Hlen at 2. rewrite length_fmap, length_take in Hlen.
  split_and!; [done| | |lia|lia|].
  - unfold findall. rewrite length_fmap.
    apply search_finditer_nonempty in Hs.
    destruct (finditer IGNORECASE ai_pattern (content s)); [done|simpl; lia].
  - destruct (content s); [done|simpl; lia].
  - intros Hin%elem_of_strip. by apply replace_newlines_clean in Hin.
Qed.

(** Every discussion returned by [analyze_talk_page] carries the article
    title, counts at least one AI keyword in a section of at least one
    character, and has an excerpt of at most 200 characters, no longer than
    the section, without a newline; and there are no more discussions than
    the page has sections. *)
Theorem talk_discussions_bounded (article_title : text) (r : reply talk_data) :
  Forall (λ d, td_article d = article_title
               ∧ (1 ≤ td_ai_keyword_count d)%nat
               ∧ (1 ≤ td_section_length d)%nat
               ∧ (length (td_excerpt d) ≤ 200)%nat
               ∧ (length (td_excerpt d) ≤ td_section_length d)%nat
               ∧ (newline ∉ td_excerpt d))
    (analyze_talk_page article_title r)
  ∧ ∀ pages page revisions revision,
      r = Json (TalkData (Some (page :: pages))) →
      tp_revisions page = Some (revision :: revisions) →
      (length (analyze_talk_page article_title r)
       ≤ length (parse_talk_sections (default [] revision)))%nat.
Proof.
  split.
  - unfold analyze_talk_page.
    destruct r as [e|[[[|page pages]|]]]; try constructor.
    destruct (tp_revisions page) as [[|revision revisions]|]; try constructor.
    cbv zeta. set (doc := default [] revision).
    assert (Hne : Forall (λ s, content s ≠ []) (parse_talk_sections doc)).
    { unfold parse_talk_sections.
      pose proof (parse_lines_nonempty (split_lines doc) []
                    (MkSection (txt "Introduction") []) (Forall_nil_2 _)) as H.
      destruct (foldl parse_line _ _) as [sections current]. simpl in H.
      destruct (content current) as [|c cs] eqn:Hc; simpl; [done|].
      apply Forall_app. split; [done|]. constructor; [|done]. by rewrite Hc. }
    apply Forall_forall. intros d (s & Hd & Hs)%list_elem_of_bind.
    rewrite Forall_forall in Hne.
    pose proof (discussion_of_ok article_title s (Hne _ Hs)) as Hok.
    rewrite Forall_forall in Hok. by apply Hok.
  - intros pages page revisions revision -> Hrev. unfold analyze_talk_page.
    rewrite Hrev. cbv zeta. apply bind_length_le.
    intros s. unfold discussion_of. destruct (ai_search _); simpl; lia.
Qed.
End EnforcementHistory.

(** *** Sections with AI references of a WikiProject page *)

Section PolicySections.
Import Py Re Enforcement WikiProjectSections PolicySectionSpec.

Local Open Scope nat_scope.

Lemma close_section_filter kws sections_w current_w sections current :
  as_section <$> sections_w = filter (λ s, 0 < count_with kws (content s)) sections →
  as_section current_w = current →
  as_section <$> close_section kws sections_w current_w
  = filter (λ s, 0 < count_with kws (content s))
      (if nonempty (content current) then sections ++ [current] else sections)
  ∧ (Forall (λ s, ps_ai_references s = count_with kws (ps_content s)
                  ∧ 1 ≤ ps_ai_references s) sections_w →
     Forall (λ s, ps_ai_references s = count_with kws (ps_content s)
                  ∧ 1 ≤ ps_ai_references s)
       (close_section kws sections_w current_w)).
Proof.
  intros Hs <-. unfold close_section. cbn [as_section content].
  destruct (nonempty (ps_content current_w)); [|done].
  rewrite filter_app, filter_cons, filter_nil.
  destruct (0 <? count_with kws (ps_content current_w)) eqn:Hc.
  - apply Nat.ltb_lt in Hc. rewrite decide_True by done.
    rewrite fmap_app, Hs. split; [done|]. intros Hall.
    apply Forall_app. split; [done|]. apply Forall_singleton.
    cbn [ps_ai_references ps_content]. split; [done|exact Hc].
  - apply Nat.ltb_ge in Hc. rewrite decide_False by (cbn [as_section content]; lia).
    by rewrite app_nil_r.
Qed.

Lemma section_lines_filter kws lines : ∀ sections_w current_w sections current,
  as_section <$> sections_w = filter (λ s, 0 < count_with kws (content s)) sections →
  as_section current_w = current →
  Forall (λ s, ps_ai_references s = count_with kws (ps_content s)
               ∧ 1 ≤ ps_ai_references s) sections_w →
  let acc_w := foldl (section_line kws) (sections_w, current_w) lines in
  let acc := foldl parse_line (sections, current) lines in
  as_section <$> acc_w.1 = filter (λ s, 0 < count_with kws (content s)) acc.1
  ∧ as_section acc_w.2 = acc.2
  ∧ Forall (λ s, ps_ai_references s = count_with kws (ps_content s)
                 ∧ 1 ≤ ps_ai_references s) acc_w.1.
Proof.
  induction lines as [|line lines IH];
    intros sections_w current_w sections current Hs Hc Hall; [done|].
  cbn [foldl]. cbv zeta. unfold section_line at 2 4 6, parse_line at 2 4.
  destruct (re_match NOFLAGS header_pattern line) as [m|].
  - destruct (close_section_filter kws sections_w current_w sections current
                Hs Hc) as [H1 H2].
    by apply IH; [| |apply H2].
  - apply IH; [done| |done]. subst current. unfold as_section. done.
Qed.

(** [extract_ai_policy_sections] returns the sections that
    [parse_talk_sections] gives for the same text, with the same titles and
    bodies in the same order, less those without AI references; the
    number recorded with each section is its count of references, at least
    one. *)
Theorem policy_sections_are_filtered_sections (kws : list text)
    (wikitext : option text) :
  match wikitext with
  | None | Some [] => extract_with kws wikitext = []
  | Some text =>
      as_section <$> extract_with kws wikitext
      = filter (λ s, 0 < count_with kws (content s)) (parse_talk_sections text)
  end
  ∧ Forall (λ s, ps_ai_references s = count_with kws (ps_content s)
                 ∧ 1 ≤ ps_ai_references s)
      (extract_with kws wikitext).
Proof.
  destruct wikitext as [[|c t]|]; [by split|..|by split].
  unfold extract_with, parse_talk_sections.
  destruct (section_lines_filter kws (split_lines (c :: t)) []
              (PolicySection (txt "Introduction") [] 0 0) []
              (MkSection (txt "Introduction") []) eq_refl eq_refl
              (Forall_nil_2 _)) as (H1 & H2 & H3).
  cbv zeta in H1, H2, H3.
  destruct (foldl (section_line kws) _ _) as [sections_w current_w].
  destruct (foldl parse_line _ _) as [sections current].
  cbn [fst snd] in H1, H2, H3.
  destruct (close_section_filter kws sections_w current_w sections current
              H1 H2) as [H4 H5].
  split; [exact H4|by apply H5].
Qed.
End PolicySections.
(** *** The most watched WikiProjects *)

Section Popular.
Import Py Net PyStr WikiProject WikiProjectPopular PopularSpec.
Variable api : nat → option text → reply allpages_data.
Variable papi : nat → text → reply pages_data.

Lemma listed_more requests request p :
  listed api requests p → listed api (requests ++ [request]) p.
Proof.
  intros (Hs & i & r & data & Hi & Hr & Hp). split; [done|].
  exists i, r, data. split; [|done]. by apply lookup_app_l_Some.
Qed.

(** The pagination collects main pages that the replies to its requests
    listed, and nothing when it fails. *)
Lemma pagination_listed : ∀ fuel st,
  Forall (listed api (sent st)) (wikiprojects st) →
  match pagination api fuel st with
  | Some (Broke st') => Forall (listed api (sent st')) (wikiprojects st')
  | Some (Failed st') => wikiprojects st' = []
  | None => True
  end.
Proof.
  induction fuel as [|fuel IH]; intros st Hst; [done|].
  cbn [pagination]. cbv zeta.
  destruct (api (length (sent st)) (apcontinue_param (continue_token st)))
    as [e|data] eqn:Hapi; [done|].
  cbn [wikiprojects continue_token batch_count sent logged].
  assert (Hall : Forall
            (listed api (sent st ++ [apcontinue_param (continue_token st)]))
            (wikiprojects st ++
             filter (λ p, negb (bool_decide ("/"%char ∈ pg_title p)))
               (default [] (ap_allpages data)))).
  { apply Forall_app. split.
    - eapply Forall_impl; [exact Hst|]. intros p. apply listed_more.
    - apply Forall_forall.
      intros p [Hp Hin]%list_elem_of_filter. split.
      + intros Hs. apply negb_prop_elim in Hp. apply Hp.
        by apply bool_decide_pack.
      + exists (length (sent st)), (apcontinue_param (continue_token st)), data.
        split_and!; [|done|done].
        rewrite lookup_app_r by done. by rewrite Nat.sub_diag. }
  destruct (ap_continue data) as [token|]; [|done].
  by apply IH.
Qed.

Lemma update_first_pages page_id pd batch :
  page_of <$> update_first page_id pd batch = page_of <$> batch.
Proof.
  induction batch as [|wp batch IH]; [done|]. cbn [update_first].
  destruct (decide _); rewrite !fmap_cons; [done|]. by rewrite IH.
Qed.

Lemma update_batch_pages batch data :
  page_of <$> update_batch batch data = page_of <$> batch.
Proof.
  unfold update_batch. generalize (default [] (pgs_pages data)). intros items.
  revert batch. induction items as [|item items IH]; intros batch; [done|].
  cbn [foldl]. by rewrite IH, update_first_pages.
Qed.

Lemma popularity_pages batches : ∀ i subset,
  popularity papi i batches = Some subset →
  page_of <$> subset = page_of <$> concat batches.
Proof.
  induction batches as [|batch batches IH]; intros i subset Hp.
  - by injection Hp as <-.
  - cbn [popularity] in Hp. destruct (papi i _) as [e|data]; [done|].
    destruct (popularity papi (S i) batches) as [subset'|] eqn:Hrest; [|done].
    injection Hp as <-. cbn [concat].
    rewrite !fmap_app, update_batch_pages. f_equal. by eapply IH.
Qed.

Lemma chunks_from_concat n : ∀ fuel l,
  (length l ≤ fuel)%nat → concat (chunks_from fuel (S n) l) = l.
Proof.
  induction fuel as [|fuel IH]; intros l Hl.
  - destruct l; [done|simpl in Hl; lia].
  - destruct l as [|x l]; [done|]. cbn [chunks_from concat].
    rewrite IH; [apply take_drop|].
    rewrite length_drop. simpl in *. lia.
Qed.

Lemma sort_by_watchers_perm subset : sort_by_watchers subset ≡ₚ subset.
Proof.
  unfold sort_by_watchers. rewrite sorted_perm, <- list_fmap_compose.
  by rewrite list_fmap_id.
Qed.

Lemma sort_by_watchers_sorted subset :
  StronglySorted (λ x y, watchers y ≤ watchers x) (sort_by_watchers subset).
Proof.
  unfold sort_by_watchers.
  set (items := (λ wp, (wp, watchers wp)) <$> subset).
  assert (Hkey : Forall (λ x, x.2 = watchers x.1) (sorted_by_count_desc items)).
  { rewrite sorted_perm. unfold items. apply Forall_fmap, Forall_true. done. }
  pose proof (sorted_descending items) as Hs.
  induction Hs as [|x l Hs IH Hx]; [constructor|].
  apply Forall_cons in Hkey as [Hk Hkey]. rewrite fmap_cons. constructor.
  - by apply IH.
  - rewrite Forall_fmap. rewrite Forall_forall in Hx, Hkey. apply Forall_forall.
    intros y Hy. specialize (Hx y Hy). specialize (Hkey y Hy).
    unfold count_ge in Hx. simpl. by rewrite <- Hk, <- Hkey.
Qed.

Lemma up_to_sublist limit l : up_to limit l `sublist_of` l.
Proof. unfold up_to. destruct (0 <=? limit); apply sublist_take. Qed.

Lemma StronglySorted_sublist {A} (R : relation A) (l1 l2 : list A) :
  l1 `sublist_of` l2 → StronglySorted R l2 → StronglySorted R l1.
Proof.
  induction 1 as [|x l1 l2 Hsub IH|x l1 l2 Hsub IH]; intros Hs; [done|..].
  - apply StronglySorted_inv in Hs as [Hs Hx]. constructor; [by apply IH|].
    apply Forall_forall. intros y Hy. rewrite Forall_forall in Hx.
    apply Hx. by eapply elem_of_sublist.
  - apply StronglySorted_inv in Hs as [Hs _]. by apply IH.
Qed.

Lemma popularity_raised batches : ∀ i k batch e,
  batches !! k = Some batch →
  papi (i + k)%nat (join (txt "|") (wp_title <$> batch)) = Raised e →
  popularity papi i batches = None.
Proof.
  induction batches as [|batch0 batches IH]; intros i k batch e Hk He; [done|].
  cbn [popularity]. destruct k as [|k].
  - injection Hk as ->. rewrite Nat.add_0_r in He. by rewrite He.
  - destruct (papi i _) as [e0|data]; [done|].
    rewrite (IH (S i) k batch e); [done|exact Hk|].
    by replace (S i + k)%nat with (i + S k)%nat by lia.
Qed.

(** What [get_popular_wikiprojects] returns.  When the pagination raised,
    the empty list.  When the pagination ended by its [break]: at most
    [limit] projects, in descending order of watchers, each a main page (no
    slash in the title) listed in the reply to one of the requests that the
    pagination sent; and the empty list when the request for one of the
    batches of the popularity phase raised, so also when all of them do. *)
Theorem popular_wikiprojects_top (fuel : nat) (limit : Z) :
  match get_popular_wikiprojects_pagination api fuel with
  | None => get_popular_wikiprojects api papi fuel limit = None
  | Some (Failed st) =>
      get_popular_wikiprojects api papi fuel limit = Some []
  | Some (Broke st) =>
      ∃ top,
        get_popular_wikiprojects api papi fuel limit = Some top
        ∧ (0 ≤ limit → Z.of_nat (length top) ≤ limit)
        ∧ StronglySorted (λ x y, watchers y ≤ watchers x) top
        ∧ Forall (λ wp, ("/"%char ∉ wp_title wp)
                        ∧ ∃ (i : nat) request data,
                            sent st !! i = Some request
                            ∧ api i request = Json data
                            ∧ Page (wp_title wp) (wp_pageid wp)
                              ∈ default [] (ap_allpages data)) top
        ∧ (∀ (k : nat) batch e,
             batches_of (wikiprojects st) !! k = Some batch →
             papi k (join (txt "|") (wp_title <$> batch)) = Raised e →
             top = [])
        ∧ ((∀ i request, ∃ e, papi i request = Raised e) → top = [])
  end.
Proof.
  unfold get_popular_wikiprojects, get_popular_wikiprojects_pagination.
  pose proof (pagination_listed fuel (Locals [] None 0 [] []) (Forall_nil_2 _))
    as Hpag.
  destruct (pagination api fuel _) as [[st|st]|]; [|done|done].
  cbv zeta. unfold batches_of. set (subset0 := _ <$> wikiprojects st).
  destruct (popularity papi 0 (chunks 50 subset0)) as [subset|] eqn:Hpop.
  2:{ exists []. split_and!; try done; constructor. }
  pose proof (up_to_sublist limit (sort_by_watchers subset)) as Hsub.
  exists (up_to limit (sort_by_watchers subset)).
  split_and!.
  - done.
  - intros Hl. unfold up_to. apply Z.leb_le in Hl. rewrite Hl, length_take. lia.
  - eapply StronglySorted_sublist; [exact Hsub|]. apply sort_by_watchers_sorted.
  - apply Forall_forall. intros wp Hwp.
    eapply elem_of_sublist in Hwp; [|exact Hsub].
    rewrite sort_by_watchers_perm in Hwp.
    assert (Hin : page_of wp ∈ page_of <$> subset)
      by (apply list_elem_of_fmap; by exists wp).
    rewrite (popularity_pages _ _ _ Hpop) in Hin.
    unfold chunks in Hin. rewrite chunks_from_concat in Hin by done.
    unfold subset0 in Hin. rewrite <- list_fmap_compose in Hin.
    apply list_elem_of_fmap in Hin as (p & Hp & Hin).
    rewrite Forall_forall in Hpag. specialize (Hpag p Hin).
    destruct p as [t id]. cbn in Hp. unfold page_of in Hp.
    injection Hp as Ht Hid. rewrite Ht, Hid. exact Hpag.
  - intros k batch e Hk He.
    by rewrite (popularity_raised _ 0 k batch e Hk He) in Hpop.
  - intros Hfail. unfold chunks in Hpop.
    destruct subset0 as [|wp0 subset0'].
    + cbn in Hpop. injection Hpop as <-.
      change (sort_by_watchers []) with ([] : list wikiproject).
      unfold up_to. destruct (0 <=? limit); apply take_nil.
    + cbn [length chunks_from popularity] in Hpop.
      destruct (Hfail 0%nat (join (txt "|") (wp_title <$> take 50 (wp0 :: subset0'))))
        as [e He].
      by rewrite He in Hpop.
Qed.
End Popular.

(** *** The governance report *)

Section GovernanceReportBounds.
Import Py CounterSpec Governance GovernanceReport ReportSpec.

Lemma page_analysis_compiled page_title pc :
  compiled (page_analysis_of page_title pc).
Proof.
  unfold compiled, page_analysis_of, references_of, extract_ai_references,
    extract_with.
  cbn [pa_has_ai_content pa_ai_analysis]. split; [done|].
  destruct (default [] (pc_wikitext pc)) as [|c t]; [done|].
  cbn [ai_found unique_ai_terms total_ai_references].
  intros Hf%bool_decide_eq_true. split; [by eexists|lia].
Qed.

Lemma analyzed_pages_compiled pages :
  Forall compiled (analyze_governance_pages pages).
Proof.
  unfold analyze_governance_pages. apply Forall_forall.
  intros page ([t [pc|]] & Hin & _)%list_elem_of_bind; simpl in Hin.
  - apply list_elem_of_singleton in Hin as ->. apply page_analysis_compiled.
  - by apply elem_of_nil in Hin.
Qed.

Lemma count_pages data : ∀ stats ai,
  well_formed stats → well_formed ai → dominated ai stats →
  let acc := foldl count_page (stats, ai) data in
  well_formed acc.1 ∧ well_formed acc.2 ∧ dominated acc.2 acc.1
  ∧ sum_values acc.1 = sum_values stats + Z.of_nat (length data)
  ∧ sum_values acc.2
    = sum_values ai
      + Z.of_nat (length (filter (λ page, pa_has_ai_content page = true) data)).
Proof.
  induction data as [|page data IH]; intros stats ai Hs Ha Hd; cbv zeta.
  - simpl. split_and!; try done; lia.
  - cbn [foldl count_page].
    destruct (IH (counter_add (pa_page_type page) 1 stats)
                (if pa_has_ai_content page
                 then counter_add (pa_page_type page) 1 ai else ai))
      as (I1 & I2 & I3 & I4 & I5).
    + by apply well_formed_add.
    + destruct (pa_has_ai_content page); [by apply well_formed_add|done].
    + intros k. rewrite count_of_add. specialize (Hd k) as Hk.
      pose proof (Hd (pa_page_type page)) as Hp.
      destruct (pa_has_ai_content page).
      * rewrite count_of_add. destruct (decide _); lia.
      * destruct (decide (pa_page_type page = k)) as [<-|]; lia.
    + cbv zeta in I1, I2, I3, I4, I5. split_and!; try done.
      * rewrite I4, sum_values_add. cbn [length]. lia.
      * rewrite I5, filter_cons.
        destruct (pa_has_ai_content page).
        -- rewrite decide_True by done. rewrite sum_values_add. cbn [length]. lia.
        -- rewrite decide_False by done. lia.
Qed.

Lemma percentage_bounded (a b : Z) :
  0 ≤ a ≤ b → 0 < b →
  ∃ q, percentage a b = inr q ∧ (0 <= q)%Q ∧ (q <= 100)%Q.
Proof.
  intros Ha Hb. unfold percentage.
  destruct b as [|p|p]; [lia| |lia].
  cbn [Z.eqb]. eexists. split; [done|].
  unfold Qle, Qdiv, Qinv, inject_Z. cbn [Qnum Qden].
  unfold Qmult. cbn [Qnum Qden].
  rewrite !Pos.mul_1_l, !Pos.mul_1_r, !Z.mul_1_r. split; lia.
Qed.

Lemma for_all_ok {A B} (f : A → error + B) (Q : A → B → Prop) l :
  Forall (λ a, ∃ b, f a = inr b ∧ Q a b) l →
  ∃ bs, for_all f l = inr bs ∧ Forall2 Q l bs.
Proof.
  induction 1 as [|a l (b & Hb & Hq) _ (bs & Hbs & IH)].
  - exists []. split; [done|constructor].
  - exists (b :: bs). cbn [for_all]. rewrite Hb, Hbs. split; [done|by constructor].
Qed.

Lemma sorted_desc_perm {A} (key : A → Z) l : sorted_desc key l ≡ₚ l.
Proof.
  unfold sorted_desc. rewrite sorted_perm, <- list_fmap_compose.
  by rewrite list_fmap_id.
Qed.

Lemma sorted_desc_sorted {A} (key : A → Z) l :
  StronglySorted (λ x y, key y ≤ key x) (sorted_desc key l).
Proof.
  unfold sorted_desc.
  set (items := (λ x, (x, key x)) <$> l).
  assert (Hkey : Forall (λ x, x.2 = key x.1) (sorted_by_count_desc items)).
  { rewrite sorted_perm. unfold items. apply Forall_fmap, Forall_true. done. }
  pose proof (sorted_descending items) as Hs.
  induction Hs as [|x l' Hs IH Hx]; [constructor|].
  apply Forall_cons in Hkey as [Hk Hkey]. rewrite fmap_cons. constructor.
  - by apply IH.
  - rewrite Forall_fmap. rewrite Forall_forall in Hx, Hkey. apply Forall_forall.
    intros y Hy. specialize (Hx y Hy). specialize (Hkey y Hy).
    unfold count_ge in Hx. simpl. by rewrite <- Hk, <- Hkey.
Qed.

Lemma dict_get_elem {K V} `{EqDecision K} (d : dict K V) k v :
  NoDup (dict_keys d) → (k, v) ∈ d → dict_get d k = Some v.
Proof.
  induction d as [|[k0 v0] d IH]; intros Hnd Hin; [by apply elem_of_nil in Hin|].
  cbn [dict_get]. unfold dict_keys in Hnd. rewrite fmap_cons in Hnd.
  apply NoDup_cons in Hnd as [Hk0 Hnd].
  apply elem_of_cons in Hin as [[= -> ->]|Hin]; [by rewrite decide_True|].
  destruct (decide (k0 = k)) as [->|]; [|by apply IH].
  exfalso. apply Hk0. apply list_elem_of_fmap. by exists (k, v).
Qed.

Lemma Forall2_sorted {A B} (R : A → B → Prop) (R1 : relation A)
    (R2 : relation B) l bs :
  (∀ a b a' b', R a b → R a' b' → R1 a a' → R2 b b') →
  Forall2 R l bs → StronglySorted R1 l → StronglySorted R2 bs.
Proof.
  intros HR. induction 1 as [|a b l bs Hab Hl IH]; intros Hs; [constructor|].
  apply StronglySorted_inv in Hs as [Hs Ha]. constructor; [by apply IH|].
  clear IH Hs. induction Hl as [|a' b' l bs Hab' Hl IH]; [constructor|].
  apply Forall_cons in Ha as [Ha' Ha]. constructor; [by eapply HR|by apply IH].
Qed.

Lemma sum_list_at_least (ns : list nat) :
  Forall (λ n, (1 ≤ n)%nat) ns → (length ns ≤ sum_list ns)%nat.
Proof.
  induction 1 as [|n ns Hn _ IH]; [done|].
  change (sum_list (n :: ns)) with (n + sum_list ns)%nat. simpl. lia.
Qed.

Lemma report_of_compiled data :
  Forall compiled data →
  match generate_ai_governance_report data with
  | inl _ => False
  | inr None => data = []
  | inr (Some r) =>
      data ≠ []
      ∧ total_pages_analyzed r = length data
      ∧ (pages_with_ai_content r ≤ total_pages_analyzed r)%nat
      ∧ (pages_with_ai_content r ≤ total_references r)%nat
      ∧ (0 <= ai_coverage_percentage r)%Q ∧ (ai_coverage_percentage r <= 100)%Q
      ∧ sum_values (total_distribution r) = Z.of_nat (total_pages_analyzed r)
      ∧ sum_values (ai_content_distribution r)
        = Z.of_nat (pages_with_ai_content r)
      ∧ (∀ t, count_of (ai_content_distribution r) t
              ≤ count_of (total_distribution r) t)
      ∧ (ai_coverage_by_type r).*1 = (total_distribution r).*1
      ∧ Forall (λ kv, (0 <= kv.2)%Q ∧ (kv.2 <= 100)%Q) (ai_coverage_by_type r)
      ∧ (length (most_ai_relevant_pages r) ≤ 10)%nat
      ∧ StronglySorted (λ x y, (rp_ai_references y ≤ rp_ai_references x)%nat)
          (most_ai_relevant_pages r)
      ∧ Forall (λ p, (1 ≤ rp_ai_references p)%nat) (most_ai_relevant_pages r)
  end.
Proof.
  intros Hdata. destruct data as [|p0 ps]; [done|].
  set (data := p0 :: ps) in *. unfold generate_ai_governance_report.
  change (match data with [] => inr None | _ => ?x end) with x.
  cbv zeta.
  set (ai_pages := filter (λ page, pa_has_ai_content page = true) data).
  destruct (count_pages data [] [] well_formed_nil well_formed_nil)
    as (Hs & Ha & Hdom & Hsum & Hsum_ai); [done|].
  cbv zeta in Hs, Ha, Hdom, Hsum, Hsum_ai. fold ai_pages in Hsum_ai.
  revert Hs Ha Hdom Hsum Hsum_ai. unfold dict.
  match goal with
  | |- context [@foldl ?A ?B count_page ?a data] =>
      destruct (@foldl A B count_page a data) as [stats ai]
  end.
  cbn [fst snd]. intros Hs Ha Hdom Hsum Hsum_ai.
  assert (Hai : Forall (λ page, is_Some (unique_ai_terms (pa_ai_analysis page))
                                ∧ (1 ≤ references_of page)%nat) ai_pages).
  { apply Forall_forall. intros page [Hflag Hin]%list_elem_of_filter.
    rewrite Forall_forall in Hdata. destruct (Hdata _ Hin) as [Hf Hfound].
    apply Hfound. by rewrite <- Hf. }
  destruct (for_all_ok terms_of (λ _ _, True) ai_pages) as (terms & -> & _).
  { eapply Forall_impl; [exact Hai|]. intros page [[ts Hts] _].
    exists ts. unfold terms_of. by rewrite Hts. }
  pose proof (length_filter (λ page, pa_has_ai_content page = true) data) as Hlen.
  fold ai_pages in Hlen.
  destruct (percentage_bounded (Z.of_nat (length ai_pages))
              (Z.of_nat (length data))) as (cov & -> & Hcov1 & Hcov2);
    [lia|simpl; lia|].
  destruct (for_all_ok
              (λ item, match percentage (default 0 (dict_get ai item.1)) item.2 with
                       | inl e => inl e
                       | inr p => inr (item.1, p)
                       end)
              (λ item kv, kv.1 = item.1 ∧ (0 <= kv.2)%Q ∧ (kv.2 <= 100)%Q) stats)
    as (by_type & -> & Hby).
  { apply Forall_forall. intros [t total] Hin. cbn [fst snd].
    destruct Hs as [Hnd Hpos]. rewrite Forall_forall in Hpos.
    pose proof (Hpos _ Hin) as Htotal. cbn [snd] in Htotal.
    pose proof (Hdom t) as Hle. unfold count_of in Hle at 2.
    rewrite (dict_get_elem _ _ _ Hnd Hin) in Hle. cbn in Hle.
    pose proof (well_formed_count ai t Ha) as H0.
    destruct (percentage_bounded (count_of ai t) total) as (q & Hq & Hq1 & Hq2);
      [lia|lia|].
    unfold count_of in Hq. rewrite Hq. by exists (t, q). }
  set (heavy := sorted_desc (λ page, Z.of_nat (references_of page)) ai_pages).
  assert (Hheavy : Forall (λ page, is_Some (unique_ai_terms (pa_ai_analysis page))
                                   ∧ (1 ≤ references_of page)%nat)
                     (take 10 heavy)).
  { apply Forall_take. unfold heavy. by rewrite sorted_desc_perm. }
  destruct (for_all_ok
              (λ page, match terms_of page with
                       | inl e => inl e
                       | inr terms =>
                           inr (RelevantPage (pa_title page) (pa_page_type page)
                                  (references_of page) (size terms)
                                  (pa_last_modified page))
                       end)
              (λ page rp, rp_ai_references rp = references_of page
                          ∧ (1 ≤ references_of page)%nat) (take 10 heavy))
    as (relevant & -> & Hrel).
  { eapply Forall_impl; [exact Hheavy|]. intros page [[ts Hts] Hrefs].
    unfold terms_of. rewrite Hts. by eexists. }
  cbn [total_pages_analyzed pages_with_ai_content total_references
       ai_coverage_percentage total_distribution ai_content_distribution
       ai_coverage_by_type most_ai_relevant_pages].
  split_and!.
  - done.
  - done.
  - exact Hlen.
  - etrans; [|apply sum_list_at_least].
    + by rewrite length_fmap.
    + apply Forall_fmap. eapply Forall_impl; [exact Hai|]. by intros ? [_ ?].
  - exact Hcov1.
  - exact Hcov2.
  - exact Hsum.
  - exact Hsum_ai.
  - exact Hdom.
  - clear -Hby. induction Hby as [|item kv stats by_type [Hk _] _ IH]; [done|].
    rewrite !fmap_cons. by f_equal.
  - clear -Hby. induction Hby as [|item kv stats by_type [_ Hq] _ IH];
      constructor; done.
  - apply Forall2_length in Hrel. rewrite <- Hrel, length_take. lia.
  - eapply (Forall2_sorted _ (λ x y, Z.of_nat (references_of y)
                                       ≤ Z.of_nat (references_of x)));
      [|exact Hrel|].
    + intros a b a' b' [-> _] [-> _] Hle. lia.
    + eapply StronglySorted_sublist; [apply sublist_take|].
      apply sorted_desc_sorted.
  - clear -Hrel. induction Hrel as [|page rp l bs [Heq Hr] _ IH];
      constructor; [by rewrite Heq|done].
Qed.

(** [generate_ai_governance_report] on the pages that
    [analyze_governance_pages] compiled never raises: the empty dictionary
    for no pages, and otherwise the pages with AI content are among the
    pages and have at least one reference each, the coverage percentages
    lie between 0 and 100, the two tables by page type sum to the two page
    counts with the AI table below the other, and the most relevant pages
    are at most ten, in descending order of references. *)
Theorem governance_report_bounded (pages : list (text * option page_content)) :
  let data := analyze_governance_pages pages in
  match generate_ai_governance_report data with
  | inl _ => False
  | inr None => data = []
  | inr (Some r) =>
      data ≠ []
      ∧ total_pages_analyzed r = length data
      ∧ (pages_with_ai_content r ≤ total_pages_analyzed r)%nat
      ∧ (pages_with_ai_content r ≤ total_references r)%nat
      ∧ (0 <= ai_coverage_percentage r)%Q ∧ (ai_coverage_percentage r <= 100)%Q
      ∧ sum_values (total_distribution r) = Z.of_nat (total_pages_analyzed r)
      ∧ sum_values (ai_content_distribution r)
        = Z.of_nat (pages_with_ai_content r)
      ∧ (∀ t, count_of (ai_content_distribution r) t
              ≤ count_of (total_distribution r) t)
      ∧ (ai_coverage_by_type r).*1 = (total_distribution r).*1
      ∧ Forall (λ kv, (0 <= kv.2)%Q ∧ (kv.2 <= 100)%Q) (ai_coverage_by_type r)
      ∧ (length (most_ai_relevant_pages r) ≤ 10)%nat
      ∧ StronglySorted (λ x y, (rp_ai_references y ≤ rp_ai_references x)%nat)
          (most_ai_relevant_pages r)
      ∧ Forall (λ p, (1 ≤ rp_ai_references p)%nat) (most_ai_relevant_pages r)
  end.
Proof. intros data. apply report_of_compiled, analyzed_pages_compiled. Qed.
End GovernanceReportBounds.
